(** * skeleton: the refresh bus and the tab registry

    A shallow embedding of the Go package [skeleton] (the updater, the
    header and the skeleton, in their latest revision) and the properties
    of its refresh bus, tab registry, lock state and view.

    Conventions of the embedding.
    - A Go method [func (x *T) M(args)] is a function [T.M args x] that
      returns the new value of the receiver; a method that can panic
      (index out of range) returns an [option], [None] being the panic.
    - The process-wide singletons ([updaterInstance], [vp]) are stored once,
      in the header record; the fields of the same name in [Skeleton] are
      pointers to the same objects and are projections here.
    - Go's [int] is [Z].  Index arithmetic stays within [-1 .. len] of a
      slice and is exact; sums of caller-supplied paddings and sizes wrap
      at 64 bits.
    - The mutex [mu] of the updater only makes each flag access atomic; a
      critical section is one step of the model, and what a goroutine does
      before the lock and after the unlock are steps of their own.
    - Pages and the widget bar are used through their interfaces.  Their
      handlers are functions of the message; a handler that calls back into
      the skeleton is a separate call of the model.
    - Colours, alignment and the lipgloss styles do not influence any
      decision of the package; the key map, the page position and the style
      values are left out, and rendered output is a symbolic [Block]. *)

From Stdlib Require Import ZArith Lia Ascii.
From stdpp Require Import base option list strings gmap.

Local Open Scope Z_scope.

(** ** Messages and commands of the host event loop *)

(** The result of matching a key press against the key map, in the order of
    the [switch] in [Skeleton.Update]: the first binding that matches. *)
Inductive Key : Type :=
| KeyQuit
| KeySwitchTabLeft
| KeySwitchTabRight
| KeyOther.

(** [tea.Msg] values the package distinguishes; [P] is the page type. *)
Inductive Msg (P : Type) : Type :=
| WindowSizeMsg (Width Height : Z)
| KeyMsg (k : Key)
| AddPageMsg (Key Title : string) (Page : P)
| UpdateMsg
| HeaderSizeMsg (NotEnoughToHandleHeaders : bool)
| WidgetSizeMsg (NotEnoughToHandleWidgets : bool)
| IAMActivePage
| ExternalMsg (tag : nat).

Arguments WindowSizeMsg {P} Width Height.
Arguments KeyMsg {P} k.
Arguments AddPageMsg {P} Key Title Page.
Arguments UpdateMsg {P}.
Arguments HeaderSizeMsg {P} NotEnoughToHandleHeaders.
Arguments WidgetSizeMsg {P} NotEnoughToHandleWidgets.
Arguments IAMActivePage {P}.
Arguments ExternalMsg {P} tag.

(** [tea.Cmd]: the closures the package builds, by what they do when the
    host runs them. *)
#[warnings="-register-all"]
Inductive Cmd : Type :=
| CmdNil
| CmdListen
| CmdIAMActivePage
| CmdHeaderSize (NotEnoughToHandleHeaders : bool)
| CmdQuit
| CmdExternal (tag : nat)
| CmdBatch (cmds : list Cmd).

(** The [tea.Model] interface every page implements. *)
Class TeaModel (P : Type) : Type := {
  model_Init : P -> Cmd;
  model_Update : P -> Msg P -> P * Cmd;
  model_View : P -> string
}.

(** The footer widget bar ([widget.go]) is used through this interface:
    its constructor, its event handler, its view, its start-up command and
    [len(w.widgets)]. *)
Class WidgetModel (W P : Type) : Type := {
  newWidget : W;
  widget_Init : W -> Cmd;
  widget_Update : W -> Msg P -> W * Cmd;
  widget_View : W -> string;
  widget_len : W -> Z
}.

(** [len([]rune(s))], the number of code points of a Go string. *)
Class RuneCount : Type := runeCount : string -> Z.

(** ** 64-bit integers *)

Definition wrap64 (z : Z) : Z := (z + 2 ^ 63) mod 2 ^ 64 - 2 ^ 63.
Definition int_add (a b : Z) : Z := wrap64 (a + b).
Definition int_sub (a b : Z) : Z := wrap64 (a - b).

(** [l[i]] for a Go [int] index: [None] is the run-time panic. *)
Definition index {A : Type} (l : list A) (i : Z) : option A :=
  if i <? 0 then None else l !! Z.to_nat i.

(** ** Buffered channels *)

Module Chan.
Section Chan.
Context {A : Type}.

Record t : Type := make { buf : list A; capacity : nat }.

(** [make(chan A, n)] *)
Definition new (n : nat) : t := make [] n.

Definition len (c : t) : nat := length (buf c).

(** [c <- v]: [None] when the send would block. *)
Definition send (v : A) (c : t) : option t :=
  if (len c <? capacity c)%nat then Some (make (buf c ++ [v]) (capacity c))
  else None.

(** [<-c]: [None] when the receive would block. *)
Definition recv (c : t) : option (A * t) :=
  match buf c with
  | [] => None
  | v :: rest => Some (v, make rest (capacity c))
  end.

(** [select { case c <- v: default: }] *)
Definition trySend (v : A) (c : t) : t :=
  match send v c with
  | Some c' => c'
  | None => c
  end.
End Chan.
Arguments t : clear implicits.
End Chan.

(** ** updater.go *)

Module Updater.
Section Updater.
Context {P : Type}.

Record t : Type := make {
  rcv : Chan.t (Msg P);
  listening : bool
}.

Definition set_rcv (c : Chan.t (Msg P)) (u : t) : t := make c (listening u).
Definition set_listening (b : bool) (u : t) : t := make (rcv u) b.

(** The value [NewUpdater] creates on its first call. *)
Definition NewUpdater : t := make (Chan.new 256) false.

Definition UpdateMsgInstance : Msg P := UpdateMsg.

(** [Listen] returns [nil] when a listener is already active. *)
Definition Listen (u : t) : t * Cmd :=
  if listening u then (u, CmdNil)
  else (set_listening true u, CmdListen).

(** The closure [Listen] returns runs in three steps: it receives from
    the channel (and blocks while the channel is empty), it clears the
    guard under the mutex, and it returns the message to the host. *)
Definition listenReceive (u : t) : option (Msg P * t) :=
  match Chan.recv (rcv u) with
  | Some (msg, c) => Some (msg, set_rcv c u)
  | None => None
  end.

Definition listenRelease (u : t) : t := set_listening false u.

(** The whole closure, run without interruption. *)
Definition runListenCmd (u : t) : option (Msg P * t) :=
  match listenReceive u with
  | Some (msg, u') => Some (msg, listenRelease u')
  | None => None
  end.

Definition UpdateWithMsg (msg : Msg P) (u : t) : t :=
  set_rcv (Chan.trySend msg (rcv u)) u.

Definition Update (u : t) : t := UpdateWithMsg UpdateMsgInstance u.

(** *** The bus with its listener goroutines

    The host runs every command in a goroutine of its own.  A goroutine
    that runs the closure of [Listen] is about to receive, or holds a
    message and is about to clear the guard, or has cleared the guard and
    is about to return the message.  Between the unlock and the return
    other goroutines run. *)
Inductive ListenPc : Type :=
| AtReceive
| AtRelease (msg : Msg P)
| AtReturn (msg : Msg P).

Record Bus : Type := mkBus {
  bus_updater : t;
  bus_goroutines : list ListenPc;
  bus_delivered : list (Msg P)
}.

(** The goroutine has not cleared the guard yet. *)
Definition holdsGuard (pc : ListenPc) : bool :=
  match pc with
  | AtReceive | AtRelease _ => true
  | AtReturn _ => false
  end.

(** The listeners: the goroutines that still hold the subscription. *)
Definition bus_waits (b : Bus) : list ListenPc :=
  List.filter holdsGuard (bus_goroutines b).

Inductive BusEvent : Type :=
| EvUpdate
| EvUpdateWithMsg (msg : Msg P)
| EvListen
| EvReceive (i : nat)
| EvRelease (i : nat)
| EvReturn (i : nat).

Definition NewBus : Bus := mkBus NewUpdater [] [].

(** One event; an event that is not enabled (a goroutine that does not
    exist, a receive on an empty channel) leaves the bus as it is. *)
Definition bus_step (ev : BusEvent) (b : Bus) : Bus :=
  match ev with
  | EvUpdate =>
      mkBus (Update (bus_updater b)) (bus_goroutines b) (bus_delivered b)
  | EvUpdateWithMsg msg =>
      mkBus (UpdateWithMsg msg (bus_updater b)) (bus_goroutines b)
            (bus_delivered b)
  | EvListen =>
      match Listen (bus_updater b) with
      | (u, CmdListen) =>
          mkBus u (bus_goroutines b ++ [AtReceive]) (bus_delivered b)
      | (u, _) => mkBus u (bus_goroutines b) (bus_delivered b)
      end
  | EvReceive i =>
      match bus_goroutines b !! i with
      | Some AtReceive =>
          match listenReceive (bus_updater b) with
          | Some (msg, u) =>
              mkBus u (<[i := AtRelease msg]> (bus_goroutines b))
                    (bus_delivered b)
          | None => b
          end
      | _ => b
      end
  | EvRelease i =>
      match bus_goroutines b !! i with
      | Some (AtRelease msg) =>
          mkBus (listenRelease (bus_updater b))
                (<[i := AtReturn msg]> (bus_goroutines b))
                (bus_delivered b)
      | _ => b
      end
  | EvReturn i =>
      match bus_goroutines b !! i with
      | Some (AtReturn msg) =>
          mkBus (bus_updater b) (delete i (bus_goroutines b))
                (bus_delivered b ++ [msg])
      | _ => b
      end
  end.

Definition bus_run (evs : list BusEvent) (b : Bus) : Bus :=
  foldl (fun b ev => bus_step ev b) b evs.

(** Goroutines blocked on the channel. *)
Definition atReceive (pc : ListenPc) : bool :=
  match pc with
  | AtReceive => true
  | AtRelease _ | AtReturn _ => false
  end.

(** Goroutines that have cleared the guard and not returned yet. *)
Definition atReturn (pc : ListenPc) : bool :=
  match pc with
  | AtReturn _ => true
  | AtReceive | AtRelease _ => false
  end.

Definition returning (b : Bus) : nat :=
  length (List.filter atReturn (bus_goroutines b)).

Definition outstanding (b : Bus) : nat :=
  length (List.filter atReceive (bus_waits b)).
End Updater.
Arguments t : clear implicits.
Arguments Bus : clear implicits.
Arguments BusEvent : clear implicits.
Arguments ListenPc : clear implicits.
End Updater.

(** ** Rendered output

    The styling and joining primitives of lipgloss are kept symbolic. *)

Inductive Style : Type :=
| TitleStyleActive
| TitleStyleInactive
| TitleStyleDisabled
| Foreground (color : string)
| PageFrame (borderColor : string) (width : Z).

#[warnings="-register-all"]
Inductive Block : Type :=
| Text (s : string)
| Rule (n : Z)  (* strings.Repeat("─", n) *)
| Render (st : Style) (b : Block)
| JoinVertical (bs : list Block)
| JoinHorizontal (bs : list Block).

(** ** viewport.go: the terminal size, one object per process *)

Module Viewport.
Record t : Type := make { Width : Z; Height : Z }.

Definition newTerminalViewport : t := make 80 24.
End Viewport.

(** ** header.go *)

Module header.
Section header.
Context {P : Type} `{!RuneCount}.

Record commonHeader : Type := mkHeader { key : string; title : string }.

Record headerProperties : Type := mkProperties {
  borderColor : string;
  leftTabPadding : Z;
  rightTabPadding : Z
}.

Record t : Type := make {
  termReady : bool;
  currentTab : Z;
  viewport : Viewport.t;
  headers : list commonHeader;
  properties : headerProperties;
  titleLength : Z;
  updater : Updater.t P;
  lockedTabs : gmap string bool
}.

Definition set_termReady (b : bool) (h : t) : t :=
  make b (currentTab h) (viewport h) (headers h) (properties h)
       (titleLength h) (updater h) (lockedTabs h).
Definition set_currentTab (i : Z) (h : t) : t :=
  make (termReady h) i (viewport h) (headers h) (properties h)
       (titleLength h) (updater h) (lockedTabs h).
Definition set_viewport (v : Viewport.t) (h : t) : t :=
  make (termReady h) (currentTab h) v (headers h) (properties h)
       (titleLength h) (updater h) (lockedTabs h).
Definition set_headers (l : list commonHeader) (h : t) : t :=
  make (termReady h) (currentTab h) (viewport h) l (properties h)
       (titleLength h) (updater h) (lockedTabs h).
Definition set_properties (p : headerProperties) (h : t) : t :=
  make (termReady h) (currentTab h) (viewport h) (headers h) p
       (titleLength h) (updater h) (lockedTabs h).
Definition set_titleLength (n : Z) (h : t) : t :=
  make (termReady h) (currentTab h) (viewport h) (headers h) (properties h)
       n (updater h) (lockedTabs h).
Definition set_updater (u : Updater.t P) (h : t) : t :=
  make (termReady h) (currentTab h) (viewport h) (headers h) (properties h)
       (titleLength h) u (lockedTabs h).
Definition set_lockedTabs (m : gmap string bool) (h : t) : t :=
  make (termReady h) (currentTab h) (viewport h) (headers h) (properties h)
       (titleLength h) (updater h) m.

Definition defaultHeaderProperties : headerProperties :=
  mkProperties "39" 2 2.

Definition newHeader : t :=
  make false 0 Viewport.newTerminalViewport [] defaultHeaderProperties 0
       Updater.NewUpdater ∅.

Definition Init (h : t) : Cmd := CmdNil.

(** The loop body of [calculateTitleLength]. *)
Definition addTitle (h : t) (titleLen : Z) (hdr : commonHeader) : Z :=
  let titleLen := int_add titleLen (runeCount (title hdr)) in
  let titleLen :=
    int_add titleLen
            (int_add (leftTabPadding (properties h))
                     (rightTabPadding (properties h))) in
  int_add titleLen 2.

Definition titleLen (h : t) : Z := foldl (addTitle h) 0 (headers h).

Definition requiredLineCountForLine (h : t) : Z :=
  int_sub (Viewport.Width (viewport h)) (int_add (titleLen h) 2).

Definition calculateTitleLength (h : t) : t * Cmd :=
  let required := requiredLineCountForLine h in
  let h := set_titleLength (titleLen h) h in
  if required <? 0 then (h, CmdHeaderSize false)
  else (h, CmdHeaderSize true).

Definition Update (msg : Msg P) (h : t) : t * Cmd :=
  match msg with
  | WindowSizeMsg w ht =>
      let h :=
        if negb (termReady h) then
          if (0 <? w) && (0 <? ht) then set_termReady true h else h
        else h in
      let h := set_viewport (Viewport.make w ht) h in
      let h := fst (calculateTitleLength h) in
      let '(h, cmd) := calculateTitleLength h in
      (h, CmdBatch [cmd])
  | _ => (h, CmdBatch [])
  end.

Definition SetCurrentTab (tab : Z) (h : t) : t := set_currentTab tab h.

Definition GetCurrentTab (h : t) : Z := currentTab h.

(** [h.lockedTabs[key]]: a missing key reads as [false]. *)
Definition IsTabLocked (k : string) (h : t) : bool :=
  default false (lockedTabs h !! k).

Definition LockTab (k : string) (h : t) : t :=
  let h := set_lockedTabs (<[k := true]> (lockedTabs h)) h in
  set_updater (Updater.Update (updater h)) h.

Definition UnlockTab (k : string) (h : t) : t :=
  let h := set_lockedTabs (delete k (lockedTabs h)) h in
  set_updater (Updater.Update (updater h)) h.

(** [LockTab] does not touch [h.headers], so the [range] loop of
    [SetLockTabs] is a fold over the headers it started with. *)
Definition SetLockTabs (lock : bool) (h : t) : t :=
  let h :=
    if lock then foldl (fun h hdr => LockTab (key hdr) h) h (headers h)
    else set_lockedTabs ∅ h in
  set_updater (Updater.Update (updater h)) h.

Definition GetLockTabs (h : t) : bool :=
  forallb (fun hdr => IsTabLocked (key hdr) h) (headers h).

Definition View (h : t) : Block :=
  if negb (termReady h) then Text "setting up terminal..."
  else
    let requiredLineCount :=
      int_sub (Viewport.Width (viewport h)) (int_add (titleLength h) 2) in
    if requiredLineCount <? 0 then Text ""
    else
      let line := Render (Foreground (borderColor (properties h)))
                         (Rule requiredLineCount) in
      let renderedTitles :=
        Text "" ::
        imap (fun i hdr =>
                if decide (Z.of_nat i = currentTab h)
                then Render TitleStyleActive (Text (title hdr))
                else if GetLockTabs h || IsTabLocked (key hdr) h
                     then Render TitleStyleDisabled (Text (title hdr))
                     else Render TitleStyleInactive (Text (title hdr)))
             (headers h) in
      let leftCorner :=
        Render (Foreground (borderColor (properties h)))
               (JoinVertical [Text "╭"; Text "│"]) in
      let rightCorner :=
        Render (Foreground (borderColor (properties h)))
               (JoinVertical [Text "╮"; Text "│"]) in
      JoinHorizontal
        [leftCorner; JoinHorizontal (renderedTitles ++ [line]); rightCorner].

Definition SetLeftPadding (padding : Z) (h : t) : t :=
  let p := properties h in
  let h := set_properties
             (mkProperties (borderColor p) padding (rightTabPadding p)) h in
  fst (calculateTitleLength h).

Definition SetRightPadding (padding : Z) (h : t) : t :=
  let p := properties h in
  let h := set_properties
             (mkProperties (borderColor p) (leftTabPadding p) padding) h in
  fst (calculateTitleLength h).

Definition AddCommonHeader (k ttl : string) (h : t) : t :=
  let h := set_headers (headers h ++ [mkHeader k ttl]) h in
  let h := fst (calculateTitleLength h) in
  set_updater (Updater.Update (updater h)) h.

Definition UpdateCommonHeader (k ttl : string) (h : t) : t :=
  let h :=
    set_headers
      (map (fun hdr => if decide (key hdr = k) then mkHeader (key hdr) ttl
                       else hdr) (headers h)) h in
  let h := fst (calculateTitleLength h) in
  set_updater (Updater.Update (updater h)) h.

(** The loop of [DeleteCommonHeader].  [range h.headers] fixes the slice
    it iterates over (backing array [arr], original length) before the
    first iteration, and reads the element at [i] from the array when
    iteration [i] starts.  A match re-slices in place:
    [append(h.headers[:i], h.headers[i+1:]...)] moves the elements
    [i+1 .. len-1] of the array one position to the left and shortens
    [h.headers] by one; it panics when [i+1] exceeds the current length.
    [n] counts the iterations that remain. *)
Fixpoint deleteLoop (k : string) (n i : nat)
         (arr : list commonHeader) (len : nat)
  : option (list commonHeader * nat) :=
  match n with
  | O => Some (arr, len)
  | S n' =>
      match arr !! i with
      | None => None
      | Some hdr =>
          if decide (key hdr = k) then
            if decide (i + 1 <= len)%nat then
              deleteLoop k n' (S i)
                (take i arr ++ take (len - (i + 1)) (drop (i + 1) arr)
                      ++ drop (len - 1) arr)
                (len - 1)%nat
            else None
          else deleteLoop k n' (S i) arr len
      end
  end.

Definition DeleteCommonHeader (k : string) (h : t) : option t :=
  match deleteLoop k (length (headers h)) 0 (headers h)
                   (length (headers h)) with
  | Some (arr, len) =>
      let h := set_headers (take len arr) h in
      let h := fst (calculateTitleLength h) in
      Some (set_updater (Updater.Update (updater h)) h)
  | None => None
  end.
End header.
Arguments t : clear implicits.
End header.

(** ** skeleton.go *)

Module Skeleton.
Section Skeleton.
Context {P W : Type} `{!RuneCount, !TeaModel P, !WidgetModel W P}.

Record skeletonProperties : Type := mkProperties { borderColor : string }.

Record t : Type := make {
  termReady : bool;
  termSizeNotEnoughToHandleHeaders : bool;
  termSizeNotEnoughToHandleWidgets : bool;
  lockTabs : bool;
  currentTab : Z;
  header : header.t P;
  widget : W;
  pages : list P;
  properties : skeletonProperties
}.

Definition set_termReady (b : bool) (s : t) : t :=
  make b (termSizeNotEnoughToHandleHeaders s)
       (termSizeNotEnoughToHandleWidgets s) (lockTabs s) (currentTab s)
       (header s) (widget s) (pages s) (properties s).
Definition set_termSizeNotEnoughToHandleHeaders (b : bool) (s : t) : t :=
  make (termReady s) b (termSizeNotEnoughToHandleWidgets s) (lockTabs s)
       (currentTab s) (header s) (widget s) (pages s) (properties s).
Definition set_termSizeNotEnoughToHandleWidgets (b : bool) (s : t) : t :=
  make (termReady s) (termSizeNotEnoughToHandleHeaders s) b (lockTabs s)
       (currentTab s) (header s) (widget s) (pages s) (properties s).
Definition set_lockTabs (b : bool) (s : t) : t :=
  make (termReady s) (termSizeNotEnoughToHandleHeaders s)
       (termSizeNotEnoughToHandleWidgets s) b (currentTab s)
       (header s) (widget s) (pages s) (properties s).
Definition set_currentTab (i : Z) (s : t) : t :=
  make (termReady s) (termSizeNotEnoughToHandleHeaders s)
       (termSizeNotEnoughToHandleWidgets s) (lockTabs s) i
       (header s) (widget s) (pages s) (properties s).
Definition set_header (h : header.t P) (s : t) : t :=
  make (termReady s) (termSizeNotEnoughToHandleHeaders s)
       (termSizeNotEnoughToHandleWidgets s) (lockTabs s) (currentTab s)
       h (widget s) (pages s) (properties s).
Definition set_widget (w : W) (s : t) : t :=
  make (termReady s) (termSizeNotEnoughToHandleHeaders s)
       (termSizeNotEnoughToHandleWidgets s) (lockTabs s) (currentTab s)
       (header s) w (pages s) (properties s).
Definition set_pages (l : list P) (s : t) : t :=
  make (termReady s) (termSizeNotEnoughToHandleHeaders s)
       (termSizeNotEnoughToHandleWidgets s) (lockTabs s) (currentTab s)
       (header s) (widget s) l (properties s).

(** [s.updater] and [s.viewport] point to the objects the header points
    to. *)
Definition updater (s : t) : Updater.t P := header.updater (header s).
Definition set_updater (u : Updater.t P) (s : t) : t :=
  set_header (header.set_updater u (header s)) s.
Definition viewport (s : t) : Viewport.t := header.viewport (header s).
Definition set_viewport (v : Viewport.t) (s : t) : t :=
  set_header (header.set_viewport v (header s)) s.

Definition defaultSkeletonProperties : skeletonProperties :=
  mkProperties "39".

Definition NewSkeleton : t :=
  make false false false false 0 header.newHeader newWidget []
       defaultSkeletonProperties.

Definition TriggerUpdate (s : t) : t :=
  set_updater (Updater.Update (updater s)) s.

Definition TriggerUpdateWithMsg (msg : Msg P) (s : t) : t :=
  set_updater (Updater.UpdateWithMsg msg (updater s)) s.

Definition SetTabLeftPadding (padding : Z) (s : t) : t :=
  let s := set_header (header.SetLeftPadding padding (header s)) s in
  set_updater (Updater.Update (updater s)) s.

Definition SetTabRightPadding (padding : Z) (s : t) : t :=
  let s := set_header (header.SetRightPadding padding (header s)) s in
  set_updater (Updater.Update (updater s)) s.

Definition LockTabs (s : t) : t :=
  let s := set_header (header.SetLockTabs true (header s)) s in
  let s := set_lockTabs true s in
  set_updater (Updater.Update (updater s)) s.

Definition LockTab (k : string) (s : t) : t :=
  let s := set_header (header.LockTab k (header s)) s in
  set_updater (Updater.Update (updater s)) s.

Definition UnlockTab (k : string) (s : t) : t :=
  let s := set_header (header.UnlockTab k (header s)) s in
  set_updater (Updater.Update (updater s)) s.

Definition IsTabLocked (k : string) (s : t) : bool :=
  header.IsTabLocked k (header s).

(** [UnlockTab] does not touch [s.header.headers], so the [range] loop
    is a fold over the headers it started with. *)
Definition UnlockTabs (s : t) : t :=
  let s := set_header (header.SetLockTabs false (header s)) s in
  let s := set_lockTabs false s in
  let s := foldl (fun s hdr => UnlockTab (header.key hdr) s) s
                 (header.headers (header s)) in
  set_updater (Updater.Update (updater s)) s.

Definition IsTabsLocked (s : t) : bool := lockTabs s.

Definition AddPage (k ttl : string) (page : P) (s : t) : t :=
  if existsb (fun hdr => bool_decide (header.key hdr = k))
             (header.headers (header s))
  then s
  else
    let s := set_header (header.AddCommonHeader k ttl (header s)) s in
    let s := set_pages (pages s ++ [page]) s in
    set_updater (Updater.UpdateWithMsg (AddPageMsg k ttl page) (updater s)) s.

Definition UpdatePageTitle (k ttl : string) (s : t) : t :=
  let s := set_header (header.UpdateCommonHeader k ttl (header s)) s in
  set_updater (Updater.Update (updater s)) s.

Definition GetActivePage (s : t) : option string :=
  header.key <$> index (header.headers (header s)) (currentTab s).

(** The loop of [DeletePage] that keeps the pages whose header, at the
    same position, has another key; [None] when the headers run out. *)
Fixpoint keepPages (k : string) (ps : list P)
         (hdrs : list header.commonHeader) : option (list P) :=
  match ps with
  | [] => Some []
  | p :: ps' =>
      match hdrs with
      | [] => None
      | hdr :: hdrs' =>
          match keepPages k ps' hdrs' with
          | Some rest =>
              Some (if decide (header.key hdr = k) then rest else p :: rest)
          | None => None
          end
      end
  end.

Definition DeletePage (k : string) (s : t) : option t :=
  if decide (length (pages s) = 1%nat) then Some s
  else
    match GetActivePage s with
    | None => None
    | Some active =>
        let s :=
          if decide (active = k) then
            set_header (header.SetCurrentTab 0 (header s))
                       (set_currentTab 0 s)
          else s in
        match keepPages k (pages s) (header.headers (header s)) with
        | None => None
        | Some pages' =>
            match header.DeleteCommonHeader k (header s) with
            | None => None
            | Some h =>
                let s := set_header h s in
                let s := set_pages pages' s in
                Some (set_updater (Updater.Update (updater s)) s)
            end
        end
    end.

(** The position of the first header with key [k], counted from [i]. *)
Fixpoint findKey (k : string) (hdrs : list header.commonHeader) (i : Z)
  : option Z :=
  match hdrs with
  | [] => None
  | hdr :: hdrs' =>
      if decide (header.key hdr = k) then Some i
      else findKey k hdrs' (i + 1)
  end.

Definition SetActivePage (k : string) (s : t) : t :=
  match findKey k (header.headers (header s)) 0 with
  | Some i =>
      let s := set_currentTab i s in
      let s := set_header (header.SetCurrentTab i (header s)) s in
      set_updater (Updater.Update (updater s)) s
  | None => s
  end.

Definition IAMActivePageCmd (s : t) : Cmd := CmdIAMActivePage.

(** [for nextTab := currentTab - 1; nextTab >= 0; nextTab--]: the
    argument [n] is [nextTab + 1]; the result is the first position whose
    tab is not locked, [Some None] when the loop runs to its end. *)
Fixpoint scanLeft (s : t) (n : nat) : option (option nat) :=
  match n with
  | O => Some None
  | S nextTab =>
      match header.headers (header s) !! nextTab with
      | None => None
      | Some hdr =>
          if IsTabLocked (header.key hdr) s then scanLeft s nextTab
          else Some (Some nextTab)
      end
  end.

(** [for nextTab := currentTab + 1; nextTab < len(s.pages); nextTab++]:
    [n] counts the iterations that remain. *)
Fixpoint scanRight (s : t) (n nextTab : nat) : option (option nat) :=
  match n with
  | O => Some None
  | S n' =>
      match header.headers (header s) !! nextTab with
      | None => None
      | Some hdr =>
          if IsTabLocked (header.key hdr) s then scanRight s n' (S nextTab)
          else Some (Some nextTab)
      end
  end.

Definition moveTo (nextTab : nat) (cmds : list Cmd) (s : t)
  : t * list Cmd :=
  let s := set_currentTab (Z.of_nat nextTab) s in
  let s := set_header (header.SetCurrentTab (Z.of_nat nextTab) (header s)) s in
  (s, cmds ++ [IAMActivePageCmd s]).

Definition switchPage (cmds : list Cmd) (position : string) (s : t)
  : option (t * list Cmd) :=
  if IsTabsLocked s then Some (s, cmds)
  else
    let currentTab := currentTab s in
    if decide (position = "left") then
      match scanLeft s (Z.to_nat currentTab) with
      | None => None
      | Some (Some nextTab) => Some (moveTo nextTab cmds s)
      | Some None => Some (s, cmds)
      end
    else if decide (position = "right") then
      if currentTab + 1 <? 0 then None
      else
        let first := Z.to_nat (currentTab + 1) in
        match scanRight s (length (pages s) - first) first with
        | None => None
        | Some (Some nextTab) => Some (moveTo nextTab cmds s)
        | Some None => Some (s, cmds)
        end
    else Some (s, cmds).

Definition updateSkeleton (msg : Msg P) (cmds : list Cmd) (s : t)
  : option (t * list Cmd) :=
  let '(h, cmd) := header.Update msg (header s) in
  let s := set_header h s in
  let cmds := cmds ++ [cmd] in
  let '(w, cmd) := widget_Update (widget s) msg in
  let s := set_widget w s in
  let cmds := cmds ++ [cmd] in
  match index (pages s) (currentTab s) with
  | None => None
  | Some page =>
      let '(page, cmd) := model_Update page msg in
      Some (set_pages (<[Z.to_nat (currentTab s) := page]> (pages s)) s,
            cmds ++ [cmd])
  end.

Definition Init (s : t) : option (t * Cmd) :=
  if decide (length (pages s) = 0%nat) then None
  else
    let '(u, listen) := Updater.Listen (updater s) in
    let s := set_updater u s in
    Some (s, CmdBatch [listen; header.Init (header s);
                       widget_Init (widget s)]).

(** [append(cmds, s.updater.Listen())] *)
Definition appendListen (r : t * list Cmd) : t * list Cmd :=
  let '(s, cmds) := r in
  let '(u, listen) := Updater.Listen (updater s) in
  (set_updater u s, cmds ++ [listen]).

Definition batch (r : t * list Cmd) : t * Cmd := (fst r, CmdBatch (snd r)).

Definition Update (msg : Msg P) (s : t) : option (t * Cmd) :=
  let cmds : list Cmd := [] in
  let s := set_currentTab (header.GetCurrentTab (header s)) s in
  match msg with
  | WindowSizeMsg w h =>
      let s :=
        if negb (termReady s) then
          if (0 <? w) && (0 <? h) then set_termReady true s else s
        else s in
      let s := set_viewport (Viewport.make w h) s in
      batch <$> updateSkeleton msg cmds s
  | KeyMsg k =>
      match k with
      | KeyQuit => Some (s, CmdQuit)
      | KeySwitchTabLeft =>
          match switchPage cmds "left" s with
          | Some (s, cmds) => batch <$> updateSkeleton msg cmds s
          | None => None
          end
      | KeySwitchTabRight =>
          match switchPage cmds "right" s with
          | Some (s, cmds) => batch <$> updateSkeleton msg cmds s
          | None => None
          end
      | KeyOther => batch <$> updateSkeleton msg cmds s
      end
  | AddPageMsg _ _ page =>
      let cmds := cmds ++ [model_Init page] in
      (fun r => batch (appendListen r)) <$> updateSkeleton msg cmds s
  | UpdateMsg =>
      (fun r => batch (appendListen r)) <$> updateSkeleton msg cmds s
  | HeaderSizeMsg b =>
      Some (batch (set_termSizeNotEnoughToHandleHeaders b s, cmds))
  | WidgetSizeMsg b =>
      Some (batch (set_termSizeNotEnoughToHandleWidgets b s, cmds))
  | _ => (fun r => batch (appendListen r)) <$> updateSkeleton msg cmds s
  end.

(** [lipgloss.Height]: the number of lines of a string. *)
Fixpoint lipglossHeight (str : string) : Z :=
  match str with
  | EmptyString => 1
  | String c rest =>
      if Ascii.eqb c "010"%char then 1 + lipglossHeight rest
      else lipglossHeight rest
  end.

(** [strings.Repeat("\n", n)] *)
Fixpoint newlines (n : nat) : string :=
  match n with
  | O => EmptyString
  | S n' => String "010"%char (newlines n')
  end.

Definition View (s : t) : option Block :=
  if negb (termReady s) then Some (Text "setting up terminal...")
  else if negb (termSizeNotEnoughToHandleHeaders s) then
    Some (Text "terminal size is not enough to show headers")
  else if negb (termSizeNotEnoughToHandleWidgets s) then
    Some (Text "terminal size is not enough to show widgets")
  else
    let base :=
      PageFrame (borderColor (properties s))
                (int_sub (Viewport.Width (viewport s)) 2) in
    match index (pages s) (currentTab s) with
    | None => None
    | Some page =>
        let body := model_View page in
        let bodyHeight := int_sub (Viewport.Height (viewport s)) 5 in
        let bodyHeight :=
          if 0 <? widget_len (widget s) then int_sub bodyHeight 1
          else bodyHeight in
        let body :=
          if lipglossHeight body <? bodyHeight then
            body +:+ newlines (Z.to_nat (bodyHeight - lipglossHeight body))
          else body in
        Some (JoinVertical [header.View (header s);
                            Render base (Text body);
                            Text (widget_View (widget s))])
    end.

(** The loops of [LockTabsToTheRight] and [LockTabsToTheLeft] lock the
    keys of a segment of the headers; a segment that leaves the slice is
    an index out of range. *)
Definition lockAll (hdrs : list header.commonHeader) (s : t) : t :=
  foldl (fun s hdr => LockTab (header.key hdr) s) s hdrs.

Definition LockTabsToTheRight (s : t) : option t :=
  let hdrs := header.headers (header s) in
  if Z.of_nat (length hdrs) - 1 <=? currentTab s then Some s
  else if currentTab s + 1 <? 0 then None
  else
    let s := lockAll (drop (Z.to_nat (currentTab s + 1)) hdrs) s in
    Some (set_updater (Updater.Update (updater s)) s).

Definition LockTabsToTheLeft (s : t) : option t :=
  let hdrs := header.headers (header s) in
  if currentTab s <=? 0 then Some s
  else if Z.of_nat (length hdrs) <? currentTab s then None
  else
    let s := lockAll (take (Z.to_nat (currentTab s)) hdrs) s in
    Some (set_updater (Updater.Update (updater s)) s).
End Skeleton.
Arguments t : clear implicits.
End Skeleton.

(** ** Vocabulary of the properties *)

Section Vocabulary.
Context {P W : Type} `{!RuneCount, !TeaModel P, !WidgetModel W P}.

(** The pending entries of a channel fit its capacity. *)
Definition chanBounded (c : Chan.t (Msg P)) : Prop :=
  (Chan.len c <= Chan.capacity c)%nat.

Definition busBounded (b : Updater.Bus P) : Prop :=
  chanBounded (Updater.rcv (Updater.bus_updater b)).

(** One listener while the guard is set, none otherwise. *)
Definition busGuarded (b : Updater.Bus P) : Prop :=
  length (Updater.bus_waits b)
  = if Updater.listening (Updater.bus_updater b) then 1%nat else 0%nat.

(** The messages the signalling of the package puts on the channel and
    [Skeleton.Update] answers with a new [Listen]: the bare [UpdateMsg],
    [AddPageMsg], and payloads it has no case for. *)
Definition refreshSignal (msg : Msg P) : bool :=
  match msg with
  | WindowSizeMsg _ _ | KeyMsg _ | HeaderSizeMsg _ | WidgetSizeMsg _ => false
  | _ => true
  end.

(** The keys of the registered tabs, in tab order. *)
Definition keys (s : Skeleton.t P W) : list string :=
  header.key <$> header.headers (Skeleton.header s).

(** The key is in the set of individually locked tabs. *)
Definition individuallyLocked (k : string) (s : Skeleton.t P W) : bool :=
  bool_decide (header.lockedTabs (Skeleton.header s) !! k = Some true).

(** "Effectively locked", in the words of the specification: the global
    flag is set or the key is in the individual set. *)
Definition effectivelyLocked (k : string) (s : Skeleton.t P W) : bool :=
  Skeleton.lockTabs s || individuallyLocked k s.

(** One page per header, and no key twice. *)
Definition registered (s : Skeleton.t P W) : Prop :=
  length (Skeleton.pages s) = length (header.headers (Skeleton.header s))
  /\ NoDup (keys s).

(** The header after its slice of headers was replaced: the title length
    is computed again and a signal is sent. *)
Definition headerWith (l : list header.commonHeader) (h : header.t P)
  : header.t P :=
  let h := header.set_headers l h in
  let h := fst (header.calculateTitleLength h) in
  header.set_updater (Updater.Update (header.updater h)) h.

(** Sequences of calls on the registry. *)
Inductive RegistryOp : Type :=
| OpAddPage (k ttl : string) (page : P)
| OpDeletePage (k : string).

Definition applyOp (op : RegistryOp) (s : Skeleton.t P W)
  : option (Skeleton.t P W) :=
  match op with
  | OpAddPage k ttl page => Some (Skeleton.AddPage k ttl page s)
  | OpDeletePage k => Skeleton.DeletePage k s
  end.

Fixpoint runOps (ops : list RegistryOp) (s : Skeleton.t P W)
  : option (Skeleton.t P W) :=
  match ops with
  | [] => Some s
  | op :: ops' =>
      match applyOp op s with
      | Some s' => runOps ops' s'
      | None => None
      end
  end.

(** A sequence of [AddPage] calls. *)
Definition addPages (adds : list (string * string * P)) (s : Skeleton.t P W)
  : Skeleton.t P W :=
  foldl (fun s '(k, ttl, page) => Skeleton.AddPage k ttl page s) s adds.

(** A registry with a page, in which no call has moved the current tab. *)
Definition populated (s : Skeleton.t P W) : Prop :=
  registered s /\ Skeleton.currentTab s = 0
  /\ (1 <= length (Skeleton.pages s))%nat.

(** The tab at position [j] exists and is not effectively locked. *)
Definition unlockedAt (j : nat) (s : Skeleton.t P W) : Prop :=
  exists hdr, header.headers (Skeleton.header s) !! j = Some hdr
              /\ effectivelyLocked (header.key hdr) s = false.

(** Every tab strictly between the positions [lo] and [hi] is
    effectively locked. *)
Definition lockedBetween (lo hi : Z) (s : Skeleton.t P W) : Prop :=
  forall (i : nat) hdr,
    lo < Z.of_nat i < hi ->
    header.headers (Skeleton.header s) !! i = Some hdr ->
    effectivelyLocked (header.key hdr) s = true.
(** A resize event with both dimensions positive. *)
Definition validViewport (msg : Msg P) : bool :=
  match msg with
  | WindowSizeMsg w h => (0 <? w) && (0 <? h)
  | _ => false
  end.

(** The host delivers the messages one after the other. *)
Fixpoint runMsgs (msgs : list (Msg P)) (s : Skeleton.t P W)
  : option (Skeleton.t P W) :=
  match msgs with
  | [] => Some s
  | msg :: msgs' =>
      match Skeleton.Update msg s with
      | Some (s', _) => runMsgs msgs' s'
      | None => None
      end
  end.

Definition settingUp : Block := Text "setting up terminal...".
Definition headersDoNotFit : Block :=
  Text "terminal size is not enough to show headers".

(** Calls that change the lock state. *)
Inductive LockOp : Type :=
| OpLockTabs
| OpLockTab (k : string)
| OpUnlockTab (k : string)
| OpLockTabsToTheLeft
| OpLockTabsToTheRight.

Definition applyLockOp (op : LockOp) (s : Skeleton.t P W)
  : option (Skeleton.t P W) :=
  match op with
  | OpLockTabs => Some (Skeleton.LockTabs s)
  | OpLockTab k => Some (Skeleton.LockTab k s)
  | OpUnlockTab k => Some (Skeleton.UnlockTab k s)
  | OpLockTabsToTheLeft => Skeleton.LockTabsToTheLeft s
  | OpLockTabsToTheRight => Skeleton.LockTabsToTheRight s
  end.

Fixpoint runLockOps (ops : list LockOp) (s : Skeleton.t P W)
  : option (Skeleton.t P W) :=
  match ops with
  | [] => Some s
  | op :: ops' =>
      match applyLockOp op s with
      | Some s' => runLockOps ops' s'
      | None => None
      end
  end.
(** *** Vocabulary of the further properties *)

(** A sequence of [UpdateWithMsg] calls ([Update] is the call with
    [UpdateMsgInstance]). *)
Definition signalAll (msgs : list (Msg P)) (u : Updater.t P) : Updater.t P :=
  foldl (fun u msg => Updater.UpdateWithMsg msg u) u msgs.

(** The messages the signalling events of a trace offer to the channel, in
    order. *)
Definition offered (evs : list (Updater.BusEvent P)) : list (Msg P) :=
  omap (fun ev => match ev with
                  | Updater.EvUpdate => Some Updater.UpdateMsgInstance
                  | Updater.EvUpdateWithMsg msg => Some msg
                  | _ => None
                  end) evs.

(** The message a goroutine has received and not returned yet. *)
Definition carried (pc : Updater.ListenPc P) : list (Msg P) :=
  match pc with
  | Updater.AtReceive => []
  | Updater.AtRelease msg | Updater.AtReturn msg => [msg]
  end.

(** The messages inside the closures of [Listen]. *)
Definition held (b : Updater.Bus P) : list (Msg P) :=
  Updater.bus_goroutines b ≫= carried.

(** One turn of the subscription: the closure of [Listen] returns a
    message and the host hands it to [Update]. *)
Definition deliverNext (s : Skeleton.t P W)
  : option (Skeleton.t P W * Cmd) :=
  match Updater.runListenCmd (Skeleton.updater s) with
  | Some (msg, u) => Skeleton.Update msg (Skeleton.set_updater u s)
  | None => None
  end.

(** The content of the last [HeaderSizeMsg] among the messages, [d] when
    there is none. *)
Definition lastHeaderSize (msgs : list (Msg P)) (d : bool) : bool :=
  foldl (fun d msg => match msg with
                      | HeaderSizeMsg b => b
                      | _ => d
                      end) d msgs.

(** Everything accepted and not lost: delivered, held, pending. *)
Definition inFlight (b : Updater.Bus P) : list (Msg P) :=
  Updater.bus_delivered b ++ held b
    ++ Chan.buf (Updater.rcv (Updater.bus_updater b)).

(** One page per tab, no key twice, and the index of the skeleton and of
    its header is the same position of a page. *)
Definition wellFormed (s : Skeleton.t P W) : Prop :=
  registered s
  /\ header.currentTab (Skeleton.header s) = Skeleton.currentTab s
  /\ 0 <= Skeleton.currentTab s < Z.of_nat (length (Skeleton.pages s)).

(** [DeletePage(GetActivePage())], the way a page closes its own tab. *)
Definition closeActivePage (s : Skeleton.t P W) : option (Skeleton.t P W) :=
  match Skeleton.GetActivePage s with
  | Some k => Skeleton.DeletePage k s
  | None => None
  end.

(** What the application and the host do with a skeleton: calls of the
    exported methods and the delivery of a message. *)
Inductive Call : Type :=
| CallAddPage (k ttl : string) (page : P)
| CallSetActivePage (k : string)
| CallUpdatePageTitle (k ttl : string)
| CallCloseActivePage
| CallSetTabLeftPadding (padding : Z)
| CallSetTabRightPadding (padding : Z)
| CallLock (op : LockOp)
| CallUnlockTabs
| CallTriggerUpdate
| CallDeliver (msg : Msg P).

Definition applyCall (c : Call) (s : Skeleton.t P W)
  : option (Skeleton.t P W) :=
  match c with
  | CallAddPage k ttl page => Some (Skeleton.AddPage k ttl page s)
  | CallSetActivePage k => Some (Skeleton.SetActivePage k s)
  | CallUpdatePageTitle k ttl => Some (Skeleton.UpdatePageTitle k ttl s)
  | CallCloseActivePage => closeActivePage s
  | CallSetTabLeftPadding padding =>
      Some (Skeleton.SetTabLeftPadding padding s)
  | CallSetTabRightPadding padding =>
      Some (Skeleton.SetTabRightPadding padding s)
  | CallLock op => applyLockOp op s
  | CallUnlockTabs => Some (Skeleton.UnlockTabs s)
  | CallTriggerUpdate => Some (Skeleton.TriggerUpdate s)
  | CallDeliver msg => fst <$> Skeleton.Update msg s
  end.

Fixpoint runCalls (cs : list Call) (s : Skeleton.t P W)
  : option (Skeleton.t P W) :=
  match cs with
  | [] => Some s
  | c :: cs' =>
      match applyCall c s with
      | Some s' => runCalls cs' s'
      | None => None
      end
  end.

(** The messages [Skeleton.Update] hands to the header, the widget bar
    and the active page. *)
Definition dispatched (msg : Msg P) : bool :=
  match msg with
  | KeyMsg KeyQuit | HeaderSizeMsg _ | WidgetSizeMsg _ => false
  | _ => true
  end.

(** The tabs, their order and the locks of [s'] are those of [s]. *)
Definition sameTabs (s s' : Skeleton.t P W) : Prop :=
  header.headers (Skeleton.header s') = header.headers (Skeleton.header s)
  /\ header.lockedTabs (Skeleton.header s')
     = header.lockedTabs (Skeleton.header s)
  /\ Skeleton.lockTabs s' = Skeleton.lockTabs s
  /\ length (Skeleton.pages s') = length (Skeleton.pages s).

(** The columns one tab takes: its title, both paddings and the two
    border columns. *)
Definition tabWidth (h : header.t P) (hdr : header.commonHeader) : Z :=
  runeCount (header.title hdr)
  + (header.leftTabPadding (header.properties h)
     + header.rightTabPadding (header.properties h))
  + 2.

(** The columns of all tabs, as a mathematical integer. *)
Definition tabsWidth (h : header.t P) : Z :=
  foldr (fun hdr acc => tabWidth h hdr + acc) 0 (header.headers h).

(** The style of the tab at position [i]: active under the index,
    disabled when its key is locked, inactive otherwise. *)
Definition tabStyle (h : header.t P) (i : nat) (hdr : header.commonHeader)
  : Style :=
  if decide (Z.of_nat i = header.currentTab h) then TitleStyleActive
  else if header.IsTabLocked (header.key hdr) h then TitleStyleDisabled
       else TitleStyleInactive.

(** The lines [Skeleton.View] reserves for the page: the terminal height
    without the header and the frame, and without the widget bar if there
    is a widget. *)
Definition bodyHeight (s : Skeleton.t P W) : Z :=
  let bodyHeight := int_sub (Viewport.Height (Skeleton.viewport s)) 5 in
  if 0 <? widget_len (Skeleton.widget s) then int_sub bodyHeight 1
  else bodyHeight.
End Vocabulary.
Arguments RegistryOp : clear implicits.
Arguments Call : clear implicits.

(** ** Concrete pages and states *)

Module Examples.
(** Titles in ASCII: one code point per byte. *)
Definition asciiRunes : RuneCount := fun s => Z.of_nat (String.length s).

(** A page that shows a fixed text and ignores every message. *)
Definition textPage : TeaModel string :=
  {| model_Init := fun _ => CmdNil;
     model_Update := fun p _ => (p, CmdNil);
     model_View := fun p => p |}.

(** An empty widget bar. *)
Definition noWidgets : WidgetModel unit string :=
  {| newWidget := tt;
     widget_Init := fun _ => CmdNil;
     widget_Update := fun w _ => (w, CmdBatch []);
     widget_View := fun _ => "";
     widget_len := fun _ => 0 |}.

#[local] Existing Instances asciiRunes textPage noWidgets.

Definition empty : Skeleton.t string unit := Skeleton.NewSkeleton.

Definition home : Skeleton.t string unit :=
  Skeleton.AddPage "a" "Home" "home page" empty.

Definition homeLogs : Skeleton.t string unit :=
  Skeleton.AddPage "b" "Logs" "logs page" home.

Definition threeTabs : Skeleton.t string unit :=
  Skeleton.SetActivePage "b"
    (Skeleton.AddPage "c" "Help" "help page" homeLogs).

(** The global lock is set while one tab is open; a second tab is added
    afterwards. *)
Definition lockedThenAdded : Skeleton.t string unit :=
  Skeleton.AddPage "b" "Logs" "logs page" (Skeleton.LockTabs home).

(** A terminal of 100 columns has been measured with two short titles. *)
Definition measured : option (Skeleton.t string unit) :=
  match Skeleton.Update (WindowSizeMsg 100 10) homeLogs with
  | Some (s, _) =>
      match Skeleton.Update (HeaderSizeMsg true) s with
      | Some (s, _) => fst <$> Skeleton.Update (WidgetSizeMsg true) s
      | None => None
      end
  | None => None
  end.

Definition longTitle : string :=
  "a title of more than one hundred columns ...........................................................".

(** After the measurement a tab with a long title is added. *)
Definition measuredThenAdded : option (Skeleton.t string unit) :=
  Skeleton.AddPage "c" longTitle "help page" <$> measured.

(** An updater whose guard is set. *)
Definition subscribed : Updater.t string :=
  fst (Updater.Listen Updater.NewUpdater).

(** A channel of capacity 2 that is full. *)
Definition saturated : Updater.t string :=
  Updater.make (Chan.make [UpdateMsg; UpdateMsg] 2) false.

(** The updater of [home] after its first message was drained. *)
Definition homeDrained : Updater.t string :=
  Updater.make (Chan.make [AddPageMsg "a" "Home" "home page"] 256) false.

(** Signals, a subscription and its three steps, in some order. *)
Definition traffic : list (Updater.BusEvent string) :=
  [Updater.EvUpdate; Updater.EvListen; Updater.EvReceive 0;
   Updater.EvUpdate; Updater.EvUpdate; Updater.EvRelease 0;
   Updater.EvReturn 0].

(** [home] after [Init]: a listener is subscribed. *)
Definition started : Skeleton.t string unit :=
  default empty (fst <$> Skeleton.Init home).

(** Both signals of [AddPage] have been drained and handled: the channel
    is empty and a listener is subscribed. *)
Definition idle : Skeleton.t string unit :=
  match deliverNext started with
  | Some (s, _) => default empty (fst <$> deliverNext s)
  | None => empty
  end.

(** The application puts a size report on the channel. *)
Definition reported : Skeleton.t string unit :=
  Skeleton.TriggerUpdateWithMsg (HeaderSizeMsg true) idle.

(** The updater after the listener has drained the size report. *)
Definition reportDrained : Updater.t string :=
  Updater.make (Chan.make [] 256) false.

(** The skeleton after the size report was handled. *)
Definition afterReport : Skeleton.t string unit :=
  default empty
    (fst <$> Skeleton.Update (HeaderSizeMsg true)
                             (Skeleton.set_updater reportDrained reported)).

(** A listener has cleared the guard and not returned yet, and a second
    [Listen] was called. *)
Definition overtaken : Updater.Bus string :=
  Updater.bus_run
    [Updater.EvUpdate; Updater.EvListen; Updater.EvReceive 0;
     Updater.EvRelease 0; Updater.EvListen]
    Updater.NewBus.

(** The state [measuredThenAdded] reaches. *)
Definition stale : Skeleton.t string unit := default empty measuredThenAdded.

(** Three tabs with the last one active. *)
Definition lastActive : Skeleton.t string unit :=
  Skeleton.SetActivePage "c" threeTabs.
End Examples.

(** ** The refresh bus *)

Section BusProperties.
Context {P : Type}.
Implicit Types (u : Updater.t P) (b : Updater.Bus P) (c : Chan.t (Msg P)).
Implicit Types (msg : Msg P) (ev : Updater.BusEvent P).

Lemma trySend_capacity msg c :
  Chan.capacity (Chan.trySend msg c) = Chan.capacity c.
Proof. unfold Chan.trySend, Chan.send. by destruct (_ <? _)%nat. Qed.

Lemma trySend_bounded msg c : chanBounded c -> chanBounded (Chan.trySend msg c).
Proof.
  unfold chanBounded, Chan.trySend, Chan.send, Chan.len.
  destruct (Nat.ltb_spec (length (Chan.buf c)) (Chan.capacity c));
    simpl; [|done].
  rewrite length_app; simpl; lia.
Qed.

Lemma trySend_full msg c :
  Chan.len c = Chan.capacity c ->
  Chan.send msg c = None /\ Chan.trySend msg c = c.
Proof.
  intros Hfull. unfold Chan.trySend, Chan.send. rewrite Hfull.
  by rewrite Nat.ltb_irrefl.
Qed.

Lemma recv_bounded c c' msg :
  Chan.recv c = Some (msg, c') -> chanBounded c ->
  chanBounded c' /\ Chan.capacity c' = Chan.capacity c.
Proof.
  unfold Chan.recv, chanBounded, Chan.len.
  destruct (Chan.buf c) as [|v rest] eqn:Hbuf; [done|].
  intros [= _ <-]. simpl in *. split; [lia|done].
Qed.

(** The entries of a list that satisfy a test, counted across an update
    in place, a removal and an addition at the end. *)
Lemma filter_insert_length {A} (p : A -> bool) (l : list A) i x y :
  l !! i = Some x ->
  (length (List.filter p (<[i:=y]> l)) + (if p x then 1 else 0)
   = length (List.filter p l) + (if p y then 1 else 0))%nat.
Proof.
  revert i. induction l as [|a l IH]; intros [|i] Hi; simplify_eq/=.
  - destruct (p x), (p y); simpl; lia.
  - specialize (IH i Hi). destruct (p a); simpl; lia.
Qed.

Lemma filter_delete_length {A} (p : A -> bool) (l : list A) i x :
  l !! i = Some x ->
  (length (List.filter p (delete i l)) + (if p x then 1 else 0)
   = length (List.filter p l))%nat.
Proof.
  revert i. induction l as [|a l IH]; intros [|i] Hi; simplify_eq/=.
  - destruct (p x); simpl; lia.
  - specialize (IH i Hi). destruct (p a); simpl; lia.
Qed.

Lemma filter_snoc_length {A} (p : A -> bool) (l : list A) x :
  length (List.filter p (l ++ [x]))
  = (length (List.filter p l) + (if p x then 1 else 0))%nat.
Proof. rewrite List.filter_app, length_app. simpl. by destruct (p x). Qed.

Lemma bus_step_bounded ev b :
  busBounded b ->
  busBounded (Updater.bus_step ev b) /\
  Chan.capacity (Updater.rcv (Updater.bus_updater (Updater.bus_step ev b)))
  = Chan.capacity (Updater.rcv (Updater.bus_updater b)).
Proof.
  unfold busBounded. intros Hb.
  destruct ev as [|msg| |i|i|i]; simpl.
  - split; [by apply trySend_bounded | apply trySend_capacity].
  - split; [by apply trySend_bounded | apply trySend_capacity].
  - unfold Updater.Listen. by destruct (Updater.listening _).
  - destruct (_ !! i) as [[|m|m]|]; [|done..].
    unfold Updater.listenReceive.
    destruct (Chan.recv _) as [[m c']|] eqn:Hrecv; [|done].
    simpl. by eapply recv_bounded.
  - by destruct (_ !! i) as [[|m|m]|].
  - by destruct (_ !! i) as [[|m|m]|].
Qed.

Lemma bus_run_bounded evs b :
  busBounded b ->
  busBounded (Updater.bus_run evs b) /\
  Chan.capacity (Updater.rcv (Updater.bus_updater (Updater.bus_run evs b)))
  = Chan.capacity (Updater.rcv (Updater.bus_updater b)).
Proof.
  revert b. induction evs as [|ev evs IH]; intros b Hb; [done|].
  simpl. destruct (bus_step_bounded ev b Hb) as [Hb' Hcap].
  destruct (IH _ Hb') as [? Hcap']. split; [done|]. by rewrite Hcap'.
Qed.

Lemma bus_step_guarded ev b : busGuarded b -> busGuarded (Updater.bus_step ev b).
Proof.
  unfold busGuarded, Updater.bus_waits. intros Hb.
  destruct ev as [|msg| |i|i|i]; simpl; try done.
  - unfold Updater.Listen.
    destruct (Updater.listening (Updater.bus_updater b)) eqn:Hl; simpl.
    + by rewrite Hl.
    + by rewrite filter_snoc_length, Hb.
  - destruct (Updater.bus_goroutines b !! i) as [[|m|m]|] eqn:Hi; try done.
    unfold Updater.listenReceive.
    destruct (Chan.recv _) as [[m c']|]; [|done]. simpl.
    pose proof (filter_insert_length Updater.holdsGuard _ i _
                  (Updater.AtRelease m) Hi) as Hlen.
    simpl in Hlen. rewrite <- Hb. lia.
  - destruct (Updater.bus_goroutines b !! i) as [[|m|m]|] eqn:Hi; try done.
    simpl.
    pose proof (filter_insert_length Updater.holdsGuard _ i _
                  (Updater.AtReturn m) Hi) as Hlen.
    simpl in Hlen. destruct (Updater.listening _); lia.
  - destruct (Updater.bus_goroutines b !! i) as [[|m|m]|] eqn:Hi; try done.
    simpl.
    pose proof (filter_delete_length Updater.holdsGuard _ i _ Hi) as Hlen.
    simpl in Hlen. rewrite <- Hb. lia.
Qed.

Lemma bus_run_guarded evs b : busGuarded b -> busGuarded (Updater.bus_run evs b).
Proof.
  revert b. induction evs as [|ev evs IH]; intros b Hb; [done|].
  simpl. apply IH. by apply bus_step_guarded.
Qed.

Lemma outstanding_le_waits b :
  (Updater.outstanding b <= length (Updater.bus_waits b))%nat.
Proof. unfold Updater.outstanding. apply List.filter_length_le. Qed.

(** Only the return step of a goroutine delivers a message, and it leaves
    the updater alone. *)
Lemma delivered_only_on_return ev b :
  Updater.bus_delivered (Updater.bus_step ev b) <> Updater.bus_delivered b ->
  exists i msg,
    ev = Updater.EvReturn i /\
    Updater.bus_goroutines b !! i = Some (Updater.AtReturn msg) /\
    Updater.bus_step ev b =
    Updater.mkBus (Updater.bus_updater b)
                  (delete i (Updater.bus_goroutines b))
                  (Updater.bus_delivered b ++ [msg]).
Proof.
  destruct ev as [|msg| |i|i|i]; simpl; try done.
  - unfold Updater.Listen. by destruct (Updater.listening _).
  - destruct (_ !! i) as [[|m|m]|]; try done.
    by destruct (Updater.listenReceive _) as [[m u]|].
  - by destruct (_ !! i) as [[|m|m]|].
  - destruct (_ !! i) as [[|m|m]|] eqn:Hi; try done.
    intros _. by exists i, m.
Qed.

(** A goroutine gets ready to return its message only in the step that
    clears the guard. *)
Lemma returning_only_after_release ev b :
  (Updater.returning b < Updater.returning (Updater.bus_step ev b))%nat ->
  exists i msg,
    ev = Updater.EvRelease i /\
    Updater.bus_goroutines b !! i = Some (Updater.AtRelease msg) /\
    Updater.listening (Updater.bus_updater (Updater.bus_step ev b)) = false.
Proof.
  unfold Updater.returning.
  destruct ev as [|msg| |i|i|i]; simpl; try lia.
  - unfold Updater.Listen. destruct (Updater.listening _); simpl; [lia|].
    rewrite filter_snoc_length. simpl. lia.
  - destruct (_ !! i) as [[|m|m]|] eqn:Hi; try lia.
    destruct (Updater.listenReceive _) as [[m u]|]; simpl; [|lia].
    pose proof (filter_insert_length Updater.atReturn _ i _
                  (Updater.AtRelease m) Hi) as Hlen.
    simpl in Hlen. lia.
  - destruct (_ !! i) as [[|m|m]|] eqn:Hi; try lia.
    intros _. by exists i, m.
  - destruct (_ !! i) as [[|m|m]|] eqn:Hi; try lia. simpl.
    pose proof (filter_delete_length Updater.atReturn _ i _ Hi) as Hlen.
    simpl in Hlen. lia.
Qed.

(** C1. [Update] and [UpdateWithMsg] are total: where a plain send would
    block (the channel holds [capacity] entries) they return with the
    updater unchanged, and after any sequence of events the number of
    pending entries is at most the capacity the channel was made with
    (256 for the updater of the package).  Below the capacity the entry is
    appended. *)
Theorem signal_never_blocks_nor_overflows b (evs : list (Updater.BusEvent P)) u msg :
  (Chan.len (Updater.rcv (Updater.bus_updater b))
   <= Chan.capacity (Updater.rcv (Updater.bus_updater b)))%nat ->
  Chan.len (Updater.rcv u) = Chan.capacity (Updater.rcv u) ->
  (Chan.send msg (Updater.rcv u) = None
   /\ Updater.UpdateWithMsg msg u = u /\ Updater.Update u = u)
  /\ (Chan.len (Updater.rcv (Updater.bus_updater (Updater.bus_run evs b)))
      <= Chan.capacity (Updater.rcv (Updater.bus_updater b)))%nat
  /\ (Chan.len (Updater.rcv (Updater.bus_updater
                               (Updater.bus_run evs Updater.NewBus)))
      <= 256)%nat
  /\ (forall u0 : Updater.t P,
         (Chan.len (Updater.rcv u0) < Chan.capacity (Updater.rcv u0))%nat ->
         Chan.buf (Updater.rcv (Updater.UpdateWithMsg msg u0))
         = Chan.buf (Updater.rcv u0) ++ [msg]).
Proof.
  intros Hb Hfull. split; [|split; [|split]]; cycle 3.
  { intros u0 Hroom. unfold Updater.UpdateWithMsg, Chan.trySend, Chan.send.
    simpl. by rewrite (proj2 (Nat.ltb_lt _ _) Hroom). }
  - destruct (trySend_full msg _ Hfull) as [Hsend Htry].
    destruct (trySend_full Updater.UpdateMsgInstance _ Hfull) as [_ Htry'].
    split; [done|].
    unfold Updater.Update, Updater.UpdateWithMsg. rewrite Htry, Htry'.
    by destruct u.
  - destruct (bus_run_bounded evs b Hb) as [H1 H2].
    unfold busBounded, chanBounded in H1. by rewrite H2 in H1.
  - assert (busBounded (Updater.NewBus (P:=P))) as H0
        by (unfold busBounded, chanBounded, Chan.len; simpl; lia).
    destruct (bus_run_bounded evs _ H0) as [H1 H2].
    unfold busBounded, chanBounded in H1. by rewrite H2 in H1.
Qed.

(** C4. While the guard is set, [Listen] returns [nil] and changes
    nothing, and no goroutine is started for it; from the start of the
    process on, at most one listener exists (a goroutine in the closure
    that has not cleared the guard yet), so at most one waits on the
    channel. *)
Theorem subscribe_while_subscribed_is_noop u ws dl
        (evs : list (Updater.BusEvent P)) :
  Updater.listening u = true ->
  Updater.Listen u = (u, CmdNil)
  /\ Updater.bus_step Updater.EvListen (Updater.mkBus u ws dl)
     = Updater.mkBus u ws dl
  /\ (length (Updater.bus_waits (Updater.bus_run evs Updater.NewBus)) <= 1)%nat
  /\ (Updater.outstanding (Updater.bus_run evs Updater.NewBus) <= 1)%nat.
Proof.
  intros Hl.
  assert (Updater.Listen u = (u, CmdNil)) as HL
      by (unfold Updater.Listen; by rewrite Hl).
  split; [done|]. split; [simpl; by rewrite HL|].
  assert (length (Updater.bus_waits (Updater.bus_run evs Updater.NewBus)) <= 1)%nat
    as Hw.
  { assert (busGuarded (Updater.NewBus (P:=P))) as H0 by done.
    pose proof (bus_run_guarded evs _ H0) as Hg. unfold busGuarded in Hg.
    rewrite Hg. destruct (Updater.listening (Updater.bus_updater _)); lia. }
  split; [done|].
  etrans; [apply outstanding_le_waits|done].
Qed.
End BusProperties.

(** ** Deleting a header in place *)

Section DeleteHeader.
Implicit Types (l arr pre : list header.commonHeader) (k : string).
Local Open Scope nat_scope.

(** No header from position [i] on has key [k]: the loop changes nothing. *)
Lemma deleteLoop_skip k n : forall i arr len,
  length arr = i + n ->
  (forall j hdr, i <= j -> arr !! j = Some hdr -> header.key hdr <> k) ->
  header.deleteLoop k n i arr len = Some (arr, len).
Proof.
  induction n as [|n IH]; intros i arr len Hlen Hno; [done|].
  simpl. destruct (arr !! i) as [hdr|] eqn:Hi.
  - destruct (decide (header.key hdr = k)) as [Heq|_].
    + by destruct (Hno i hdr).
    + apply IH; [lia|]. intros j hdr' Hj. apply Hno. lia.
  - apply lookup_ge_None in Hi. lia.
Qed.

(** The headers before the match are passed over. *)
Lemma deleteLoop_prefix k l1 : forall pre rest n len,
  (forall hdr, hdr ∈ l1 -> header.key hdr <> k) ->
  header.deleteLoop k (length l1 + n) (length pre) (pre ++ l1 ++ rest) len
  = header.deleteLoop k n (length pre + length l1) (pre ++ l1 ++ rest) len.
Proof.
  induction l1 as [|a l1 IH]; intros pre rest n len Hno.
  - simpl. by rewrite Nat.add_0_r.
  - simpl. rewrite lookup_app_r by lia. rewrite Nat.sub_diag. simpl.
    destruct (decide (header.key a = k)) as [Heq|_].
    { destruct (Hno a); [left|done]. }
    specialize (IH (pre ++ [a]) rest n len).
    rewrite length_app in IH. simpl in IH.
    rewrite <- !(assoc_L (++)) in IH. simpl in IH.
    replace (length pre + S (length l1)) with (length pre + 1 + length l1) by lia.
    replace (S (length pre)) with (length pre + 1) by lia.
    apply IH. intros hdr Hin. apply Hno. by right.
Qed.

(** With a single header of key [k], the loop removes exactly that one. *)
Lemma deleteLoop_unique k l1 x l2 :
  header.key x = k ->
  (forall hdr, hdr ∈ l1 -> header.key hdr <> k) ->
  (forall hdr, hdr ∈ l2 -> header.key hdr <> k) ->
  exists arr,
    header.deleteLoop k (length l1 + S (length l2)) 0 (l1 ++ x :: l2)
                      (length l1 + S (length l2))
    = Some (arr, length l1 + length l2)
    /\ take (length l1 + length l2) arr = l1 ++ l2.
Proof.
  intros Hx Hl1 Hl2.
  pose proof (deleteLoop_prefix k l1 [] (x :: l2) (S (length l2))
                (length l1 + S (length l2)) Hl1) as Hpre.
  simpl in Hpre. rewrite Hpre. clear Hpre.
  simpl. rewrite lookup_app_r by lia. rewrite Nat.sub_diag. simpl.
  rewrite decide_True by done.
  rewrite decide_True by lia.
  set (arr' := take _ _ ++ _).
  assert (arr' = l1 ++ l2 ++ drop (length l2) (x :: l2)) as Harr.
  { unfold arr'. rewrite take_app_length. f_equal.
    rewrite <- (drop_drop (l1 ++ x :: l2) 1 (length l1)), drop_app_length.
    simpl. rewrite drop_0.
    replace (length l1 + S (length l2) - (length l1 + 1)) with (length l2) by lia.
    rewrite firstn_all. f_equal.
    replace (length l1 + S (length l2) - 1) with (length l1 + length l2) by lia.
    by rewrite <- (drop_drop (l1 ++ x :: l2) (length l2) (length l1)),
               drop_app_length. }
  clearbody arr'. subst arr'. exists (l1 ++ l2 ++ drop (length l2) (x :: l2)).
  replace (length l1 + S (length l2) - 1) with (length l1 + length l2) by lia.
  split.
  - apply deleteLoop_skip.
    + rewrite !length_app, length_drop. simpl. lia.
    + intros j hdr Hj. rewrite lookup_app_r by lia.
      destruct l2 as [|y l2'].
      * destruct (j - length l1) as [|j'] eqn:Hjj; [lia|]. by destruct j'.
      * intros Hlook. apply list_elem_of_lookup_2 in Hlook.
        apply Hl2. apply elem_of_app in Hlook as [Hin|Hin]; [done|].
        simpl in Hin. by apply (subseteq_drop (length l2') (y :: l2')).
  - rewrite (assoc_L (++)). apply take_app_length'.
    by rewrite length_app.
Qed.

(** A list without two equal keys, split at the header of key [k]. *)
Lemma unique_key_split l d x :
  NoDup (header.key <$> l) -> l !! d = Some x ->
  exists l1 l2, l = l1 ++ x :: l2 /\ length l1 = d
    /\ (forall hdr, hdr ∈ l1 -> header.key hdr <> header.key x)
    /\ (forall hdr, hdr ∈ l2 -> header.key hdr <> header.key x).
Proof.
  intros Hnd Hd.
  exists (take d l), (drop (S d) l).
  assert (l = take d l ++ x :: drop (S d) l) as Hsplit
      by (by rewrite take_drop_middle).
  split; [done|].
  split; [apply length_take_le; apply lookup_lt_Some in Hd; lia|].
  rewrite Hsplit in Hnd. rewrite fmap_app, fmap_cons in Hnd.
  apply NoDup_app in Hnd as (_ & Hdisj & Hnd).
  apply NoDup_cons in Hnd as [Hnotin _].
  split; intros hdr Hin Heq.
  - apply (Hdisj (header.key hdr)); [by apply list_elem_of_fmap_2|].
    rewrite Heq. left.
  - apply Hnotin. rewrite <- Heq. by apply list_elem_of_fmap_2.
Qed.
End DeleteHeader.

(** ** The tab registry *)

Section Registry.
Context {P W : Type} `{!RuneCount, !TeaModel P, !WidgetModel W P}.
Implicit Types (s : Skeleton.t P W) (h : header.t P) (k : string).
Implicit Types (l : list header.commonHeader) (ps : list P).

Lemma calculateTitleLength_fst h :
  fst (header.calculateTitleLength h)
  = header.set_titleLength (header.titleLen h) h.
Proof. unfold header.calculateTitleLength. by destruct (_ <? _). Qed.

Lemma DeleteCommonHeader_absent k h :
  (forall hdr, hdr ∈ header.headers h -> header.key hdr <> k) ->
  header.DeleteCommonHeader k h = Some (headerWith (header.headers h) h).
Proof.
  intros Hno. unfold header.DeleteCommonHeader.
  rewrite deleteLoop_skip; [by rewrite firstn_all|done|].
  intros j hdr _ Hj. apply Hno. by eapply list_elem_of_lookup_2.
Qed.

Lemma DeleteCommonHeader_present k h d x :
  NoDup (header.key <$> header.headers h) ->
  header.headers h !! d = Some x -> header.key x = k ->
  header.DeleteCommonHeader k h
  = Some (headerWith (delete d (header.headers h)) h).
Proof.
  intros Hnd Hd Hx. unfold header.DeleteCommonHeader.
  destruct (unique_key_split _ _ _ Hnd Hd) as (l1 & l2 & Hl & Hlen & H1 & H2).
  rewrite Hx in H1, H2. rewrite Hl, length_app. simpl length.
  destruct (deleteLoop_unique k l1 x l2 Hx H1 H2) as (arr & -> & Htake).
  by rewrite Htake, <- Hlen, delete_middle.
Qed.

Lemma keepPages_absent k : forall ps l,
  (length ps <= length l)%nat ->
  (forall hdr, hdr ∈ l -> header.key hdr <> k) ->
  Skeleton.keepPages k ps l = Some ps.
Proof.
  induction ps as [|p ps IH]; intros l Hlen Hno; [done|].
  destruct l as [|hdr l]; simpl in *; [lia|].
  rewrite IH; [|lia|intros ? ?; apply Hno; by right].
  rewrite decide_False; [done|]. apply Hno. left.
Qed.

Lemma keepPages_present k x l2 : forall l1 ps,
  length ps = length (l1 ++ x :: l2) -> header.key x = k ->
  (forall hdr, hdr ∈ l1 -> header.key hdr <> k) ->
  (forall hdr, hdr ∈ l2 -> header.key hdr <> k) ->
  Skeleton.keepPages k ps (l1 ++ x :: l2) = Some (delete (length l1) ps).
Proof.
  induction l1 as [|a l1 IH]; intros ps Hlen Hx H1 H2.
  - destruct ps as [|p ps]; simpl in *; [lia|].
    rewrite keepPages_absent; [|lia|done]. by rewrite decide_True.
  - destruct ps as [|p ps]; simpl in *; [lia|].
    rewrite IH; [|lia|done|intros ? ?; apply H1; by right|done].
    rewrite decide_False; [done|]. apply H1. left.
Qed.

Lemma GetActivePage_Some s active :
  Skeleton.GetActivePage s = Some active ->
  (0 <= Skeleton.currentTab s
   < Z.of_nat (length (header.headers (Skeleton.header s))))
  /\ active ∈ keys s.
Proof.
  unfold Skeleton.GetActivePage, index.
  destruct (Z.ltb_spec (Skeleton.currentTab s) 0); [done|].
  destruct (_ !! _) as [hdr|] eqn:Hi; [|done].
  intros [= <-]. split.
  - apply lookup_lt_Some in Hi. lia.
  - apply list_elem_of_fmap_2. by eapply list_elem_of_lookup_2.
Qed.

(** [DeletePage] of a key that no tab has. *)
Lemma DeletePage_absent s k :
  (length (Skeleton.pages s)
   <= length (header.headers (Skeleton.header s)))%nat ->
  length (Skeleton.pages s) <> 1%nat ->
  is_Some (Skeleton.GetActivePage s) ->
  k ∉ keys s ->
  exists s', Skeleton.DeletePage k s = Some s'
    /\ Skeleton.pages s' = Skeleton.pages s
    /\ header.headers (Skeleton.header s') = header.headers (Skeleton.header s)
    /\ Skeleton.currentTab s' = Skeleton.currentTab s
    /\ header.currentTab (Skeleton.header s')
       = header.currentTab (Skeleton.header s).
Proof.
  intros Hlen Hne [active Hact] Hk.
  assert (forall hdr, hdr ∈ header.headers (Skeleton.header s) ->
                      header.key hdr <> k) as Hno.
  { intros hdr Hin Heq. apply Hk. rewrite <- Heq. by apply list_elem_of_fmap_2. }
  unfold Skeleton.DeletePage. rewrite decide_False by done. rewrite Hact.
  rewrite decide_False.
  2:{ intros ->. apply Hk. by apply GetActivePage_Some in Hact as [_ ?]. }
  rewrite keepPages_absent by done.
  rewrite DeleteCommonHeader_absent by done.
  eexists. split; [done|].
  unfold headerWith. by rewrite ?calculateTitleLength_fst.
Qed.

(** [DeletePage] of the key of the tab at position [d]. *)
Lemma DeletePage_present s k d x active :
  registered s ->
  length (Skeleton.pages s) <> 1%nat ->
  Skeleton.GetActivePage s = Some active ->
  header.headers (Skeleton.header s) !! d = Some x -> header.key x = k ->
  exists s', Skeleton.DeletePage k s = Some s'
    /\ Skeleton.pages s' = delete d (Skeleton.pages s)
    /\ header.headers (Skeleton.header s')
       = delete d (header.headers (Skeleton.header s))
    /\ Skeleton.currentTab s'
       = (if decide (active = k) then 0 else Skeleton.currentTab s)
    /\ header.currentTab (Skeleton.header s')
       = (if decide (active = k) then 0
          else header.currentTab (Skeleton.header s)).
Proof.
  intros [Hlen Hnd] Hne Hact Hd Hx.
  destruct (unique_key_split _ _ _ Hnd Hd) as (l1 & l2 & Hl & Hl1 & H1 & H2).
  rewrite Hx in H1, H2.
  assert (Skeleton.keepPages k (Skeleton.pages s)
                             (header.headers (Skeleton.header s))
          = Some (delete d (Skeleton.pages s))) as Hkeep.
  { rewrite Hl in Hlen |- *. rewrite <- Hl1. by apply keepPages_present. }
  unfold Skeleton.DeletePage. rewrite decide_False by done. rewrite Hact.
  destruct (decide (active = k)) as [Hak|Hak]; simpl; rewrite Hkeep.
  - unfold header.SetCurrentTab.
    erewrite DeleteCommonHeader_present; [|done..].
    eexists. split; [done|].
    unfold headerWith. by rewrite ?calculateTitleLength_fst.
  - erewrite DeleteCommonHeader_present; [|done..].
    eexists. split; [done|].
    unfold headerWith. by rewrite ?calculateTitleLength_fst.
Qed.
Lemma hasKey_spec k l :
  existsb (fun hdr => bool_decide (header.key hdr = k)) l = true
  <-> k ∈ header.key <$> l.
Proof.
  induction l as [|hdr l IH]; simpl.
  - split; [done|]. by intros ?%elem_of_nil.
  - rewrite orb_true_iff, IH, elem_of_cons, bool_decide_eq_true.
    split; intros [?|?]; auto.
Qed.

Lemma AddPage_dup s k ttl page :
  k ∈ keys s -> Skeleton.AddPage k ttl page s = s.
Proof.
  intros Hin. unfold Skeleton.AddPage.
  by rewrite (proj2 (hasKey_spec k _) Hin).
Qed.

Lemma AddPage_fresh s k ttl page :
  k ∉ keys s ->
  exists s', Skeleton.AddPage k ttl page s = s'
    /\ Skeleton.pages s' = Skeleton.pages s ++ [page]
    /\ header.headers (Skeleton.header s')
       = header.headers (Skeleton.header s) ++ [header.mkHeader k ttl]
    /\ Skeleton.currentTab s' = Skeleton.currentTab s
    /\ header.currentTab (Skeleton.header s')
       = header.currentTab (Skeleton.header s).
Proof.
  intros Hin. unfold Skeleton.AddPage.
  destruct (existsb _ _) eqn:Hex.
  { by apply hasKey_spec in Hex. }
  eexists. split; [done|]. unfold header.AddCommonHeader.
  by rewrite ?calculateTitleLength_fst.
Qed.

Lemma AddPage_registered s k ttl page :
  registered s -> registered (Skeleton.AddPage k ttl page s).
Proof.
  intros [Hlen Hnd]. destruct (decide (k ∈ keys s)) as [Hin|Hin].
  - by rewrite AddPage_dup.
  - destruct (AddPage_fresh s k ttl page Hin) as (s' & -> & Hp & Hh & _).
    unfold registered, keys. rewrite Hp, Hh, !length_app, fmap_app. simpl.
    split; [lia|]. apply NoDup_app. split; [done|]. split.
    + intros x Hx ->%list_elem_of_singleton. done.
    + apply NoDup_singleton.
Qed.

Lemma addPages_registered adds s :
  registered s -> registered (addPages adds s).
Proof.
  revert s. induction adds as [|[[k ttl] page] adds IH]; intros s Hs; [done|].
  simpl. apply IH. by apply AddPage_registered.
Qed.

Lemma NewSkeleton_registered : registered (Skeleton.NewSkeleton (P:=P) (W:=W)).
Proof. split; [done|]. apply NoDup_nil_2. Qed.

Lemma delete_registered s s' d x :
  registered s ->
  header.headers (Skeleton.header s) !! d = Some x ->
  Skeleton.pages s' = delete d (Skeleton.pages s) ->
  header.headers (Skeleton.header s')
  = delete d (header.headers (Skeleton.header s)) ->
  registered s'
  /\ S (length (Skeleton.pages s')) = length (Skeleton.pages s).
Proof.
  intros [Hlen Hnd] Hd Hp Hh. unfold registered, keys.
  assert (d < length (header.headers (Skeleton.header s)))%nat as Hlt
      by (by eapply lookup_lt_Some).
  rewrite Hp, Hh, !length_delete by (apply lookup_lt_is_Some; lia).
  split; [split; [lia|]|lia].
  rewrite list_fmap_delete. eapply sublist_NoDup; [done|apply sublist_delete].
Qed.

Lemma applyOp_populated op s :
  populated s -> exists s', applyOp op s = Some s' /\ populated s'.
Proof.
  intros (Hreg & Hcur & Hlen). destruct op as [k ttl page|k]; simpl.
  - eexists. split; [done|]. split; [by apply AddPage_registered|].
    destruct (decide (k ∈ keys s)) as [Hin|Hin].
    + by rewrite AddPage_dup.
    + destruct (AddPage_fresh s k ttl page Hin) as (s' & -> & -> & _ & -> & _).
      rewrite length_app. simpl. split; [done|lia].
  - destruct (decide (length (Skeleton.pages s) = 1%nat)) as [H1|H1].
    { exists s. unfold Skeleton.DeletePage. by rewrite decide_True. }
    destruct Hreg as [Hpl Hnd].
    assert (is_Some (Skeleton.GetActivePage s)) as [active Hact].
    { unfold Skeleton.GetActivePage, index. rewrite Hcur. simpl.
      apply fmap_is_Some, lookup_lt_is_Some. lia. }
    destruct (decide (k ∈ keys s)) as [Hin|Hin].
    + apply list_elem_of_fmap in Hin as (x & Hx & Hin).
      apply list_elem_of_lookup in Hin as [d Hd].
      destruct (DeletePage_present s k d x active) as (s' & Hdel & Hp & Hh & Hc & _);
        [done..|].
      exists s'. split; [done|].
      destruct (delete_registered s s' d x) as [Hreg' Hlen']; [done..|].
      split; [done|]. split; [|lia].
      rewrite Hc. by destruct (decide _).
    + destruct (DeletePage_absent s k) as (s' & Hdel & Hp & Hh & Hc & _);
        [lia|done|by eexists|done|].
      exists s'. split; [done|]. unfold populated, registered, keys.
      by rewrite Hp, Hh, Hc.
Qed.

Lemma runOps_populated ops s :
  populated s -> exists s', runOps ops s = Some s' /\ populated s'.
Proof.
  revert s. induction ops as [|op ops IH]; intros s Hs; [by exists s|].
  simpl. destruct (applyOp_populated op s Hs) as (s1 & -> & Hs1).
  by apply IH.
Qed.

(** Whatever the current index is, a call that returns leaves a registry
    with a page. *)
Lemma applyOp_keeps_a_page op s s' :
  registered s -> (1 <= length (Skeleton.pages s))%nat ->
  applyOp op s = Some s' ->
  registered s' /\ (1 <= length (Skeleton.pages s'))%nat.
Proof.
  intros Hreg Hlen. destruct op as [k ttl page|k]; simpl.
  - intros [= <-]. split; [by apply AddPage_registered|].
    destruct (decide (k ∈ keys s)) as [Hin|Hin].
    + by rewrite AddPage_dup.
    + destruct (AddPage_fresh s k ttl page Hin) as (s' & -> & -> & _).
      rewrite length_app. simpl. lia.
  - intros Hdel.
    destruct (decide (length (Skeleton.pages s) = 1%nat)) as [H1|H1].
    { unfold Skeleton.DeletePage in Hdel. rewrite decide_True in Hdel by done.
      by injection Hdel as <-. }
    destruct (Skeleton.GetActivePage s) as [active|] eqn:Hact.
    2:{ unfold Skeleton.DeletePage in Hdel.
        rewrite decide_False, Hact in Hdel; done. }
    destruct (decide (k ∈ keys s)) as [Hin|Hin].
    + apply list_elem_of_fmap in Hin as (x & Hx & Hin).
      apply list_elem_of_lookup in Hin as [d Hd].
      destruct (DeletePage_present s k d x active) as (s1 & Hdel1 & Hp & Hh & _);
        [done..|].
      rewrite Hdel1 in Hdel. injection Hdel as <-.
      destruct (delete_registered s s1 d x) as [Hreg' Hlen']; [done..|].
      split; [done|lia].
    + destruct (DeletePage_absent s k) as (s1 & Hdel1 & Hp & Hh & _).
      { destruct Hreg. lia. } { done. } { by eexists. } { done. }
      rewrite Hdel1 in Hdel. injection Hdel as <-.
      unfold registered, keys. by rewrite Hp, Hh.
Qed.

Lemma runOps_keeps_a_page ops : forall s s',
  registered s -> (1 <= length (Skeleton.pages s))%nat ->
  runOps ops s = Some s' ->
  registered s' /\ (1 <= length (Skeleton.pages s'))%nat.
Proof.
  induction ops as [|op ops IH]; intros s s' Hreg Hlen; simpl.
  - by intros [= <-].
  - destruct (applyOp op s) as [s1|] eqn:Hop; [|done].
    destruct (applyOp_keeps_a_page op s s1) as [Hreg1 Hlen1]; [done..|].
    by apply IH.
Qed.

(** C3. From the first [AddPage] on, every sequence of [AddPage] and
    [DeletePage] calls runs without a panic and leaves at least one page;
    from any registry with a page, whatever its current index, a sequence
    that returns leaves at least one page.  [DeletePage] on a registry of
    exactly one page returns the skeleton unchanged, whatever the key. *)
Theorem registry_keeps_one_page s key k ttl page (ops : list (RegistryOp P)) :
  length (Skeleton.pages s) = 1%nat ->
  Skeleton.DeletePage key s = Some s
  /\ (exists s', runOps (OpAddPage k ttl page :: ops) Skeleton.NewSkeleton
                 = Some s'
        /\ (1 <= length (Skeleton.pages s'))%nat
        /\ length (header.headers (Skeleton.header s'))
           = length (Skeleton.pages s'))
  /\ (forall s0 s0' : Skeleton.t P W,
         registered s0 -> (1 <= length (Skeleton.pages s0))%nat ->
         runOps ops s0 = Some s0' ->
         (1 <= length (Skeleton.pages s0'))%nat).
Proof.
  intros H1. split; [|split].
  { unfold Skeleton.DeletePage. by rewrite decide_True. }
  - simpl.
    destruct (runOps_populated ops
                (Skeleton.AddPage k ttl page (Skeleton.NewSkeleton (W:=W))))
      as (s' & Hrun & (Hreg & _ & Hlen)).
    { split; [apply AddPage_registered, NewSkeleton_registered|]. done. }
    exists s'. split; [done|]. split; [done|]. by destruct Hreg.
  - intros s0 s0' Hreg Hlen Hrun.
    by destruct (runOps_keeps_a_page ops s0 s0' Hreg Hlen Hrun).
Qed.

(** C9. [AddPage] with the key of a registered tab returns the skeleton
    as it was; hence a registry without duplicate keys has none after any
    sequence of [AddPage] calls, the registry built from [NewSkeleton]
    in particular. *)
Theorem duplicate_key_is_rejected s k ttl page
        (adds : list (string * string * P)) :
  k ∈ keys s -> NoDup (keys s) ->
  Skeleton.AddPage k ttl page s = s
  /\ NoDup (keys (addPages adds s))
  /\ NoDup (keys (addPages adds (Skeleton.NewSkeleton (W:=W)))).
Proof.
  intros Hin Hnd. split; [by apply AddPage_dup|].
  assert (forall s0 : Skeleton.t P W,
             NoDup (keys s0) -> NoDup (keys (addPages adds s0))) as Hall.
  { clear. intros s0. revert s0.
    induction adds as [|[[k ttl] page] adds IH]; intros s0 Hnd; [done|].
    simpl. apply IH.
    destruct (decide (k ∈ keys s0)) as [Hin|Hin].
    - by rewrite AddPage_dup.
    - destruct (AddPage_fresh s0 k ttl page Hin) as (s' & -> & _ & Hh & _).
      unfold keys. rewrite Hh, fmap_app. simpl.
      apply NoDup_app. split; [done|]. split.
      + intros x Hx ->%list_elem_of_singleton. done.
      + apply NoDup_singleton. }
  split; [by apply Hall|]. apply Hall, NoDup_nil_2.
Qed.

(** C10. In a registry of two or more tabs, [DeletePage] of a key other
    than the active one leaves the current index of the skeleton and of
    the header as it was, while the pages and headers behind the deleted
    position move one place to the left.  When the deleted position is in
    front of the current index, the index no longer denotes the tab that
    was active: it denotes the next one, or no tab at all if the active
    tab was the last. *)
Theorem deleting_another_tab_keeps_the_index s k active :
  registered s -> (2 <= length (Skeleton.pages s))%nat ->
  Skeleton.GetActivePage s = Some active -> active <> k ->
  exists s', Skeleton.DeletePage k s = Some s'
    /\ Skeleton.currentTab s' = Skeleton.currentTab s
    /\ header.currentTab (Skeleton.header s')
       = header.currentTab (Skeleton.header s)
    /\ forall d x,
        header.headers (Skeleton.header s) !! d = Some x ->
        header.key x = k ->
        (forall i, (i < d)%nat ->
           Skeleton.pages s' !! i = Skeleton.pages s !! i
           /\ header.headers (Skeleton.header s') !! i
              = header.headers (Skeleton.header s) !! i)
        /\ (forall i, (d <= i)%nat ->
              Skeleton.pages s' !! i = Skeleton.pages s !! S i
              /\ header.headers (Skeleton.header s') !! i
                 = header.headers (Skeleton.header s) !! S i)
        /\ (Z.of_nat d < Skeleton.currentTab s ->
            Skeleton.GetActivePage s' <> Some active
            /\ Skeleton.GetActivePage s'
               = header.key <$> index (header.headers (Skeleton.header s))
                                      (Skeleton.currentTab s + 1)
            /\ (Skeleton.currentTab s
                = Z.of_nat (length (Skeleton.pages s)) - 1 ->
                Skeleton.GetActivePage s' = None)).
Proof.
  intros Hreg Hlen Hact Hne.
  destruct (decide (k ∈ keys s)) as [Hin|Hin].
  - apply list_elem_of_fmap in Hin as (x0 & Hx0 & Hin).
    apply list_elem_of_lookup in Hin as [d0 Hd0].
    destruct (DeletePage_present s k d0 x0 active)
      as (s' & Hdel & Hp & Hh & Hc & Hhc); [done|lia|done..|].
    rewrite decide_False in Hc, Hhc by done.
    exists s'. split; [done|]. split; [done|]. split; [done|].
    intros d x Hd Hx.
    destruct Hreg as [Hpl Hnd].
    assert (d = d0) as ->.
    { eapply (NoDup_lookup _ _ _ k Hnd); unfold keys;
        rewrite list_lookup_fmap; [by rewrite Hd; simpl; rewrite Hx
                                  |by rewrite Hd0; simpl; rewrite Hx0]. }
    rewrite Hp, Hh. split; [|split].
    + intros i Hi. by rewrite !list_lookup_delete_lt.
    + intros i Hi. by rewrite !list_lookup_delete_ge.
    + intros Hlt.
      apply GetActivePage_Some in Hact as Hrange. destruct Hrange as [Hrange _].
      assert (Skeleton.GetActivePage s'
              = header.key <$> index (header.headers (Skeleton.header s))
                                     (Skeleton.currentTab s + 1)) as Hnew.
      { unfold Skeleton.GetActivePage, index. rewrite Hc, Hh.
        destruct (Z.ltb_spec (Skeleton.currentTab s) 0); [lia|].
        destruct (Z.ltb_spec (Skeleton.currentTab s + 1) 0); [lia|].
        rewrite list_lookup_delete_ge by lia.
        by replace (Z.to_nat (Skeleton.currentTab s + 1))
          with (S (Z.to_nat (Skeleton.currentTab s))) by lia. }
      split; [|split; [done|]].
      * rewrite Hnew. intros Hsame.
        unfold Skeleton.GetActivePage, index in Hact, Hsame.
        destruct (Z.ltb_spec (Skeleton.currentTab s) 0); [lia|].
        destruct (Z.ltb_spec (Skeleton.currentTab s + 1) 0); [lia|].
        rewrite <- list_lookup_fmap in Hact, Hsame.
        pose proof (NoDup_lookup _ _ _ _ Hnd Hact Hsame). lia.
      * intros Hlast. rewrite Hnew. unfold index.
        destruct (Z.ltb_spec (Skeleton.currentTab s + 1) 0); [lia|].
        rewrite lookup_ge_None_2; [done|]. lia.
  - destruct (DeletePage_absent s k) as (s' & Hdel & Hp & Hh & Hc & Hhc).
    { destruct Hreg. lia. } { lia. } { by eexists. } { done. }
    exists s'. split; [done|]. split; [done|]. split; [done|].
    intros d x Hd Hx. destruct Hin. rewrite <- Hx.
    apply list_elem_of_fmap_2. by eapply list_elem_of_lookup_2.
Qed.
End Registry.

(** ** The lock state *)

Section Locks.
Context {P W : Type} `{!RuneCount, !TeaModel P, !WidgetModel W P}.
Implicit Types (s : Skeleton.t P W) (h : header.t P) (k : string).
Implicit Types (l : list header.commonHeader).

Lemma IsTabLocked_individually k s :
  Skeleton.IsTabLocked k s = individuallyLocked k s.
Proof.
  unfold Skeleton.IsTabLocked, header.IsTabLocked, individuallyLocked.
  destruct (header.lockedTabs (Skeleton.header s) !! k) as [[|]|]; done.
Qed.

Lemma effectivelyLocked_unlocked k s :
  Skeleton.lockTabs s = false ->
  effectivelyLocked k s = Skeleton.IsTabLocked k s.
Proof.
  intros Hl. unfold effectivelyLocked.
  by rewrite Hl, IsTabLocked_individually.
Qed.

(** The locks after the loop of [SetLockTabs(true)]. *)
Lemma lockAll_header_lookup k l : forall h,
  header.lockedTabs (foldl (fun h hdr => header.LockTab (header.key hdr) h) h l)
    !! k
  = if decide (k ∈ header.key <$> l) then Some true
    else header.lockedTabs h !! k.
Proof.
  induction l as [|hdr l IH]; intros h.
  - destruct (decide _) as [Hin|_]; [by apply elem_of_nil in Hin|done].
  - cbn [foldl]. rewrite IH, fmap_cons.
    destruct (decide (k ∈ header.key <$> l)) as [Hin|Hin].
    + rewrite decide_True; [done|by right].
    + destruct (decide (k = header.key hdr)) as [->|Hne].
      * rewrite decide_True by left. apply lookup_insert_eq.
      * rewrite decide_False by (by intros [?|?]%elem_of_cons).
        by apply lookup_insert_ne.
Qed.

Lemma LockTabs_locks_registered k s :
  k ∈ keys s -> Skeleton.IsTabLocked k (Skeleton.LockTabs s) = true.
Proof.
  intros Hin. unfold Skeleton.IsTabLocked, header.IsTabLocked.
  unfold Skeleton.LockTabs, header.SetLockTabs. simpl.
  rewrite lockAll_header_lookup. by rewrite decide_True.
Qed.

Lemma unlockAll_cleared l : forall s,
  header.lockedTabs (Skeleton.header s) = ∅ ->
  header.lockedTabs
    (Skeleton.header
       (foldl (fun s hdr => Skeleton.UnlockTab (header.key hdr) s) s l)) = ∅
  /\ Skeleton.lockTabs
       (foldl (fun s hdr => Skeleton.UnlockTab (header.key hdr) s) s l)
     = Skeleton.lockTabs s.
Proof.
  induction l as [|hdr l IH]; intros s Hs; [done|].
  simpl. destruct (IH (Skeleton.UnlockTab (header.key hdr) s)) as [H1 H2].
  - simpl. rewrite Hs. apply delete_empty.
  - by rewrite H1, H2.
Qed.

Lemma UnlockTabs_cleared s :
  Skeleton.lockTabs (Skeleton.UnlockTabs s) = false
  /\ header.lockedTabs (Skeleton.header (Skeleton.UnlockTabs s)) = ∅.
Proof.
  unfold Skeleton.UnlockTabs.
  set (s1 := Skeleton.set_lockTabs false _).
  destruct (unlockAll_cleared (header.headers (Skeleton.header s1)) s1)
    as [H1 H2]; [done|].
  split; [exact H2|exact H1].
Qed.

(** C7. Whatever lock calls came before, after [UnlockTabs] the global
    flag is clear and the map of individual locks is empty: no key is
    locked, individually or effectively. *)
Theorem unlock_tabs_clears_every_lock (ops : list LockOp) s s' k :
  runLockOps ops s = Some s' ->
  Skeleton.lockTabs (Skeleton.UnlockTabs s') = false
  /\ Skeleton.IsTabsLocked (Skeleton.UnlockTabs s') = false
  /\ header.lockedTabs (Skeleton.header (Skeleton.UnlockTabs s')) = ∅
  /\ Skeleton.IsTabLocked k (Skeleton.UnlockTabs s') = false
  /\ effectivelyLocked k (Skeleton.UnlockTabs s') = false.
Proof.
  intros _. destruct (UnlockTabs_cleared s') as [Hflag Hmap].
  split; [done|]. split; [done|]. split; [done|].
  assert (Skeleton.IsTabLocked k (Skeleton.UnlockTabs s') = false) as Hk.
  { unfold Skeleton.IsTabLocked, header.IsTabLocked. by rewrite Hmap. }
  split; [done|]. by rewrite effectivelyLocked_unlocked.
Qed.

(** C6, as the code has it. [IsTabLocked] reads the map of individual
    locks and nothing else.  A true answer implies "effectively locked",
    the two agree while the global flag is clear, and [LockTabs] locks
    every tab that is registered when it is called. *)
Theorem is_tab_locked_reads_the_individual_locks s k :
  k ∈ keys s ->
  Skeleton.IsTabLocked k s = individuallyLocked k s
  /\ (Skeleton.IsTabLocked k s = true -> effectivelyLocked k s = true)
  /\ (Skeleton.lockTabs s = false ->
      Skeleton.IsTabLocked k s = effectivelyLocked k s)
  /\ Skeleton.IsTabLocked k (Skeleton.LockTabs s) = true
  /\ effectivelyLocked k (Skeleton.LockTabs s) = true.
Proof.
  intros Hin. split; [apply IsTabLocked_individually|]. split; [|split].
  - intros Hl. unfold effectivelyLocked.
    rewrite <- IsTabLocked_individually, Hl. apply orb_true_r.
  - intros Hl. by rewrite effectivelyLocked_unlocked.
  - split; [by apply LockTabs_locks_registered|done].
Qed.
End Locks.

(** ** Navigation *)

Section Navigation.
Context {P W : Type} `{!RuneCount, !TeaModel P, !WidgetModel W P}.
Implicit Types (s : Skeleton.t P W) (h : header.t P) (k : string).
Implicit Types (l : list header.commonHeader).

(** The left scan from position [n - 1] down to [0]. *)
Lemma scanLeft_spec s n :
  (n <= length (header.headers (Skeleton.header s)))%nat ->
  (exists j hdr,
      Skeleton.scanLeft s n = Some (Some j) /\ (j < n)%nat
      /\ header.headers (Skeleton.header s) !! j = Some hdr
      /\ Skeleton.IsTabLocked (header.key hdr) s = false
      /\ forall i hdr', (j < i < n)%nat ->
           header.headers (Skeleton.header s) !! i = Some hdr' ->
           Skeleton.IsTabLocked (header.key hdr') s = true)
  \/ (Skeleton.scanLeft s n = Some None
      /\ forall i hdr', (i < n)%nat ->
           header.headers (Skeleton.header s) !! i = Some hdr' ->
           Skeleton.IsTabLocked (header.key hdr') s = true).
Proof.
  induction n as [|n IH]; intros Hn.
  - right. split; [done|]. intros; lia.
  - simpl.
    destruct (lookup_lt_is_Some_2 (header.headers (Skeleton.header s)) n)
      as [hdr Hhdr]; [lia|].
    rewrite Hhdr.
    destruct (Skeleton.IsTabLocked (header.key hdr) s) eqn:Hlocked.
    + specialize (IH ltac:(lia)).
      destruct IH as [(j & hdr0 & Hscan & Hj & Hl & Hu & Hbetween)|[Hscan Hall]].
      * left. exists j, hdr0. repeat (split; [done || lia|]).
        intros i hdr' Hi Hlook.
        destruct (decide (i = n)) as [->|Hne]; [congruence|].
        apply (Hbetween i hdr'); [lia|done].
      * right. split; [done|]. intros i hdr' Hi Hlook.
        destruct (decide (i = n)) as [->|Hne]; [congruence|].
        apply (Hall i hdr'); [lia|done].
    + left. exists n, hdr. repeat (split; [done || lia|]). intros; lia.
Qed.

(** The right scan over the [n] positions from [first] on. *)
Lemma scanRight_spec s n : forall first,
  (n = 0 \/ first + n <= length (header.headers (Skeleton.header s)))%nat ->
  (exists j hdr,
      Skeleton.scanRight s n first = Some (Some j)
      /\ (first <= j < first + n)%nat
      /\ header.headers (Skeleton.header s) !! j = Some hdr
      /\ Skeleton.IsTabLocked (header.key hdr) s = false
      /\ forall i hdr', (first <= i < j)%nat ->
           header.headers (Skeleton.header s) !! i = Some hdr' ->
           Skeleton.IsTabLocked (header.key hdr') s = true)
  \/ (Skeleton.scanRight s n first = Some None
      /\ forall i hdr', (first <= i < first + n)%nat ->
           header.headers (Skeleton.header s) !! i = Some hdr' ->
           Skeleton.IsTabLocked (header.key hdr') s = true).
Proof.
  induction n as [|n IH]; intros first Hn.
  - right. split; [done|]. intros; lia.
  - destruct Hn as [Hn|Hn]; [done|]. simpl.
    destruct (lookup_lt_is_Some_2 (header.headers (Skeleton.header s)) first)
      as [hdr Hhdr]; [lia|].
    rewrite Hhdr.
    destruct (Skeleton.IsTabLocked (header.key hdr) s) eqn:Hlocked.
    + specialize (IH (S first) ltac:(lia)).
      destruct IH as [(j & hdr0 & Hscan & Hj & Hl & Hu & Hbetween)|[Hscan Hall]].
      * left. exists j, hdr0. repeat (split; [done || lia|]).
        intros i hdr' Hi Hlook.
        destruct (decide (i = first)) as [->|Hne]; [congruence|].
        apply (Hbetween i hdr'); [lia|done].
      * right. split; [done|]. intros i hdr' Hi Hlook.
        destruct (decide (i = first)) as [->|Hne]; [congruence|].
        apply (Hall i hdr'); [lia|done].
    + left. exists first, hdr. repeat (split; [done || lia|]). intros; lia.
Qed.

(** C2. Under the global lock both navigations return the skeleton and
    the commands untouched, whatever the current index; so they do after
    [LockTabs].  Without it the left (right) navigation moves to the
    nearest tab below (above) the current index that is not effectively
    locked and appends the active-page command; when every tab up to the
    boundary is locked it changes nothing.  It never wraps: the target lies
    strictly between the boundary and the current index. *)
Theorem navigation_moves_to_nearest_unlocked_tab s (cmds : list Cmd) :
  (length (Skeleton.pages s)
   <= length (header.headers (Skeleton.header s)))%nat ->
  0 <= Skeleton.currentTab s
    <= Z.of_nat (length (header.headers (Skeleton.header s))) ->
  Skeleton.lockTabs s = false ->
  ((exists j, Z.of_nat j < Skeleton.currentTab s
              /\ unlockedAt j s
              /\ lockedBetween (Z.of_nat j) (Skeleton.currentTab s) s
              /\ Skeleton.switchPage cmds "left" s
                 = Some (Skeleton.moveTo j cmds s))
   \/ (lockedBetween (-1) (Skeleton.currentTab s) s
       /\ Skeleton.switchPage cmds "left" s = Some (s, cmds)))
  /\ ((exists j, Skeleton.currentTab s < Z.of_nat j
                 /\ unlockedAt j s
                 /\ lockedBetween (Skeleton.currentTab s) (Z.of_nat j) s
                 /\ Skeleton.switchPage cmds "right" s
                    = Some (Skeleton.moveTo j cmds s))
      \/ (lockedBetween (Skeleton.currentTab s)
                        (Z.of_nat (length (Skeleton.pages s))) s
          /\ Skeleton.switchPage cmds "right" s = Some (s, cmds)))
  /\ (forall (j : nat),
         Skeleton.currentTab (fst (Skeleton.moveTo j cmds s)) = Z.of_nat j
         /\ header.currentTab (Skeleton.header (fst (Skeleton.moveTo j cmds s)))
            = Z.of_nat j
         /\ snd (Skeleton.moveTo j cmds s) = cmds ++ [CmdIAMActivePage])
  /\ (forall (s0 : Skeleton.t P W) position,
         Skeleton.lockTabs s0 = true ->
         Skeleton.switchPage cmds position s0 = Some (s0, cmds))
  /\ (forall (s0 : Skeleton.t P W) position,
         Skeleton.switchPage cmds position (Skeleton.LockTabs s0)
         = Some (Skeleton.LockTabs s0, cmds)).
Proof.
  intros Hlen Hcur Hl. split; [|split; [|split; [|split]]].
  - unfold Skeleton.switchPage, Skeleton.IsTabsLocked. rewrite Hl.
    rewrite decide_True by done.
    destruct (scanLeft_spec s (Z.to_nat (Skeleton.currentTab s)))
      as [(j & hdr & -> & Hj & Hlook & Hu & Hbetween)|[-> Hall]]; [lia| |].
    + left. exists j. split; [lia|]. split; [|split; [|done]].
      * exists hdr. split; [done|]. by rewrite effectivelyLocked_unlocked.
      * intros i hdr' Hi Hi'. rewrite effectivelyLocked_unlocked by done.
        apply (Hbetween i hdr'); [lia|done].
    + right. split; [|done]. intros i hdr' Hi Hi'.
      rewrite effectivelyLocked_unlocked by done.
      apply (Hall i hdr'); [lia|done].
  - unfold Skeleton.switchPage, Skeleton.IsTabsLocked. rewrite Hl.
    rewrite decide_False by done. rewrite decide_True by done.
    destruct (Z.ltb_spec (Skeleton.currentTab s + 1) 0); [lia|].
    destruct (scanRight_spec s
                (length (Skeleton.pages s)
                 - Z.to_nat (Skeleton.currentTab s + 1))
                (Z.to_nat (Skeleton.currentTab s + 1)))
      as [(j & hdr & -> & Hj & Hlook & Hu & Hbetween)|[-> Hall]]; [lia| |].
    + left. exists j. split; [lia|]. split; [|split; [|done]].
      * exists hdr. split; [done|]. by rewrite effectivelyLocked_unlocked.
      * intros i hdr' Hi Hi'. rewrite effectivelyLocked_unlocked by done.
        apply (Hbetween i hdr'); [lia|done].
    + right. split; [|done]. intros i hdr' Hi Hi'.
      rewrite effectivelyLocked_unlocked by done.
      apply (Hall i hdr'); [lia|done].
  - done.
  - intros s0 position Hl0. unfold Skeleton.switchPage, Skeleton.IsTabsLocked.
    by rewrite Hl0.
  - intros s0 position. done.
Qed.
End Navigation.

(** ** The controller *)

Section Controller.
Context {P W : Type} `{!RuneCount, !TeaModel P, !WidgetModel W P}.
Implicit Types (s : Skeleton.t P W) (h : header.t P) (k : string).
Implicit Types (msg : Msg P) (cmds : list Cmd) (u : Updater.t P).

Lemma updateSkeleton_Some msg cmds s page :
  index (Skeleton.pages s) (Skeleton.currentTab s) = Some page ->
  Skeleton.updateSkeleton msg cmds s
  = Some (Skeleton.set_pages
            (<[Z.to_nat (Skeleton.currentTab s)
               := fst (model_Update page msg)]> (Skeleton.pages s))
            (Skeleton.set_widget
               (fst (widget_Update (Skeleton.widget s) msg))
               (Skeleton.set_header
                  (fst (header.Update msg (Skeleton.header s))) s)),
          ((cmds ++ [snd (header.Update msg (Skeleton.header s))])
             ++ [snd (widget_Update (Skeleton.widget s) msg)])
            ++ [snd (model_Update page msg)]).
Proof.
  intros Hpage. unfold Skeleton.updateSkeleton.
  destruct (header.Update msg (Skeleton.header s)) as [h hc]. simpl.
  destruct (widget_Update (Skeleton.widget s) msg) as [w wc]. simpl.
  rewrite Hpage.
  by destruct (model_Update page msg) as [page' pc].
Qed.

Lemma updateSkeleton_inv msg cmds s s' cmds' :
  Skeleton.updateSkeleton msg cmds s = Some (s', cmds') ->
  exists page, index (Skeleton.pages s) (Skeleton.currentTab s) = Some page.
Proof.
  unfold Skeleton.updateSkeleton.
  destruct (header.Update msg (Skeleton.header s)) as [h hc]. simpl.
  destruct (widget_Update (Skeleton.widget s) msg) as [w wc]. simpl.
  destruct (index _ _) as [page|]; [by eexists|done].
Qed.

Lemma updateSkeleton_termReady msg cmds s s' cmds' :
  Skeleton.updateSkeleton msg cmds s = Some (s', cmds') ->
  Skeleton.termReady s' = Skeleton.termReady s.
Proof.
  intros Hup. destruct (updateSkeleton_inv _ _ _ _ _ Hup) as [page Hpage].
  rewrite (updateSkeleton_Some _ _ _ _ Hpage) in Hup. by injection Hup as <- _.
Qed.

Lemma switchPage_termReady cmds position s s' cmds' :
  Skeleton.switchPage cmds position s = Some (s', cmds') ->
  Skeleton.termReady s' = Skeleton.termReady s.
Proof.
  unfold Skeleton.switchPage.
  destruct (Skeleton.IsTabsLocked s); [by intros [= <- _]|].
  repeat case_decide.
  - destruct (Skeleton.scanLeft _ _) as [[j|]|]; by intros [= <- _].
  - destruct (_ <? _); [done|].
    destruct (Skeleton.scanRight _ _ _) as [[j|]|]; by intros [= <- _].
  - by intros [= <- _].
Qed.

(** One branch of [Update]: split on the result of [updateSkeleton] (after
    [switchPage], where the branch has one), and carry [termReady] back
    through both. *)
Ltac forwarded Hup :=
  destruct (Skeleton.updateSkeleton _ _ _) as [[? ?]|] eqn:Hup; simpl; [|done];
  intros [= <- _]; simpl.

Ltac rearmed Hup :=
  destruct (Skeleton.updateSkeleton _ _ _) as [[? ?]|] eqn:Hup; [|done];
  intros [= <- _]; unfold Updater.Listen;
  destruct (Updater.listening _); simpl;
  rewrite (updateSkeleton_termReady _ _ _ _ _ Hup); simpl;
  by rewrite orb_false_r.

Ltac navigated Hsw Hup :=
  destruct (Skeleton.switchPage _ _ _) as [[? ?]|] eqn:Hsw; simpl; [|done];
  forwarded Hup;
  rewrite (updateSkeleton_termReady _ _ _ _ _ Hup);
  rewrite (switchPage_termReady _ _ _ _ _ Hsw); simpl;
  by rewrite orb_false_r.

(** [Update] sets [termReady] on a valid resize and never clears it. *)
Lemma Update_termReady msg s s' c :
  Skeleton.Update msg s = Some (s', c) ->
  Skeleton.termReady s' = Skeleton.termReady s || validViewport msg.
Proof.
  unfold Skeleton.Update.
  destruct msg as [w h|k|k ttl page| |b|b| |tag]; simpl.
  - forwarded Hup. rewrite (updateSkeleton_termReady _ _ _ _ _ Hup).
    destruct (Skeleton.termReady s) eqn:Hr; simpl; [done|].
    by destruct ((0 <? w) && (0 <? h)).
  - destruct k.
    + intros [= <- _]. simpl. by rewrite orb_false_r.
    + navigated Hsw Hup.
    + navigated Hsw Hup.
    + forwarded Hup. rewrite (updateSkeleton_termReady _ _ _ _ _ Hup). simpl.
      by rewrite orb_false_r.
  - rearmed Hup.
  - rearmed Hup.
  - intros [= <- _]. simpl. by rewrite orb_false_r.
  - intros [= <- _]. simpl. by rewrite orb_false_r.
  - rearmed Hup.
  - rearmed Hup.
Qed.

Lemma runMsgs_termReady msgs : forall s s',
  runMsgs msgs s = Some s' ->
  Skeleton.termReady s' = Skeleton.termReady s || existsb validViewport msgs.
Proof.
  induction msgs as [|msg msgs IH]; intros s s'; simpl.
  - intros [= <-]. by rewrite orb_false_r.
  - destruct (Skeleton.Update msg s) as [[s1 c]|] eqn:Hup; [|done].
    intros Hrun. rewrite (IH _ _ Hrun), (Update_termReady _ _ _ _ Hup).
    by rewrite orb_assoc.
Qed.
Lemma runListenCmd_releases u msg u' :
  Updater.runListenCmd u = Some (msg, u') ->
  Updater.listening u' = false
  /\ Chan.recv (Updater.rcv u) = Some (msg, Updater.rcv u').
Proof.
  unfold Updater.runListenCmd, Updater.listenReceive.
  destruct (Chan.recv (Updater.rcv u)) as [[m c]|]; [|done].
  by intros [= <- <-].
Qed.

Lemma Listen_unguarded u :
  Updater.listening u = false ->
  Updater.Listen u = (Updater.set_listening true u, CmdListen).
Proof. intros Hl. unfold Updater.Listen. by rewrite Hl. Qed.

(** [Update] of a refresh signal ends with a new [Listen]. *)
Lemma Update_rearms msg s page :
  refreshSignal msg = true ->
  index (Skeleton.pages s) (header.currentTab (Skeleton.header s))
  = Some page ->
  Updater.listening (Skeleton.updater s) = false ->
  exists s' cmds,
    Skeleton.Update msg s = Some (s', CmdBatch (cmds ++ [CmdListen]))
    /\ Updater.listening (Skeleton.updater s') = true.
Proof.
  intros Hsig Hpage Hl. unfold Skeleton.Update.
  set (s0 := Skeleton.set_currentTab _ s).
  assert (index (Skeleton.pages s0) (Skeleton.currentTab s0) = Some page)
    as Hpage0 by exact Hpage.
  destruct msg as [w h|k|k ttl page0| |b|b| |tag]; try discriminate Hsig;
    rewrite (updateSkeleton_Some _ _ _ _ Hpage0); subst s0; simpl;
    unfold Updater.Listen, Skeleton.updater in *; simpl; rewrite Hl.
  - by eexists _, [_; _; _; _].
  - by eexists _, [_; _; _].
  - by eexists _, [_; _; _].
  - by eexists _, [_; _; _].
Qed.

Lemma header_Update_updater msg h :
  header.updater (fst (header.Update msg h)) = header.updater h.
Proof.
  destruct msg as [w ht|k|k ttl page| |b|b| |tag]; try done.
  unfold header.Update.
  rewrite (surjective_pairing (header.calculateTitleLength _)).
  cbn [fst]. rewrite !calculateTitleLength_fst.
  by destruct (negb _); [destruct (_ && _)|].
Qed.

Lemma updateSkeleton_updater msg cmds s s' cmds' :
  Skeleton.updateSkeleton msg cmds s = Some (s', cmds') ->
  Skeleton.updater s' = Skeleton.updater s.
Proof.
  intros Hup. destruct (updateSkeleton_inv _ _ _ _ _ Hup) as [page Hpage].
  rewrite (updateSkeleton_Some _ _ _ _ Hpage) in Hup.
  assert (forall a b : Skeleton.t P W * list Cmd,
             Some a = Some b -> fst a = fst b) as Hfst by congruence.
  apply Hfst in Hup. cbn [fst] in Hup. rewrite <- Hup.
  apply header_Update_updater.
Qed.

Lemma switchPage_updater cmds position s s' cmds' :
  Skeleton.switchPage cmds position s = Some (s', cmds') ->
  Skeleton.updater s' = Skeleton.updater s.
Proof.
  unfold Skeleton.switchPage.
  destruct (Skeleton.IsTabsLocked s); [by intros [= <- _]|].
  repeat case_decide.
  - destruct (Skeleton.scanLeft _ _) as [[j|]|]; by intros [= <- _].
  - destruct (_ <? _); [done|].
    destruct (Skeleton.scanRight _ _ _) as [[j|]|]; by intros [= <- _].
  - by intros [= <- _].
Qed.

(** [Update] sets the guard exactly for the messages it answers with a
    [Listen], and never clears it. *)
Lemma Update_guard msg s s' c :
  Skeleton.Update msg s = Some (s', c) ->
  Updater.listening (Skeleton.updater s')
  = Updater.listening (Skeleton.updater s) || refreshSignal msg.
Proof.
  assert (forall s0 cmds s1 cmds1,
             Skeleton.updateSkeleton msg cmds s0 = Some (s1, cmds1) ->
             Updater.listening
               (Skeleton.updater (fst (Skeleton.appendListen (s1, cmds1))))
             = true) as Hlisten.
  { intros s0 cmds s1 cmds1 _. unfold Skeleton.appendListen, Updater.Listen.
    by destruct (Updater.listening (Skeleton.updater s1)) eqn:Hl. }
  unfold Skeleton.Update.
  destruct msg as [w h|k|k ttl page| |b|b| |tag]; cbn [refreshSignal];
    rewrite ?orb_false_r, ?orb_true_r.
  - destruct (Skeleton.updateSkeleton _ _ _) as [[s1 cmds1]|] eqn:Hup;
      [|done].
    intros [= <- _]. cbn [fst Skeleton.batch].
    rewrite (updateSkeleton_updater _ _ _ _ _ Hup).
    by destruct (negb _); [destruct (_ && _)|].
  - destruct k.
    + by intros [= <- _].
    + destruct (Skeleton.switchPage _ _ _) as [[s1 cmds1]|] eqn:Hsw; [|done].
      destruct (Skeleton.updateSkeleton _ _ _) as [[s2 cmds2]|] eqn:Hup;
        [|done].
      intros [= <- _]. cbn [fst Skeleton.batch].
      rewrite (updateSkeleton_updater _ _ _ _ _ Hup).
      by rewrite (switchPage_updater _ _ _ _ _ Hsw).
    + destruct (Skeleton.switchPage _ _ _) as [[s1 cmds1]|] eqn:Hsw; [|done].
      destruct (Skeleton.updateSkeleton _ _ _) as [[s2 cmds2]|] eqn:Hup;
        [|done].
      intros [= <- _]. cbn [fst Skeleton.batch].
      rewrite (updateSkeleton_updater _ _ _ _ _ Hup).
      by rewrite (switchPage_updater _ _ _ _ _ Hsw).
    + destruct (Skeleton.updateSkeleton _ _ _) as [[s1 cmds1]|] eqn:Hup;
        [|done].
      intros [= <- _]. cbn [fst Skeleton.batch].
      by rewrite (updateSkeleton_updater _ _ _ _ _ Hup).
  - destruct (Skeleton.updateSkeleton _ _ _) as [[s1 cmds1]|] eqn:Hup;
      [|done].
    intros [= <- _]. by eapply Hlisten.
  - destruct (Skeleton.updateSkeleton _ _ _) as [[s1 cmds1]|] eqn:Hup;
      [|done].
    intros [= <- _]. by eapply Hlisten.
  - by intros [= <- _].
  - by intros [= <- _].
  - destruct (Skeleton.updateSkeleton _ _ _) as [[s1 cmds1]|] eqn:Hup;
      [|done].
    intros [= <- _]. by eapply Hlisten.
  - destruct (Skeleton.updateSkeleton _ _ _) as [[s1 cmds1]|] eqn:Hup;
      [|done].
    intros [= <- _]. by eapply Hlisten.
Qed.

(** C5, as the code has it.  When the closure of [Listen] returns a
    drained message the guard is already clear, and the [Listen] that
    follows returns a waiting command and sets the guard again.  Among
    goroutines: one gets ready to return its message only in the step that
    clears the guard, only such a goroutine delivers, and when the message
    is delivered either the next [Listen] returns a waiting command or
    another listener, subscribed in between, is the one that waits.
    [Skeleton.Update] answers a drained [UpdateMsg], [AddPageMsg] or
    message without a case of its own with a batch that ends with the new
    [Listen] command; it sets the guard for these messages and for no
    other. *)
Theorem drained_subscription_is_rearmed s msg u'
        (ev : Updater.BusEvent P) (b : Updater.Bus P) :
  Updater.runListenCmd (Skeleton.updater s) = Some (msg, u') ->
  is_Some (index (Skeleton.pages s) (header.currentTab (Skeleton.header s))) ->
  Updater.listening u' = false
  /\ Updater.Listen u' = (Updater.set_listening true u', CmdListen)
  /\ ((Updater.returning b < Updater.returning (Updater.bus_step ev b))%nat ->
      Updater.listening (Updater.bus_updater (Updater.bus_step ev b)) = false)
  /\ (Updater.bus_delivered (Updater.bus_step ev b) <> Updater.bus_delivered b ->
      exists i m,
        ev = Updater.EvReturn i
        /\ Updater.bus_goroutines b !! i = Some (Updater.AtReturn m)
        /\ Updater.bus_delivered (Updater.bus_step ev b)
           = Updater.bus_delivered b ++ [m]
        /\ Updater.bus_updater (Updater.bus_step ev b) = Updater.bus_updater b
        /\ (busGuarded b ->
            Updater.Listen (Updater.bus_updater (Updater.bus_step ev b))
            = (Updater.set_listening true
                 (Updater.bus_updater (Updater.bus_step ev b)), CmdListen)
            \/ (Updater.Listen (Updater.bus_updater (Updater.bus_step ev b))
                = (Updater.bus_updater (Updater.bus_step ev b), CmdNil)
                /\ length (Updater.bus_waits (Updater.bus_step ev b))
                   = 1%nat)))
  /\ (forall evs : list (Updater.BusEvent P),
         busGuarded (Updater.bus_run evs Updater.NewBus))
  /\ (refreshSignal msg = true ->
      exists s' cmds,
        Skeleton.Update msg (Skeleton.set_updater u' s)
        = Some (s', CmdBatch (cmds ++ [CmdListen]))
        /\ Updater.listening (Skeleton.updater s') = true)
  /\ (forall (msg0 : Msg P) (s0 s0' : Skeleton.t P W) c,
         Skeleton.Update msg0 s0 = Some (s0', c) ->
         Updater.listening (Skeleton.updater s0')
         = Updater.listening (Skeleton.updater s0) || refreshSignal msg0).
Proof.
  intros Hrun [page Hpage].
  destruct (runListenCmd_releases _ _ _ Hrun) as [Hl _].
  split; [done|]. split; [by apply Listen_unguarded|].
  split; [|split; [|split; [|split]]].
  - intros Hr.
    by destruct (returning_only_after_release ev b Hr) as (i & m & _ & _ & ?).
  - intros Hd.
    destruct (delivered_only_on_return ev b Hd) as (i & m & -> & Hi & Hstep).
    exists i, m. split; [done|]. split; [done|]. rewrite Hstep.
    split; [done|]. split; [done|]. intros Hg.
    pose proof (bus_step_guarded (Updater.EvReturn i) b Hg) as Hg'.
    rewrite Hstep in Hg'. unfold busGuarded in Hg'. cbn [Updater.bus_updater] in *.
    unfold Updater.Listen.
    destruct (Updater.listening (Updater.bus_updater b)); [right|left]; done.
  - intros evs. by apply bus_run_guarded.
  - intros Hsig.
    by apply (Update_rearms msg (Skeleton.set_updater u' s) page).
  - intros msg0 s0 s0' c. apply Update_guard.
Qed.
End Controller.

(** ** The view *)

Section Compositor.
Context {P W : Type} `{!RuneCount, !TeaModel P, !WidgetModel W P}.
Implicit Types (s : Skeleton.t P W) (h : header.t P) (k : string).
Implicit Types (msg : Msg P) (cmds : list Cmd) (u : Updater.t P).

Lemma titleLen_frame h h' :
  header.properties h' = header.properties h ->
  header.headers h' = header.headers h ->
  header.titleLen h' = header.titleLen h.
Proof.
  intros Hp Hh. unfold header.titleLen, header.addTitle. by rewrite Hh, Hp.
Qed.

(** What the header answers to a resize event. *)
Lemma header_Update_resize (w ht : Z) h :
  snd (header.Update (WindowSizeMsg w ht) h)
  = CmdBatch [CmdHeaderSize
                (negb (int_sub w (int_add (header.titleLen h) 2) <? 0))].
Proof.
  unfold header.Update.
  set (h1 := header.set_viewport _ _).
  set (h2 := fst (header.calculateTitleLength h1)).
  assert (header.requiredLineCountForLine h2
          = int_sub w (int_add (header.titleLen h) 2)) as Hreq.
  { unfold header.requiredLineCountForLine.
    rewrite (titleLen_frame h h2).
    - unfold h2. by rewrite calculateTitleLength_fst.
    - unfold h2. rewrite calculateTitleLength_fst. unfold h1.
      by destruct (negb _); [destruct (_ && _)|].
    - unfold h2. rewrite calculateTitleLength_fst. unfold h1.
      by destruct (negb _); [destruct (_ && _)|]. }
  unfold header.calculateTitleLength at 1. rewrite Hreq.
  by destruct (_ <? 0).
Qed.

Lemma updateSkeleton_cmds msg cmds s s' cmds' :
  Skeleton.updateSkeleton msg cmds s = Some (s', cmds') ->
  exists wc pc,
    cmds' = cmds ++ [snd (header.Update msg (Skeleton.header s)); wc; pc].
Proof.
  intros Hup. destruct (updateSkeleton_inv _ _ _ _ _ Hup) as [page Hpage].
  rewrite (updateSkeleton_Some _ _ _ _ Hpage) in Hup.
  exists (snd (widget_Update (Skeleton.widget s) msg)),
         (snd (model_Update page msg)).
  assert (forall a b : Skeleton.t P W * list Cmd,
             Some a = Some b -> snd a = snd b) as Hsnd by congruence.
  apply Hsnd in Hup. cbn [snd] in Hup. rewrite <- Hup.
  by rewrite <- !(assoc_L (++)).
Qed.

Lemma View_not_ready s :
  Skeleton.termReady s = false -> Skeleton.View s = Some settingUp.
Proof. intros Hr. unfold Skeleton.View. by rewrite Hr. Qed.

Lemma View_headers_flag s :
  Skeleton.termReady s = true ->
  Skeleton.termSizeNotEnoughToHandleHeaders s = false ->
  Skeleton.View s = Some headersDoNotFit.
Proof. intros Hr Hf. unfold Skeleton.View. by rewrite Hr, Hf. Qed.

Lemma View_settingUp_iff s :
  Skeleton.View s = Some settingUp <-> Skeleton.termReady s = false.
Proof.
  split; [|apply View_not_ready].
  unfold Skeleton.View. destruct (Skeleton.termReady s); [|done].
  cbn [negb]. destruct (negb _); [done|]. destruct (negb _); [done|].
  by destruct (index _ _).
Qed.

Lemma View_headers_iff s :
  Skeleton.termReady s = true ->
  Skeleton.View s = Some headersDoNotFit
  <-> Skeleton.termSizeNotEnoughToHandleHeaders s = false.
Proof.
  intros Hr. split; [|by apply View_headers_flag].
  unfold Skeleton.View. rewrite Hr. cbn [negb].
  destruct (Skeleton.termSizeNotEnoughToHandleHeaders s); [|done].
  cbn [negb]. destruct (negb _); [done|]. by destruct (index _ _).
Qed.

Lemma switchPage_headers_flag cmds position s s' cmds' :
  Skeleton.switchPage cmds position s = Some (s', cmds') ->
  Skeleton.termSizeNotEnoughToHandleHeaders s'
  = Skeleton.termSizeNotEnoughToHandleHeaders s.
Proof.
  unfold Skeleton.switchPage.
  destruct (Skeleton.IsTabsLocked s); [by intros [= <- _]|].
  repeat case_decide.
  - destruct (Skeleton.scanLeft _ _) as [[j|]|]; by intros [= <- _].
  - destruct (_ <? _); [done|].
    destruct (Skeleton.scanRight _ _ _) as [[j|]|]; by intros [= <- _].
  - by intros [= <- _].
Qed.

Lemma updateSkeleton_headers_flag msg cmds s s' cmds' :
  Skeleton.updateSkeleton msg cmds s = Some (s', cmds') ->
  Skeleton.termSizeNotEnoughToHandleHeaders s'
  = Skeleton.termSizeNotEnoughToHandleHeaders s.
Proof.
  intros Hup. destruct (updateSkeleton_inv _ _ _ _ _ Hup) as [page Hpage].
  rewrite (updateSkeleton_Some _ _ _ _ Hpage) in Hup. by injection Hup as <- _.
Qed.

(** The header-fit flag holds the content of the [HeaderSizeMsg] that was
    handled last: that message stores its content, no other message
    writes the flag. *)
Lemma Update_headers_flag msg s s' c :
  Skeleton.Update msg s = Some (s', c) ->
  Skeleton.termSizeNotEnoughToHandleHeaders s'
  = match msg with
    | HeaderSizeMsg b => b
    | _ => Skeleton.termSizeNotEnoughToHandleHeaders s
    end.
Proof.
  assert (forall s1 cmds1,
             Skeleton.termSizeNotEnoughToHandleHeaders
               (fst (Skeleton.appendListen (s1, cmds1)))
             = Skeleton.termSizeNotEnoughToHandleHeaders s1) as Hlisten.
  { intros s1 cmds1. unfold Skeleton.appendListen, Updater.Listen.
    by destruct (Updater.listening (Skeleton.updater s1)). }
  unfold Skeleton.Update.
  destruct msg as [w h|k|k ttl page| |b|b| |tag].
  - destruct (Skeleton.updateSkeleton _ _ _) as [[s1 cmds1]|] eqn:Hup;
      [|done].
    intros [= <- _]. cbn [fst Skeleton.batch].
    rewrite (updateSkeleton_headers_flag _ _ _ _ _ Hup).
    by destruct (negb _); [destruct (_ && _)|].
  - destruct k.
    + by intros [= <- _].
    + destruct (Skeleton.switchPage _ _ _) as [[s1 cmds1]|] eqn:Hsw; [|done].
      destruct (Skeleton.updateSkeleton _ _ _) as [[s2 cmds2]|] eqn:Hup;
        [|done].
      intros [= <- _]. cbn [fst Skeleton.batch].
      rewrite (updateSkeleton_headers_flag _ _ _ _ _ Hup).
      by rewrite (switchPage_headers_flag _ _ _ _ _ Hsw).
    + destruct (Skeleton.switchPage _ _ _) as [[s1 cmds1]|] eqn:Hsw; [|done].
      destruct (Skeleton.updateSkeleton _ _ _) as [[s2 cmds2]|] eqn:Hup;
        [|done].
      intros [= <- _]. cbn [fst Skeleton.batch].
      rewrite (updateSkeleton_headers_flag _ _ _ _ _ Hup).
      by rewrite (switchPage_headers_flag _ _ _ _ _ Hsw).
    + destruct (Skeleton.updateSkeleton _ _ _) as [[s1 cmds1]|] eqn:Hup;
        [|done].
      intros [= <- _]. cbn [fst Skeleton.batch].
      by rewrite (updateSkeleton_headers_flag _ _ _ _ _ Hup).
  - destruct (Skeleton.updateSkeleton _ _ _) as [[s1 cmds1]|] eqn:Hup;
      [|done].
    intros [= <- _]. etrans; [exact (Hlisten s1 cmds1)|].
    by rewrite (updateSkeleton_headers_flag _ _ _ _ _ Hup).
  - destruct (Skeleton.updateSkeleton _ _ _) as [[s1 cmds1]|] eqn:Hup;
      [|done].
    intros [= <- _]. etrans; [exact (Hlisten s1 cmds1)|].
    by rewrite (updateSkeleton_headers_flag _ _ _ _ _ Hup).
  - by intros [= <- _].
  - by intros [= <- _].
  - destruct (Skeleton.updateSkeleton _ _ _) as [[s1 cmds1]|] eqn:Hup;
      [|done].
    intros [= <- _]. etrans; [exact (Hlisten s1 cmds1)|].
    by rewrite (updateSkeleton_headers_flag _ _ _ _ _ Hup).
  - destruct (Skeleton.updateSkeleton _ _ _) as [[s1 cmds1]|] eqn:Hup;
      [|done].
    intros [= <- _]. etrans; [exact (Hlisten s1 cmds1)|].
    by rewrite (updateSkeleton_headers_flag _ _ _ _ _ Hup).
Qed.

Lemma runMsgs_headers_flag msgs : forall s s',
  runMsgs msgs s = Some s' ->
  Skeleton.termSizeNotEnoughToHandleHeaders s'
  = lastHeaderSize msgs (Skeleton.termSizeNotEnoughToHandleHeaders s).
Proof.
  induction msgs as [|msg msgs IH]; intros s s'; cbn [runMsgs].
  - by intros [= <-].
  - destruct (Skeleton.Update msg s) as [[s1 c]|] eqn:Hup; [|done].
    intros Hrun. rewrite (IH _ _ Hrun), (Update_headers_flag _ _ _ _ Hup).
    unfold lastHeaderSize. cbn [foldl]. by destruct msg.
Qed.

(** C8, as the code has it. [View] decides by two flags: it returns the
    set-up text exactly while [termReady] is unset, which lasts exactly
    until a resize event with both dimensions positive is handled, and once
    ready it returns the headers text exactly while the header-fit flag is
    unset.  The flag is the content of the last [HeaderSizeMsg] handled: a
    [HeaderSizeMsg] stores its content and no other message writes the
    flag.  A resize event to a width below the title length plus 2 makes
    the header emit [HeaderSizeMsg{false}], and once that message is
    handled [View] returns the headers text. *)
Theorem view_placeholders_follow_the_measured_flags s (w ht : Z) :
  is_Some (index (Skeleton.pages s) (header.currentTab (Skeleton.header s))) ->
  0 < w -> 0 < ht ->
  int_sub w (int_add (header.titleLen (Skeleton.header s)) 2) < 0 ->
  (exists s1 rest,
      Skeleton.Update (WindowSizeMsg w ht) s
      = Some (s1, CmdBatch (CmdBatch [CmdHeaderSize false] :: rest))
      /\ Skeleton.termReady s1 = true
      /\ exists s2 c2,
          Skeleton.Update (HeaderSizeMsg false) s1 = Some (s2, c2)
          /\ Skeleton.View s2 = Some headersDoNotFit)
  /\ (forall s0 : Skeleton.t P W,
         Skeleton.termReady s0 = false -> Skeleton.View s0 = Some settingUp)
  /\ (forall (msgs : list (Msg P)) (s0 s0' : Skeleton.t P W),
         runMsgs msgs s0 = Some s0' ->
         Skeleton.termReady s0'
         = Skeleton.termReady s0 || existsb validViewport msgs)
  /\ (forall s0 : Skeleton.t P W,
         Skeleton.termReady s0 = true ->
         Skeleton.termSizeNotEnoughToHandleHeaders s0 = false ->
         Skeleton.View s0 = Some headersDoNotFit)
  /\ (forall s0 : Skeleton.t P W,
         Skeleton.View s0 = Some settingUp <-> Skeleton.termReady s0 = false)
  /\ (forall (msgs : list (Msg P)) (s0 s0' : Skeleton.t P W),
         Skeleton.termReady s0 = false ->
         runMsgs msgs s0 = Some s0' ->
         Skeleton.View s0' = Some settingUp
         <-> existsb validViewport msgs = false)
  /\ (forall s0 : Skeleton.t P W,
         Skeleton.termReady s0 = true ->
         Skeleton.View s0 = Some headersDoNotFit
         <-> Skeleton.termSizeNotEnoughToHandleHeaders s0 = false)
  /\ (forall (fits : bool) (s0 : Skeleton.t P W),
         exists s0' c,
           Skeleton.Update (HeaderSizeMsg fits) s0 = Some (s0', c)
           /\ Skeleton.termSizeNotEnoughToHandleHeaders s0' = fits)
  /\ (forall (msg : Msg P) (s0 s0' : Skeleton.t P W) c,
         Skeleton.Update msg s0 = Some (s0', c) ->
         Skeleton.termSizeNotEnoughToHandleHeaders s0'
         = match msg with
           | HeaderSizeMsg fits => fits
           | _ => Skeleton.termSizeNotEnoughToHandleHeaders s0
           end)
  /\ (forall (msgs : list (Msg P)) (s0 s0' : Skeleton.t P W),
         runMsgs msgs s0 = Some s0' ->
         Skeleton.termSizeNotEnoughToHandleHeaders s0'
         = lastHeaderSize msgs
             (Skeleton.termSizeNotEnoughToHandleHeaders s0)).
Proof.
  intros [page Hpage] Hw Hh Hreq.
  split; [|split; [apply View_not_ready|split;
                   [apply runMsgs_termReady|split;
                    [apply View_headers_flag|]]]]; cycle 1.
  { split; [apply View_settingUp_iff|]. split.
    { intros msgs s0 s0' Hr0 Hrun. rewrite View_settingUp_iff.
      by rewrite (runMsgs_termReady _ _ _ Hrun), Hr0. }
    split; [apply View_headers_iff|]. split.
    { intros fits s0. by eexists _, _. }
    split; [apply Update_headers_flag|apply runMsgs_headers_flag]. }
  destruct (Skeleton.Update (WindowSizeMsg w ht) s) as [[s1 c1]|] eqn:Hup.
  2:{ unfold Skeleton.Update in Hup.
      erewrite updateSkeleton_Some in Hup; [done|].
      by destruct (negb _); [destruct (_ && _)|]. }
  assert (Skeleton.termReady s1 = true) as Hready.
  { rewrite (Update_termReady _ _ _ _ Hup). simpl.
    destruct (Z.ltb_spec 0 w); [|lia]. destruct (Z.ltb_spec 0 ht); [|lia].
    apply orb_true_r. }
  assert (exists rest, c1 = CmdBatch (CmdBatch [CmdHeaderSize false] :: rest))
    as [rest ->].
  { unfold Skeleton.Update in Hup.
    destruct (Skeleton.updateSkeleton _ _ _) as [[s1' cmds1]|] eqn:Hsk; [|done].
    assert (c1 = CmdBatch cmds1) as ->
        by (unfold Skeleton.batch in Hup; simpl in Hup; congruence).
    destruct (updateSkeleton_cmds _ _ _ _ _ Hsk) as (wc & pc & ->).
    rewrite header_Update_resize. exists [wc; pc].
    rewrite (titleLen_frame (Skeleton.header s));
      [|by destruct (negb _); [destruct (_ && _)|]..].
    by rewrite (proj2 (Z.ltb_lt _ _) Hreq). }
  exists s1, rest. split; [done|]. split; [done|].
  eexists _, _. split; [done|]. by apply View_headers_flag.
Qed.
End Compositor.

(** ** The theorems at concrete states *)

(** ** The order of the signals *)

Section BusOrder.
Context {P : Type}.
Implicit Types (u : Updater.t P) (b : Updater.Bus P) (c : Chan.t (Msg P)).
Implicit Types (msg : Msg P) (ev : Updater.BusEvent P).

Lemma signalAll_buf msgs : forall u,
  chanBounded (Updater.rcv u) ->
  Chan.buf (Updater.rcv (signalAll msgs u))
  = take (Chan.capacity (Updater.rcv u)) (Chan.buf (Updater.rcv u) ++ msgs)
  /\ Chan.capacity (Updater.rcv (signalAll msgs u))
     = Chan.capacity (Updater.rcv u)
  /\ Updater.listening (signalAll msgs u) = Updater.listening u.
Proof.
  induction msgs as [|msg msgs IH]; intros u Hb.
  - simpl. rewrite app_nil_r. split; [|done].
    symmetry. apply take_ge. exact Hb.
  - simpl. destruct (IH (Updater.UpdateWithMsg msg u)) as (Hbuf & Hcap & Hl).
    { by apply trySend_bounded. }
    rewrite Hbuf, Hcap, Hl. simpl. rewrite trySend_capacity.
    split; [|done].
    unfold Chan.trySend, Chan.send, chanBounded, Chan.len in *.
    destruct (Nat.ltb_spec (length (Chan.buf (Updater.rcv u)))
                           (Chan.capacity (Updater.rcv u))); simpl.
    + by rewrite <- (assoc_L (++)).
    + rewrite !take_app_le by lia. done.
Qed.

(** X1. A run of signals keeps the pending entries in arrival order and
    drops the newest ones: the channel holds the first [capacity] entries
    of what was pending followed by what was signalled. *)
Theorem signals_queue_in_order_and_drop_the_newest (msgs : list (Msg P)) u :
  (Chan.len (Updater.rcv u) <= Chan.capacity (Updater.rcv u))%nat ->
  Chan.buf (Updater.rcv (signalAll msgs u))
  = take (Chan.capacity (Updater.rcv u)) (Chan.buf (Updater.rcv u) ++ msgs)
  /\ Chan.len (Updater.rcv (signalAll msgs u))
     = Nat.min (Chan.len (Updater.rcv u) + length msgs)
               (Chan.capacity (Updater.rcv u))
  /\ Updater.listening (signalAll msgs u) = Updater.listening u.
Proof.
  intros Hb. destruct (signalAll_buf msgs u Hb) as (Hbuf & _ & Hl).
  split; [done|]. split; [|done].
  unfold Chan.len. rewrite Hbuf, length_take, length_app. lia.
Qed.

(** X2. The closure of [Listen] blocks exactly on an empty channel;
    otherwise it returns the oldest pending message.  On an empty channel
    with room, the first message signalled is the one the closure returns,
    with the later ones still pending behind it. *)
Theorem listener_receives_the_oldest_signal msg (msgs : list (Msg P)) u :
  Chan.buf (Updater.rcv u) = [] ->
  (0 < Chan.capacity (Updater.rcv u))%nat ->
  (exists u',
      Updater.runListenCmd (signalAll (msg :: msgs) u) = Some (msg, u')
      /\ Chan.buf (Updater.rcv u')
         = take (Chan.capacity (Updater.rcv u) - 1) msgs
      /\ Updater.listening u' = false)
  /\ Updater.runListenCmd u = None
  /\ (forall u0 : Updater.t P,
         Updater.runListenCmd u0 = None <-> Chan.buf (Updater.rcv u0) = []).
Proof.
  intros Hempty Hcap. split; [|split].
  - destruct (signalAll_buf (msg :: msgs) u) as (Hbuf & _ & _).
    { unfold chanBounded, Chan.len. rewrite Hempty. simpl. lia. }
    unfold Updater.runListenCmd, Updater.listenReceive, Chan.recv.
    rewrite Hbuf, Hempty.
    destruct (Chan.capacity (Updater.rcv u)) as [|n] eqn:Hn; [lia|].
    simpl. eexists. split; [done|]. simpl. by rewrite Nat.sub_0_r.
  - unfold Updater.runListenCmd, Updater.listenReceive, Chan.recv.
    by rewrite Hempty.
  - intros u0. unfold Updater.runListenCmd, Updater.listenReceive, Chan.recv.
    by destruct (Chan.buf (Updater.rcv u0)).
Qed.

(** The messages inside the closures, across an update in place and a
    removal. *)
Lemma carried_lookup (gs : list (Updater.ListenPc P)) i pc :
  gs !! i = Some pc ->
  gs ≫= carried
  = (take i gs ≫= carried) ++ carried pc ++ (drop (S i) gs ≫= carried).
Proof.
  intros Hi. rewrite <- (take_drop_middle gs i pc Hi) at 1.
  by rewrite bind_app, bind_cons.
Qed.

Lemma carried_insert (gs : list (Updater.ListenPc P)) i pc pc' :
  gs !! i = Some pc ->
  <[i:=pc']> gs ≫= carried
  = (take i gs ≫= carried) ++ carried pc' ++ (drop (S i) gs ≫= carried).
Proof.
  intros Hi. rewrite insert_take_drop by (by eapply lookup_lt_Some).
  by rewrite bind_app, bind_cons.
Qed.

Lemma carried_delete (gs : list (Updater.ListenPc P)) i :
  delete i gs ≫= carried
  = (take i gs ≫= carried) ++ (drop (S i) gs ≫= carried).
Proof. by rewrite delete_take_drop, bind_app. Qed.

Lemma trySend_inFlight (pre : list (Msg P)) msg c :
  pre ++ Chan.buf (Chan.trySend msg c) ⊆+ (pre ++ Chan.buf c) ++ [msg].
Proof.
  unfold Chan.trySend, Chan.send. destruct (_ <? _)%nat; simpl.
  - by rewrite (assoc_L (++)).
  - by apply submseteq_inserts_r.
Qed.

(** One step adds to the messages in flight at most the message it
    offers; the steps of a listener only move a message from the channel
    into a closure and from there to the host. *)
Lemma bus_step_inFlight ev b :
  inFlight (Updater.bus_step ev b) ⊆+ inFlight b ++ offered [ev].
Proof.
  destruct b as [u gs dl]. unfold inFlight, held.
  destruct ev as [|msg| |i|i|i]; simpl; rewrite ?app_nil_r.
  - rewrite !(assoc_L (++)). apply trySend_inFlight.
  - rewrite !(assoc_L (++)). apply trySend_inFlight.
  - unfold Updater.Listen. destruct (Updater.listening u); simpl; [done|].
    rewrite bind_app. simpl. by rewrite app_nil_r.
  - destruct (gs !! i) as [[|m|m]|] eqn:Hi; try done.
    unfold Updater.listenReceive, Chan.recv.
    destruct (Chan.buf (Updater.rcv u)) as [|m rest] eqn:Hbuf; simpl;
      [by rewrite Hbuf|].
    rewrite (carried_insert gs i _ _ Hi), (carried_lookup gs i _ Hi). simpl.
    apply Permutation_submseteq. solve_Permutation.
  - destruct (gs !! i) as [[|m|m]|] eqn:Hi; try done. simpl.
    by rewrite (carried_insert gs i _ _ Hi), (carried_lookup gs i _ Hi).
  - destruct (gs !! i) as [[|m|m]|] eqn:Hi; try done. simpl.
    rewrite (carried_delete gs i), (carried_lookup gs i _ Hi). simpl.
    apply Permutation_submseteq. solve_Permutation.
Qed.

Lemma bus_run_inFlight evs : forall b,
  inFlight (Updater.bus_run evs b) ⊆+ inFlight b ++ offered evs.
Proof.
  induction evs as [|ev evs IH]; intros b.
  - by rewrite app_nil_r.
  - change (Updater.bus_run (ev :: evs) b)
      with (Updater.bus_run evs (Updater.bus_step ev b)).
    etrans; [apply IH|].
    replace (offered (ev :: evs)) with (offered [ev] ++ offered evs)
      by (symmetry; apply (omap_app _ [ev] evs)).
    rewrite (assoc_L (++)). apply submseteq_app; [|done].
    apply bus_step_inFlight.
Qed.

(** X3. From the start of the process on, the messages delivered to the
    host are, counted with their multiplicity, among the messages offered
    to the channel: nothing is delivered that was not signalled, and
    nothing more often than it was signalled.  The order is not kept: a
    goroutine that has cleared the guard can return its message after a
    listener that subscribed later has returned the next one. *)
Theorem delivered_messages_were_signalled
        (evs : list (Updater.BusEvent P)) :
  Updater.bus_delivered (Updater.bus_run evs Updater.NewBus) ⊆+ offered evs
  /\ (length (Updater.bus_delivered (Updater.bus_run evs Updater.NewBus))
      <= length (offered evs))%nat
  /\ (forall msg,
         msg ∈ Updater.bus_delivered (Updater.bus_run evs Updater.NewBus) ->
         msg ∈ offered evs)
  /\ exists evs0 : list (Updater.BusEvent P),
      offered evs0 = [UpdateMsg; IAMActivePage]
      /\ Updater.bus_delivered (Updater.bus_run evs0 Updater.NewBus)
         = [IAMActivePage; UpdateMsg].
Proof.
  assert (Updater.bus_delivered (Updater.bus_run evs (Updater.NewBus (P:=P)))
            ⊆+ offered evs) as Hsub.
  { etrans; [|apply (bus_run_inFlight evs Updater.NewBus)].
    unfold inFlight. by apply submseteq_inserts_r. }
  split; [done|]. split; [by apply submseteq_length|].
  split; [intros msg Hin; by eapply elem_of_submseteq|].
  exists [Updater.EvUpdate; Updater.EvUpdateWithMsg IAMActivePage;
          Updater.EvListen; Updater.EvReceive 0; Updater.EvRelease 0;
          Updater.EvListen; Updater.EvReceive 1; Updater.EvRelease 1;
          Updater.EvReturn 1; Updater.EvReturn 0].
  split; vm_compute; reflexivity.
Qed.
End BusOrder.

(** ** Selecting, renaming and locking a tab *)

Section MoreRegistry.
Context {P W : Type} `{!RuneCount, !TeaModel P, !WidgetModel W P}.
Implicit Types (s : Skeleton.t P W) (h : header.t P) (k : string).
Implicit Types (l : list header.commonHeader) (ps : list P).

(** [findKey] returns the first position of the key, counted from [i]. *)
Lemma findKey_Some k l : forall i j,
  Skeleton.findKey k l i = Some j ->
  exists d hdr, j = i + Z.of_nat d /\ l !! d = Some hdr /\ header.key hdr = k
    /\ forall d' hdr', (d' < d)%nat -> l !! d' = Some hdr' ->
                       header.key hdr' <> k.
Proof.
  induction l as [|hdr l IH]; intros i j; simpl; [done|].
  destruct (decide (header.key hdr = k)) as [Hk|Hk].
  - intros [= <-]. exists 0%nat, hdr. split; [lia|]. split; [done|].
    split; [done|]. intros; lia.
  - intros Hf. destruct (IH _ _ Hf) as (d & hdr0 & -> & Hd & Hk0 & Hfirst).
    exists (S d), hdr0. split; [lia|]. split; [done|]. split; [done|].
    intros [|d'] hdr' Hlt; simpl.
    + by intros [= <-].
    + apply Hfirst. lia.
Qed.

Lemma findKey_None k l i :
  Skeleton.findKey k l i = None <-> k ∉ header.key <$> l.
Proof.
  revert i. induction l as [|hdr l IH]; intros i; simpl.
  - split; [intros _; apply not_elem_of_nil|done].
  - destruct (decide (header.key hdr = k)) as [Hk|Hk].
    + split; [done|]. intros Hn. destruct Hn. rewrite Hk. left.
    + rewrite IH, not_elem_of_cons.
      split; [intros ?; split; [congruence|done]|by intros [_ ?]].
Qed.

(** X4. [SetActivePage] with the key of a registered tab makes the first
    tab of that key the active one, for the skeleton and for the header,
    and touches no tab; with an unknown key it returns the skeleton as it
    was, without a signal. *)
Theorem set_active_page_selects_the_key s k :
  k ∈ keys s ->
  Skeleton.GetActivePage (Skeleton.SetActivePage k s) = Some k
  /\ header.currentTab (Skeleton.header (Skeleton.SetActivePage k s))
     = Skeleton.currentTab (Skeleton.SetActivePage k s)
  /\ 0 <= Skeleton.currentTab (Skeleton.SetActivePage k s)
       < Z.of_nat (length (header.headers (Skeleton.header s)))
  /\ header.headers (Skeleton.header (Skeleton.SetActivePage k s))
     = header.headers (Skeleton.header s)
  /\ Skeleton.pages (Skeleton.SetActivePage k s) = Skeleton.pages s
  /\ (forall k', k' ∉ keys s -> Skeleton.SetActivePage k' s = s).
Proof.
  intros Hin. unfold Skeleton.SetActivePage.
  destruct (Skeleton.findKey k _ 0) as [j|] eqn:Hf.
  - destruct (findKey_Some _ _ _ _ Hf) as (d & hdr & -> & Hd & Hk & _).
    split; [|split; [done|split; [|split; [done|split; [done|]]]]].
    + unfold Skeleton.GetActivePage, index. simpl.
      rewrite Z.add_0_l. destruct (Z.ltb_spec (Z.of_nat d) 0); [lia|].
      rewrite Nat2Z.id, Hd. simpl. by rewrite Hk.
    + simpl. apply lookup_lt_Some in Hd. lia.
    + intros k' Hk'. by rewrite (proj2 (findKey_None k' _ 0) Hk').
  - by apply findKey_None in Hf.
Qed.

Lemma retitle_keys k ttl l :
  header.key <$> map (fun hdr => if decide (header.key hdr = k)
                                 then header.mkHeader (header.key hdr) ttl
                                 else hdr) l
  = header.key <$> l.
Proof.
  induction l as [|hdr l IH]; [done|]. csimpl. rewrite IH.
  by destruct (decide _).
Qed.

Lemma retitle_absent k ttl l :
  k ∉ header.key <$> l ->
  map (fun hdr => if decide (header.key hdr = k)
                  then header.mkHeader (header.key hdr) ttl else hdr) l = l.
Proof.
  induction l as [|hdr l IH]; [done|]. simpl.
  intros [Hne Hnin]%not_elem_of_cons. rewrite IH by done.
  by rewrite decide_False.
Qed.

(** X5. [UpdatePageTitle] gives the tab of the key the new title and
    computes the title length again; keys, their order, the pages, the
    current index and the locks stay.  With an unknown key no header
    changes. *)
Theorem update_page_title_replaces_the_title s k ttl :
  k ∈ keys s ->
  keys (Skeleton.UpdatePageTitle k ttl s) = keys s
  /\ Skeleton.pages (Skeleton.UpdatePageTitle k ttl s) = Skeleton.pages s
  /\ Skeleton.currentTab (Skeleton.UpdatePageTitle k ttl s)
     = Skeleton.currentTab s
  /\ header.lockedTabs (Skeleton.header (Skeleton.UpdatePageTitle k ttl s))
     = header.lockedTabs (Skeleton.header s)
  /\ (forall i hdr,
         header.headers (Skeleton.header s) !! i = Some hdr ->
         header.headers (Skeleton.header (Skeleton.UpdatePageTitle k ttl s)) !! i
         = Some (if decide (header.key hdr = k) then header.mkHeader k ttl
                 else hdr))
  /\ (exists hdr,
         hdr ∈ header.headers (Skeleton.header (Skeleton.UpdatePageTitle k ttl s))
         /\ header.key hdr = k /\ header.title hdr = ttl)
  /\ header.titleLength (Skeleton.header (Skeleton.UpdatePageTitle k ttl s))
     = header.titleLen (Skeleton.header (Skeleton.UpdatePageTitle k ttl s))
  /\ (forall k', k' ∉ keys s ->
         header.headers (Skeleton.header (Skeleton.UpdatePageTitle k' ttl s))
         = header.headers (Skeleton.header s)).
Proof.
  intros Hin.
  assert (forall k0,
    header.headers (Skeleton.header (Skeleton.UpdatePageTitle k0 ttl s))
    = map (fun hdr => if decide (header.key hdr = k0)
                      then header.mkHeader (header.key hdr) ttl else hdr)
          (header.headers (Skeleton.header s))) as Hh.
  { intros k0. unfold Skeleton.UpdatePageTitle, header.UpdateCommonHeader.
    by rewrite calculateTitleLength_fst. }
  assert (forall i hdr,
         header.headers (Skeleton.header s) !! i = Some hdr ->
         header.headers (Skeleton.header (Skeleton.UpdatePageTitle k ttl s)) !! i
         = Some (if decide (header.key hdr = k) then header.mkHeader k ttl
                 else hdr)) as Hat.
  { intros i hdr Hi. rewrite Hh, list_lookup_fmap, Hi. simpl.
    destruct (decide _) as [->|]; done. }
  split; [unfold keys; by rewrite Hh, retitle_keys|].
  split; [unfold Skeleton.UpdatePageTitle, header.UpdateCommonHeader;
          by rewrite calculateTitleLength_fst|].
  split; [unfold Skeleton.UpdatePageTitle, header.UpdateCommonHeader;
          by rewrite calculateTitleLength_fst|].
  split; [unfold Skeleton.UpdatePageTitle, header.UpdateCommonHeader;
          by rewrite calculateTitleLength_fst|].
  split; [done|]. split; [|split].
  - apply list_elem_of_fmap in Hin as (hdr & -> & Hhdr).
    apply list_elem_of_lookup in Hhdr as [i Hi].
    exists (header.mkHeader (header.key hdr) ttl). split; [|done].
    apply list_elem_of_lookup. exists i. rewrite (Hat i hdr Hi).
    by rewrite decide_True.
  - unfold Skeleton.UpdatePageTitle, header.UpdateCommonHeader.
    rewrite calculateTitleLength_fst. simpl.
    unfold header.titleLen, header.addTitle. done.
  - intros k' Hk'. rewrite Hh. by apply retitle_absent.
Qed.

(** X6. [LockTab] and [UnlockTab] write one entry of the lock map: the key
    reads as locked after [LockTab] and as unlocked after [UnlockTab],
    whether or not a tab has that key; every other key reads as before.
    Tabs, pages, the current index and the global flag are not touched. *)
Theorem lock_tab_and_unlock_tab_change_one_key s k k' :
  k' <> k ->
  Skeleton.IsTabLocked k (Skeleton.LockTab k s) = true
  /\ Skeleton.IsTabLocked k (Skeleton.UnlockTab k s) = false
  /\ Skeleton.IsTabLocked k (Skeleton.UnlockTab k (Skeleton.LockTab k s)) = false
  /\ Skeleton.IsTabLocked k' (Skeleton.LockTab k s) = Skeleton.IsTabLocked k' s
  /\ Skeleton.IsTabLocked k' (Skeleton.UnlockTab k s)
     = Skeleton.IsTabLocked k' s
  /\ (keys (Skeleton.LockTab k s) = keys s
      /\ Skeleton.pages (Skeleton.LockTab k s) = Skeleton.pages s
      /\ Skeleton.currentTab (Skeleton.LockTab k s) = Skeleton.currentTab s
      /\ Skeleton.lockTabs (Skeleton.LockTab k s) = Skeleton.lockTabs s)
  /\ (keys (Skeleton.UnlockTab k s) = keys s
      /\ Skeleton.pages (Skeleton.UnlockTab k s) = Skeleton.pages s
      /\ Skeleton.currentTab (Skeleton.UnlockTab k s) = Skeleton.currentTab s
      /\ Skeleton.lockTabs (Skeleton.UnlockTab k s) = Skeleton.lockTabs s).
Proof.
  intros Hne. unfold Skeleton.IsTabLocked, header.IsTabLocked. simpl.
  rewrite lookup_insert_eq, !lookup_delete_eq.
  rewrite lookup_insert_ne, lookup_delete_ne by done. done.
Qed.
End MoreRegistry.

(** ** Locks on a side of the current tab *)

Section MoreLocks.
Context {P W : Type} `{!RuneCount, !TeaModel P, !WidgetModel W P}.
Implicit Types (s : Skeleton.t P W) (h : header.t P) (k : string).
Implicit Types (l : list header.commonHeader) (ps : list P).

Lemma header_lockAll_headers l : forall h,
  header.headers (foldl (fun h hdr => header.LockTab (header.key hdr) h) h l)
  = header.headers h.
Proof. induction l as [|hdr l IH]; intros h; [done|]. cbn [foldl]. by rewrite IH. Qed.

Lemma GetLockTabs_spec h :
  header.GetLockTabs h = true
  <-> forall hdr, hdr ∈ header.headers h ->
                  header.IsTabLocked (header.key hdr) h = true.
Proof.
  unfold header.GetLockTabs. rewrite forallb_forall.
  split; intros Hall hdr Hin; apply Hall; by apply list_elem_of_In.
Qed.

(** X7. The header reports "all tabs locked" exactly when every tab it
    holds is individually locked: it does so after [SetLockTabs(true)], it
    does so for a header without tabs, and after [SetLockTabs(false)] it
    does not as soon as there is a tab. *)
Theorem get_lock_tabs_reads_every_tab h :
  header.headers h <> [] ->
  (header.GetLockTabs h = true
   <-> forall hdr, hdr ∈ header.headers h ->
                   header.IsTabLocked (header.key hdr) h = true)
  /\ header.GetLockTabs (header.SetLockTabs true h) = true
  /\ header.GetLockTabs (header.SetLockTabs false h) = false
  /\ header.GetLockTabs (header.newHeader (P:=P)) = true
  /\ header.headers (header.SetLockTabs true h) = header.headers h.
Proof.
  intros Hne. split; [apply GetLockTabs_spec|].
  assert (header.headers (header.SetLockTabs true h) = header.headers h) as Hh.
  { unfold header.SetLockTabs. simpl. apply header_lockAll_headers. }
  split; [|split; [|split; [done|done]]].
  - apply GetLockTabs_spec. intros hdr Hin. rewrite Hh in Hin.
    unfold header.IsTabLocked, header.SetLockTabs. simpl.
    rewrite lockAll_header_lookup, decide_True; [done|].
    by apply list_elem_of_fmap_2.
  - destruct (header.headers h) as [|hdr l] eqn:Hl; [done|].
    unfold header.GetLockTabs, header.SetLockTabs. simpl. by rewrite Hl.
Qed.

(** The locks and the rest of the skeleton after [lockAll]. *)
Lemma lockAll_spec l : forall s,
  (forall k,
      header.lockedTabs (Skeleton.header (Skeleton.lockAll l s)) !! k
      = if decide (k ∈ header.key <$> l) then Some true
        else header.lockedTabs (Skeleton.header s) !! k)
  /\ header.headers (Skeleton.header (Skeleton.lockAll l s))
     = header.headers (Skeleton.header s)
  /\ Skeleton.pages (Skeleton.lockAll l s) = Skeleton.pages s
  /\ Skeleton.currentTab (Skeleton.lockAll l s) = Skeleton.currentTab s
  /\ header.currentTab (Skeleton.header (Skeleton.lockAll l s))
     = header.currentTab (Skeleton.header s)
  /\ Skeleton.lockTabs (Skeleton.lockAll l s) = Skeleton.lockTabs s.
Proof.
  induction l as [|hdr l IH]; intros s.
  - split; [|done]. intros k.
    destruct (decide _) as [Hin|_]; [by apply elem_of_nil in Hin|done].
  - unfold Skeleton.lockAll. cbn [foldl].
    destruct (IH (Skeleton.LockTab (header.key hdr) s))
      as (Hlook & Hh & Hp & Hc & Hhc & Hl).
    unfold Skeleton.lockAll in *. rewrite Hh, Hp, Hc, Hhc, Hl.
    split; [|done]. intros k. rewrite Hlook, fmap_cons.
    destruct (decide (k ∈ header.key <$> l)) as [Hin|Hin].
    + rewrite decide_True; [done|by right].
    + destruct (decide (k = header.key hdr)) as [->|Hne].
      * rewrite decide_True by left. apply lookup_insert_eq.
      * rewrite decide_False by (by intros [?|?]%elem_of_cons).
        by apply lookup_insert_ne.
Qed.

Lemma scanRight_all_locked s n first :
  (first + n <= length (header.headers (Skeleton.header s)))%nat ->
  (forall i hdr, (first <= i)%nat ->
     header.headers (Skeleton.header s) !! i = Some hdr ->
     Skeleton.IsTabLocked (header.key hdr) s = true) ->
  Skeleton.scanRight s n first = Some None.
Proof.
  intros Hn Hall.
  destruct (scanRight_spec s n first)
    as [(j & hdr & _ & Hj & Hlook & Hu & _)|[Hscan _]]; [by right| |done].
  rewrite (Hall j hdr) in Hu; [done|lia|done].
Qed.

Lemma scanLeft_all_locked s n :
  (n <= length (header.headers (Skeleton.header s)))%nat ->
  (forall i hdr, (i < n)%nat ->
     header.headers (Skeleton.header s) !! i = Some hdr ->
     Skeleton.IsTabLocked (header.key hdr) s = true) ->
  Skeleton.scanLeft s n = Some None.
Proof.
  intros Hn Hall.
  destruct (scanLeft_spec s n)
    as [(j & hdr & _ & Hj & Hlook & Hu & _)|[Hscan _]]; [done| |done].
  rewrite (Hall j hdr) in Hu; [done|lia|done].
Qed.

(** X8. [LockTabsToTheRight] locks every tab behind the current one and no
    other tab, and leaves tabs, pages and index alone; with the last tab
    current it returns the skeleton as it was.  Afterwards the navigation
    to the right finds no target. *)
Theorem lock_tabs_to_the_right_blocks_the_right s (cmds : list Cmd) :
  0 <= Skeleton.currentTab s ->
  (length (Skeleton.pages s)
   <= length (header.headers (Skeleton.header s)))%nat ->
  NoDup (keys s) ->
  exists s',
    Skeleton.LockTabsToTheRight s = Some s'
    /\ (forall i hdr,
           header.headers (Skeleton.header s) !! i = Some hdr ->
           Skeleton.IsTabLocked (header.key hdr) s'
           = if decide (Skeleton.currentTab s < Z.of_nat i) then true
             else Skeleton.IsTabLocked (header.key hdr) s)
    /\ header.headers (Skeleton.header s') = header.headers (Skeleton.header s)
    /\ Skeleton.pages s' = Skeleton.pages s
    /\ Skeleton.currentTab s' = Skeleton.currentTab s
    /\ Skeleton.lockTabs s' = Skeleton.lockTabs s
    /\ Skeleton.switchPage cmds "right" s' = Some (s', cmds)
    /\ (Z.of_nat (length (header.headers (Skeleton.header s))) - 1
        <= Skeleton.currentTab s -> s' = s).
Proof.
  intros Hcur Hlen Hnd. unfold Skeleton.LockTabsToTheRight.
  destruct (Z.leb_spec
              (Z.of_nat (length (header.headers (Skeleton.header s))) - 1)
              (Skeleton.currentTab s)) as [Hlast|Hmid].
  - exists s. split; [done|]. split; [|split; [done|split; [done|split;
      [done|split; [done|split; [|done]]]]]].
    + intros i hdr Hi. apply lookup_lt_Some in Hi.
      rewrite decide_False; [done|lia].
    + unfold Skeleton.switchPage. destruct (Skeleton.IsTabsLocked s); [done|].
      simpl. destruct (Z.ltb_spec (Skeleton.currentTab s + 1) 0); [lia|].
      replace (length (Skeleton.pages s) - Z.to_nat (Skeleton.currentTab s + 1))%nat
        with 0%nat by lia. done.
  - destruct (Z.ltb_spec (Skeleton.currentTab s + 1) 0); [lia|].
    set (first := Z.to_nat (Skeleton.currentTab s + 1)).
    set (l := drop first (header.headers (Skeleton.header s))).
    destruct (lockAll_spec l s) as (Hlook & Hh & Hp & Hc & Hhc & Hl).
    eexists. split; [done|].
    assert (forall i hdr,
           header.headers (Skeleton.header s) !! i = Some hdr ->
           Skeleton.IsTabLocked (header.key hdr) (Skeleton.lockAll l s)
           = if decide (Skeleton.currentTab s < Z.of_nat i) then true
             else Skeleton.IsTabLocked (header.key hdr) s) as Hlocks.
    { intros i hdr Hi. unfold Skeleton.IsTabLocked, header.IsTabLocked.
      rewrite Hlook.
      destruct (decide (Skeleton.currentTab s < Z.of_nat i)) as [Hlt|Hge].
      - rewrite decide_True; [done|]. apply list_elem_of_fmap_2.
        apply list_elem_of_lookup. exists (i - first)%nat. unfold l.
        rewrite lookup_drop. rewrite <- Hi. f_equal. lia.
      - rewrite decide_False; [done|].
        intros (hdr' & Hk & Hin)%list_elem_of_fmap.
        apply list_elem_of_lookup in Hin as [d Hd]. unfold l in Hd.
        rewrite lookup_drop in Hd.
        assert (i = (first + d)%nat); [|lia].
        eapply (NoDup_lookup _ _ _ (header.key hdr) Hnd); unfold keys;
          rewrite list_lookup_fmap; [by rewrite Hi|by rewrite Hd, Hk]. }
    split; [exact Hlocks|].
    split; [exact Hh|]. split; [exact Hp|]. split; [exact Hc|].
    split; [exact Hl|]. split; [|lia].
    set (s' := Skeleton.set_updater _ _).
    unfold Skeleton.switchPage.
    destruct (Skeleton.IsTabsLocked s'); [done|].
    rewrite decide_False by done. rewrite decide_True by done.
    change (Skeleton.currentTab s') with (Skeleton.currentTab (Skeleton.lockAll l s)).
    rewrite Hc.
    destruct (Z.ltb_spec (Skeleton.currentTab s + 1) 0); [lia|].
    rewrite scanRight_all_locked; [done| |].
    + change (header.headers (Skeleton.header s'))
        with (header.headers (Skeleton.header (Skeleton.lockAll l s))).
      change (Skeleton.pages s') with (Skeleton.pages (Skeleton.lockAll l s)).
      rewrite Hh, Hp. lia.
    + intros i hdr Hi.
      change (header.headers (Skeleton.header s'))
        with (header.headers (Skeleton.header (Skeleton.lockAll l s))).
      rewrite Hh. intros Hlook'.
      change (Skeleton.IsTabLocked (header.key hdr) s')
        with (Skeleton.IsTabLocked (header.key hdr) (Skeleton.lockAll l s)).
      rewrite (Hlocks i hdr Hlook'). rewrite decide_True; [done|lia].
Qed.

(** X9. [LockTabsToTheLeft] locks every tab in front of the current one
    and no other tab, and leaves tabs, pages and index alone; with the
    first tab current it returns the skeleton as it was.  Afterwards the
    navigation to the left finds no target. *)
Theorem lock_tabs_to_the_left_blocks_the_left s (cmds : list Cmd) :
  Skeleton.currentTab s
  <= Z.of_nat (length (header.headers (Skeleton.header s))) ->
  NoDup (keys s) ->
  exists s',
    Skeleton.LockTabsToTheLeft s = Some s'
    /\ (forall i hdr,
           header.headers (Skeleton.header s) !! i = Some hdr ->
           Skeleton.IsTabLocked (header.key hdr) s'
           = if decide (Z.of_nat i < Skeleton.currentTab s) then true
             else Skeleton.IsTabLocked (header.key hdr) s)
    /\ header.headers (Skeleton.header s') = header.headers (Skeleton.header s)
    /\ Skeleton.pages s' = Skeleton.pages s
    /\ Skeleton.currentTab s' = Skeleton.currentTab s
    /\ Skeleton.lockTabs s' = Skeleton.lockTabs s
    /\ Skeleton.switchPage cmds "left" s' = Some (s', cmds)
    /\ (Skeleton.currentTab s <= 0 -> s' = s).
Proof.
  intros Hcur Hnd. unfold Skeleton.LockTabsToTheLeft.
  destruct (Z.leb_spec (Skeleton.currentTab s) 0) as [Hfirst|Hmid].
  - exists s. split; [done|]. split; [|split; [done|split; [done|split;
      [done|split; [done|split; [|done]]]]]].
    + intros i hdr Hi. rewrite decide_False; [done|lia].
    + unfold Skeleton.switchPage. destruct (Skeleton.IsTabsLocked s); [done|].
      simpl. replace (Z.to_nat (Skeleton.currentTab s)) with 0%nat by lia.
      done.
  - destruct (Z.ltb_spec
                (Z.of_nat (length (header.headers (Skeleton.header s))))
                (Skeleton.currentTab s)); [lia|].
    set (n := Z.to_nat (Skeleton.currentTab s)).
    set (l := take n (header.headers (Skeleton.header s))).
    destruct (lockAll_spec l s) as (Hlook & Hh & Hp & Hc & Hhc & Hl).
    eexists. split; [done|].
    assert (forall i hdr,
           header.headers (Skeleton.header s) !! i = Some hdr ->
           Skeleton.IsTabLocked (header.key hdr) (Skeleton.lockAll l s)
           = if decide (Z.of_nat i < Skeleton.currentTab s) then true
             else Skeleton.IsTabLocked (header.key hdr) s) as Hlocks.
    { intros i hdr Hi. unfold Skeleton.IsTabLocked, header.IsTabLocked.
      rewrite Hlook.
      destruct (decide (Z.of_nat i < Skeleton.currentTab s)) as [Hlt|Hge].
      - rewrite decide_True; [done|]. apply list_elem_of_fmap_2.
        apply list_elem_of_lookup. exists i. unfold l.
        rewrite lookup_take_lt; [done|lia].
      - rewrite decide_False; [done|].
        intros (hdr' & Hk & Hin)%list_elem_of_fmap.
        apply list_elem_of_lookup in Hin as [d Hd]. unfold l in Hd.
        apply lookup_take_Some in Hd as [Hd Hlt].
        assert (i = d); [|lia].
        eapply (NoDup_lookup _ _ _ (header.key hdr) Hnd); unfold keys;
          rewrite list_lookup_fmap; [by rewrite Hi|by rewrite Hd, Hk]. }
    split; [exact Hlocks|].
    split; [exact Hh|]. split; [exact Hp|]. split; [exact Hc|].
    split; [exact Hl|]. split; [|lia].
    set (s' := Skeleton.set_updater _ _).
    unfold Skeleton.switchPage.
    destruct (Skeleton.IsTabsLocked s'); [done|].
    rewrite decide_True by done.
    change (Skeleton.currentTab s') with (Skeleton.currentTab (Skeleton.lockAll l s)).
    rewrite Hc. fold n.
    rewrite scanLeft_all_locked; [done| |].
    + change (header.headers (Skeleton.header s'))
        with (header.headers (Skeleton.header (Skeleton.lockAll l s))).
      rewrite Hh. lia.
    + intros i hdr Hi.
      change (header.headers (Skeleton.header s'))
        with (header.headers (Skeleton.header (Skeleton.lockAll l s))).
      rewrite Hh. intros Hlook'.
      change (Skeleton.IsTabLocked (header.key hdr) s')
        with (Skeleton.IsTabLocked (header.key hdr) (Skeleton.lockAll l s)).
      rewrite (Hlocks i hdr Hlook'). rewrite decide_True; [done|lia].
Qed.
End MoreLocks.

(** ** The index stays on a page *)

Section Safety.
Context {P W : Type} `{!RuneCount, !TeaModel P, !WidgetModel W P}.
Implicit Types (s : Skeleton.t P W) (h : header.t P) (k : string).
Implicit Types (msg : Msg P) (cmds : list Cmd).

Lemma wellFormed_frame s s' :
  wellFormed s ->
  header.headers (Skeleton.header s') = header.headers (Skeleton.header s) ->
  length (Skeleton.pages s') = length (Skeleton.pages s) ->
  Skeleton.currentTab s' = Skeleton.currentTab s ->
  header.currentTab (Skeleton.header s')
  = header.currentTab (Skeleton.header s) ->
  wellFormed s'.
Proof.
  intros ([Hlen Hnd] & Hc & Hr) Hh Hp Hct Hhc.
  unfold wellFormed, registered, keys. rewrite Hh, Hp, Hct, Hhc. done.
Qed.

Lemma wellFormed_active s :
  wellFormed s ->
  exists page hdr,
    Skeleton.pages s !! Z.to_nat (Skeleton.currentTab s) = Some page
    /\ header.headers (Skeleton.header s) !! Z.to_nat (Skeleton.currentTab s)
       = Some hdr
    /\ index (Skeleton.pages s) (Skeleton.currentTab s) = Some page
    /\ Skeleton.GetActivePage s = Some (header.key hdr).
Proof.
  intros ([Hlen Hnd] & Hc & Hr).
  destruct (lookup_lt_is_Some_2 (Skeleton.pages s)
              (Z.to_nat (Skeleton.currentTab s))) as [page Hpage]; [lia|].
  destruct (lookup_lt_is_Some_2 (header.headers (Skeleton.header s))
              (Z.to_nat (Skeleton.currentTab s))) as [hdr Hhdr]; [lia|].
  exists page, hdr. unfold Skeleton.GetActivePage, index.
  destruct (Z.ltb_spec (Skeleton.currentTab s) 0); [lia|].
  by rewrite Hpage, Hhdr.
Qed.

Lemma first_page_wellFormed k ttl page :
  wellFormed (Skeleton.AddPage k ttl page (Skeleton.NewSkeleton (P:=P) (W:=W))).
Proof.
  split; [apply AddPage_registered, NewSkeleton_registered|].
  destruct (AddPage_fresh (Skeleton.NewSkeleton (P:=P) (W:=W)) k ttl page)
    as (s' & -> & Hp & Hh & Hc & Hhc); [apply not_elem_of_nil|].
  rewrite Hp, Hc, Hhc. simpl. lia.
Qed.

Lemma AddPage_wellFormed s k ttl page :
  wellFormed s -> wellFormed (Skeleton.AddPage k ttl page s).
Proof.
  intros Hwf. destruct (decide (k ∈ keys s)) as [Hin|Hin].
  - by rewrite AddPage_dup.
  - destruct Hwf as (Hreg & Hc & Hr).
    split; [by apply AddPage_registered|].
    destruct (AddPage_fresh s k ttl page Hin) as (s' & -> & Hp & Hh & Hct & Hhc).
    rewrite Hp, Hct, Hhc, length_app. simpl. lia.
Qed.

Lemma SetActivePage_wellFormed s k :
  wellFormed s -> wellFormed (Skeleton.SetActivePage k s).
Proof.
  intros ([Hlen Hnd] & Hc & Hr). unfold Skeleton.SetActivePage.
  destruct (Skeleton.findKey k _ 0) as [j|] eqn:Hf; [|done].
  destruct (findKey_Some _ _ _ _ Hf) as (d & hdr & -> & Hd & Hk & _).
  apply lookup_lt_Some in Hd.
  split; [done|]. simpl. split; [done|]. lia.
Qed.

Lemma UpdatePageTitle_wellFormed s k ttl :
  wellFormed s -> wellFormed (Skeleton.UpdatePageTitle k ttl s).
Proof.
  intros ([Hlen Hnd] & Hc & Hr).
  unfold wellFormed, registered, keys, Skeleton.UpdatePageTitle,
    header.UpdateCommonHeader.
  rewrite calculateTitleLength_fst. simpl.
  rewrite length_map. fold (keys s).
  change (map ?f ?l) with (f <$> l).
  rewrite <- list_fmap_compose.
  split; [split; [done|]|done].
  erewrite list_fmap_ext; [exact Hnd|].
  intros i hdr _. simpl. by destruct (decide _).
Qed.

Lemma closeActivePage_wellFormed s :
  wellFormed s -> exists s', closeActivePage s = Some s' /\ wellFormed s'.
Proof.
  intros Hwf.
  destruct (wellFormed_active s Hwf) as (page & hdr & Hpage & Hhdr & _ & Hact).
  unfold closeActivePage. rewrite Hact.
  destruct (decide (length (Skeleton.pages s) = 1%nat)) as [Hone|Hmany].
  { exists s. split; [|done]. unfold Skeleton.DeletePage.
    by rewrite decide_True. }
  destruct Hwf as (Hreg & Hc & Hr).
  destruct (DeletePage_present s (header.key hdr) _ hdr (header.key hdr)
              Hreg Hmany Hact Hhdr eq_refl)
    as (s' & -> & Hp & Hh & Hct & Hhc).
  exists s'. split; [done|]. rewrite decide_True in Hct, Hhc by done.
  destruct (delete_registered s s' _ hdr Hreg Hhdr Hp Hh) as [Hreg' Hlen'].
  split; [done|]. rewrite Hct, Hhc. split; [done|]. lia.
Qed.

Lemma padding_wellFormed s padding :
  wellFormed s ->
  wellFormed (Skeleton.SetTabLeftPadding padding s)
  /\ wellFormed (Skeleton.SetTabRightPadding padding s).
Proof.
  intros Hwf. split; (eapply wellFormed_frame; [exact Hwf|..]);
    unfold Skeleton.SetTabLeftPadding, Skeleton.SetTabRightPadding,
      header.SetLeftPadding, header.SetRightPadding;
    rewrite ?calculateTitleLength_fst; done.
Qed.

Lemma header_lockAll_currentTab (l : list header.commonHeader) : forall h,
  header.currentTab
    (foldl (fun h hdr => header.LockTab (header.key hdr) h) h l)
  = header.currentTab h.
Proof. induction l as [|hdr l IH]; intros h; [done|]. cbn [foldl]. by rewrite IH. Qed.

Lemma unlockAll_frame (l : list header.commonHeader) : forall s,
  let s' := foldl (fun s hdr => Skeleton.UnlockTab (header.key hdr) s) s l in
  header.headers (Skeleton.header s') = header.headers (Skeleton.header s)
  /\ Skeleton.pages s' = Skeleton.pages s
  /\ Skeleton.currentTab s' = Skeleton.currentTab s
  /\ header.currentTab (Skeleton.header s')
     = header.currentTab (Skeleton.header s).
Proof.
  induction l as [|hdr l IH]; intros s; [done|]. cbn [foldl]. cbv zeta.
  destruct (IH (Skeleton.UnlockTab (header.key hdr) s)) as (H1 & H2 & H3 & H4).
  by rewrite H1, H2, H3, H4.
Qed.

Lemma UnlockTabs_wellFormed s :
  wellFormed s -> wellFormed (Skeleton.UnlockTabs s).
Proof.
  intros Hwf. unfold Skeleton.UnlockTabs.
  set (s1 := Skeleton.set_lockTabs false _).
  destruct (unlockAll_frame (header.headers (Skeleton.header s1)) s1)
    as (H1 & H2 & H3 & H4).
  eapply wellFormed_frame; [exact Hwf|..].
  - exact H1.
  - exact (f_equal length H2).
  - exact H3.
  - exact H4.
Qed.

Lemma applyLockOp_wellFormed (op : LockOp) s :
  wellFormed s -> exists s', applyLockOp op s = Some s' /\ wellFormed s'.
Proof.
  intros Hwf. pose proof Hwf as ([Hlen Hnd] & Hc & Hr).
  destruct op as [|k|k| |]; simpl.
  - eexists. split; [done|]. eapply wellFormed_frame; [exact Hwf|..]; simpl.
    + apply header_lockAll_headers.
    + done.
    + done.
    + apply header_lockAll_currentTab.
  - eexists. split; [done|]. by eapply wellFormed_frame.
  - eexists. split; [done|]. by eapply wellFormed_frame.
  - unfold Skeleton.LockTabsToTheLeft.
    destruct (_ <=? 0); [by eexists|].
    destruct (Z.ltb_spec
                (Z.of_nat (length (header.headers (Skeleton.header s))))
                (Skeleton.currentTab s)); [lia|].
    eexists. split; [done|].
    match goal with |- context [Skeleton.lockAll ?l s] =>
      destruct (lockAll_spec l s) as (_ & Hh & Hp & Hct & Hhc & _) end.
    eapply wellFormed_frame; [exact Hwf|..]; simpl; congruence.
  - unfold Skeleton.LockTabsToTheRight.
    destruct (_ <=? Skeleton.currentTab s); [by eexists|].
    destruct (Z.ltb_spec (Skeleton.currentTab s + 1) 0); [lia|].
    eexists. split; [done|].
    match goal with |- context [Skeleton.lockAll ?l s] =>
      destruct (lockAll_spec l s) as (_ & Hh & Hp & Hct & Hhc & _) end.
    eapply wellFormed_frame; [exact Hwf|..]; simpl; congruence.
Qed.

Lemma header_Update_frame msg h :
  header.headers (fst (header.Update msg h)) = header.headers h
  /\ header.currentTab (fst (header.Update msg h)) = header.currentTab h
  /\ header.lockedTabs (fst (header.Update msg h)) = header.lockedTabs h.
Proof.
  destruct msg as [w ht|k|k ttl page| |b|b| |tag]; try done.
  unfold header.Update.
  set (h1 := header.set_viewport _ _).
  assert (header.headers h1 = header.headers h
          /\ header.currentTab h1 = header.currentTab h
          /\ header.lockedTabs h1 = header.lockedTabs h) as (H1 & H2 & H3).
  { unfold h1. by destruct (negb _); [destruct (_ && _)|]. }
  rewrite (surjective_pairing (header.calculateTitleLength _)).
  cbn [fst]. by rewrite !calculateTitleLength_fst.
Qed.

(** [updateSkeleton] hands the message to the page under the index and
    stores what the page returns. *)
Lemma updateSkeleton_step msg cmds s :
  wellFormed s ->
  exists s' cmds' page,
    Skeleton.updateSkeleton msg cmds s = Some (s', cmds')
    /\ Skeleton.pages s !! Z.to_nat (Skeleton.currentTab s) = Some page
    /\ Skeleton.pages s'
       = <[Z.to_nat (Skeleton.currentTab s) := fst (model_Update page msg)]>
           (Skeleton.pages s)
    /\ header.headers (Skeleton.header s')
       = header.headers (Skeleton.header s)
    /\ header.lockedTabs (Skeleton.header s')
       = header.lockedTabs (Skeleton.header s)
    /\ Skeleton.lockTabs s' = Skeleton.lockTabs s
    /\ Skeleton.currentTab s' = Skeleton.currentTab s
    /\ header.currentTab (Skeleton.header s')
       = header.currentTab (Skeleton.header s).
Proof.
  intros Hwf.
  destruct (wellFormed_active s Hwf) as (page & hdr & Hpage & _ & Hidx & _).
  rewrite (updateSkeleton_Some msg cmds s page Hidx).
  destruct (header_Update_frame msg (Skeleton.header s)) as (H1 & H2 & H3).
  eexists _, _, page. split; [done|]. by repeat split.
Qed.

(** A navigation stays on a page. *)
Lemma switchPage_step cmds position s :
  wellFormed s ->
  exists s' cmds',
    Skeleton.switchPage cmds position s = Some (s', cmds')
    /\ wellFormed s'
    /\ Skeleton.pages s' = Skeleton.pages s
    /\ header.headers (Skeleton.header s')
       = header.headers (Skeleton.header s)
    /\ header.lockedTabs (Skeleton.header s')
       = header.lockedTabs (Skeleton.header s)
    /\ Skeleton.lockTabs s' = Skeleton.lockTabs s.
Proof.
  intros Hwf. pose proof Hwf as ([Hlen Hnd] & Hc & Hr).
  assert (forall j : nat,
             (j < length (Skeleton.pages s))%nat ->
             wellFormed (fst (Skeleton.moveTo j cmds s))) as Hmove.
  { intros j Hj. split; [done|]. simpl. split; [done|lia]. }
  unfold Skeleton.switchPage.
  destruct (Skeleton.IsTabsLocked s); [by eexists _, _|].
  destruct (decide (position = "left")) as [_|_].
  { destruct (scanLeft_spec s (Z.to_nat (Skeleton.currentTab s)))
      as [(j & hdr & -> & Hj & _)|[-> _]]; [lia| |by eexists _, _].
    eexists _, _. split; [done|]. split; [apply Hmove; lia|done]. }
  destruct (decide (position = "right")) as [_|_]; [|by eexists _, _].
  destruct (Z.ltb_spec (Skeleton.currentTab s + 1) 0); [lia|].
  destruct (scanRight_spec s
              (length (Skeleton.pages s)
               - Z.to_nat (Skeleton.currentTab s + 1))
              (Z.to_nat (Skeleton.currentTab s + 1)))
    as [(j & hdr & -> & Hj & _)|[-> _]]; [right; lia| |by eexists _, _].
  eexists _, _. split; [done|]. split; [apply Hmove; lia|done].
Qed.

Lemma sync_currentTab s :
  header.currentTab (Skeleton.header s) = Skeleton.currentTab s ->
  Skeleton.set_currentTab (header.GetCurrentTab (Skeleton.header s)) s = s.
Proof.
  destruct s. unfold header.GetCurrentTab, Skeleton.set_currentTab. simpl.
  by intros ->.
Qed.

(** One event: the state [Update] returns, and the pages it holds. *)
Lemma Update_step msg s :
  wellFormed s ->
  exists s' c,
    Skeleton.Update msg s = Some (s', c)
    /\ wellFormed s'
    /\ sameTabs s s'
    /\ Skeleton.pages s'
       = if dispatched msg then
           alter (fun page => fst (model_Update page msg))
                 (Z.to_nat (Skeleton.currentTab s')) (Skeleton.pages s)
         else Skeleton.pages s.
Proof.
  intros Hwf. pose proof Hwf as (Hreg & Hc & Hr).
  unfold Skeleton.Update. rewrite (sync_currentTab s Hc).
  assert (forall s0 cmds,
    wellFormed s0 ->
    Skeleton.pages s0 = Skeleton.pages s ->
    sameTabs s s0 ->
    exists s' cmds',
      Skeleton.updateSkeleton msg cmds s0 = Some (s', cmds')
      /\ wellFormed s' /\ sameTabs s s'
      /\ Skeleton.pages s'
         = alter (fun page => fst (model_Update page msg))
                 (Z.to_nat (Skeleton.currentTab s')) (Skeleton.pages s))
    as Hfwd.
  { intros s0 cmds Hwf0 Hp0 (T1 & T2 & T3 & T4).
    destruct (updateSkeleton_step msg cmds s0 Hwf0)
      as (s' & cmds' & page & -> & Hpage & Hp & Hh & Hl & Hlt & Hct & Hhc).
    exists s', cmds'. split; [done|].
    assert (length (Skeleton.pages s') = length (Skeleton.pages s0)) as Hlen'
        by (by rewrite Hp, length_insert).
    split; [by eapply wellFormed_frame|].
    split; [unfold sameTabs; repeat split; congruence|].
    rewrite Hp, Hct, <- Hp0. symmetry.
    apply list_eq. intros i.
    destruct (decide (i = Z.to_nat (Skeleton.currentTab s0))) as [->|Hne].
    - rewrite list_lookup_alter_eq, Hpage. apply lookup_lt_Some in Hpage.
      by rewrite list_lookup_insert_eq.
    - by rewrite list_lookup_alter_ne, list_lookup_insert_ne. }
  assert (sameTabs s s) as Hsame by done.
  assert (forall s0 b, wellFormed s0 -> sameTabs s s0 ->
            sameTabs s (Skeleton.set_updater b s0)
            /\ wellFormed (Skeleton.set_updater b s0)) as Hupd.
  { intros s0 b Hwf0 Hs0. split; [exact Hs0|by eapply wellFormed_frame]. }
  destruct msg as [w h|k|k ttl page| |b|b| |tag]; cbn [dispatched].
  - match goal with |- context [Skeleton.updateSkeleton _ _ ?s0] =>
      destruct (Hfwd s0 [] ) as (s' & cmds' & -> & Hwf' & Hs' & Hp') end.
    + eapply wellFormed_frame; [exact Hwf|..];
        by destruct (negb _); [destruct (_ && _)|].
    + by destruct (negb _); [destruct (_ && _)|].
    + unfold sameTabs. by destruct (negb _); [destruct (_ && _)|].
    + by eexists _, _.
  - destruct k.
    + by eexists _, _.
    + destruct (switchPage_step [] "left" s Hwf)
        as (s1 & cmds1 & -> & Hwf1 & Hp1 & Hh1 & Hl1 & Hlt1).
      destruct (Hfwd s1 cmds1 Hwf1 Hp1) as (s' & cmds' & -> & Hwf' & Hs' & Hp').
      { unfold sameTabs. by rewrite Hh1, Hl1, Hlt1, Hp1. }
      by eexists _, _.
    + destruct (switchPage_step [] "right" s Hwf)
        as (s1 & cmds1 & -> & Hwf1 & Hp1 & Hh1 & Hl1 & Hlt1).
      destruct (Hfwd s1 cmds1 Hwf1 Hp1) as (s' & cmds' & -> & Hwf' & Hs' & Hp').
      { unfold sameTabs. by rewrite Hh1, Hl1, Hlt1, Hp1. }
      by eexists _, _.
    + destruct (Hfwd s [] Hwf eq_refl Hsame) as (s' & cmds' & -> & Hwf' & Hs' & Hp').
      by eexists _, _.
  - destruct (Hfwd s ([] ++ [model_Init page]) Hwf eq_refl Hsame)
      as (s' & cmds' & -> & Hwf' & Hs' & Hp').
    eexists _, _. split; [done|]. unfold Skeleton.appendListen, Updater.Listen.
    destruct (Updater.listening _); cbn [fst Skeleton.batch];
      (split; [by eapply wellFormed_frame|split; [exact Hs'|exact Hp']]).
  - destruct (Hfwd s [] Hwf eq_refl Hsame) as (s' & cmds' & -> & Hwf' & Hs' & Hp').
    eexists _, _. split; [done|]. unfold Skeleton.appendListen, Updater.Listen.
    destruct (Updater.listening _); cbn [fst Skeleton.batch];
      (split; [by eapply wellFormed_frame|split; [exact Hs'|exact Hp']]).
  - eexists _, _. split; [done|]. split; [by eapply wellFormed_frame|done].
  - eexists _, _. split; [done|]. split; [by eapply wellFormed_frame|done].
  - destruct (Hfwd s [] Hwf eq_refl Hsame) as (s' & cmds' & -> & Hwf' & Hs' & Hp').
    eexists _, _. split; [done|]. unfold Skeleton.appendListen, Updater.Listen.
    destruct (Updater.listening _); cbn [fst Skeleton.batch];
      (split; [by eapply wellFormed_frame|split; [exact Hs'|exact Hp']]).
  - destruct (Hfwd s [] Hwf eq_refl Hsame) as (s' & cmds' & -> & Hwf' & Hs' & Hp').
    eexists _, _. split; [done|]. unfold Skeleton.appendListen, Updater.Listen.
    destruct (Updater.listening _); cbn [fst Skeleton.batch];
      (split; [by eapply wellFormed_frame|split; [exact Hs'|exact Hp']]).
Qed.

Lemma View_wellFormed s : wellFormed s -> is_Some (Skeleton.View s).
Proof.
  intros Hwf.
  destruct (wellFormed_active s Hwf) as (page & hdr & _ & _ & Hidx & _).
  unfold Skeleton.View. rewrite Hidx.
  destruct (negb _); [done|]. destruct (negb _); [done|].
  by destruct (negb _).
Qed.

Lemma Init_wellFormed s : wellFormed s -> is_Some (Skeleton.Init s).
Proof.
  intros (_ & _ & Hr). unfold Skeleton.Init.
  rewrite decide_False by lia.
  by destruct (Updater.Listen _).
Qed.

Lemma applyCall_wellFormed (c : Call P) s :
  wellFormed s -> exists s', applyCall c s = Some s' /\ wellFormed s'.
Proof.
  intros Hwf. destruct c; cbn [applyCall].
  - (eexists; split; [reflexivity|]; apply AddPage_wellFormed; exact Hwf).
  - (eexists; split; [reflexivity|]; apply SetActivePage_wellFormed; exact Hwf).
  - (eexists; split; [reflexivity|]; apply UpdatePageTitle_wellFormed; exact Hwf).
  - (apply closeActivePage_wellFormed; exact Hwf).
  - (eexists; split; [reflexivity|]; exact (proj1 (padding_wellFormed s padding Hwf))).
  - (eexists; split; [reflexivity|]; exact (proj2 (padding_wellFormed s padding Hwf))).
  - (apply applyLockOp_wellFormed; exact Hwf).
  - (eexists; split; [reflexivity|]; apply UnlockTabs_wellFormed; exact Hwf).
  - (eexists; split; [reflexivity|];
    apply (wellFormed_frame s _ Hwf); reflexivity).
  - (destruct (Update_step msg s Hwf) as (s' & c & Hup & Hwf' & _)).
    (exists s').  (rewrite Hup). (split; [reflexivity|exact Hwf']).
Qed.

Lemma runCalls_wellFormed (cs : list (Call P)) : forall s,
  wellFormed s -> exists s', runCalls cs s = Some s' /\ wellFormed s'.
Proof.
  induction cs as [|c cs IH]; intros s Hwf; cbn [runCalls]; [by exists s|].
  destruct (applyCall_wellFormed c s Hwf) as (s1 & -> & Hwf1).
  by apply IH.
Qed.


(** X11. After the first [AddPage], whatever the application calls
    ([AddPage], [SetActivePage], [UpdatePageTitle], closing the active tab,
    the padding and lock calls, [TriggerUpdate]) and whatever messages the
    host delivers, in any order: no call panics, there is one page per tab
    without a key twice, and the index of the skeleton and of the header
    is the same position of a page; so [Init], [View], [GetActivePage] and
    the next [Update] return. *)
Theorem calls_and_messages_keep_the_index_on_a_page
        k ttl page (cs : list (Call P)) :
  exists s',
    runCalls cs (Skeleton.AddPage k ttl page (Skeleton.NewSkeleton (W:=W)))
    = Some s'
    /\ wellFormed s'
    /\ is_Some (Skeleton.Init s')
    /\ is_Some (Skeleton.View s')
    /\ is_Some (Skeleton.GetActivePage s')
    /\ forall msg, is_Some (Skeleton.Update msg s').
Proof.
  destruct (runCalls_wellFormed cs
              (Skeleton.AddPage k ttl page (Skeleton.NewSkeleton (W:=W))))
    as (s' & Hrun & Hwf); [apply first_page_wellFormed|].
  exists s'. split; [done|]. split; [done|].
  split; [by apply Init_wellFormed|]. split; [by apply View_wellFormed|].
  split.
  - destruct (wellFormed_active s' Hwf) as (_ & hdr & _ & _ & _ & ->). done.
  - intros msg. destruct (Update_step msg s' Hwf) as (s2 & c & -> & _). done.
Qed.
End Safety.

(** ** Closing tabs *)

Section Closing.
Context {P W : Type} `{!RuneCount, !TeaModel P, !WidgetModel W P}.
Implicit Types (s : Skeleton.t P W) (h : header.t P) (k : string).
Implicit Types (msg : Msg P) (cmds : list Cmd).

(** [DeletePage] leaves the locks and the flags alone. *)
Lemma DeletePage_locks s k s' :
  Skeleton.DeletePage k s = Some s' ->
  header.lockedTabs (Skeleton.header s')
  = header.lockedTabs (Skeleton.header s)
  /\ Skeleton.lockTabs s' = Skeleton.lockTabs s
  /\ Skeleton.termReady s' = Skeleton.termReady s
  /\ Skeleton.termSizeNotEnoughToHandleHeaders s'
     = Skeleton.termSizeNotEnoughToHandleHeaders s
  /\ Skeleton.termSizeNotEnoughToHandleWidgets s'
     = Skeleton.termSizeNotEnoughToHandleWidgets s.
Proof.
  unfold Skeleton.DeletePage.
  destruct (decide _); [by intros [= <-]|].
  destruct (Skeleton.GetActivePage s) as [active|]; [|done].
  destruct (Skeleton.keepPages _ _ _) as [pages'|]; [|done].
  unfold header.DeleteCommonHeader.
  destruct (header.deleteLoop _ _ _ _ _) as [[arr len]|]; [|done].
  intros [= <-]. rewrite calculateTitleLength_fst.
  by destruct (decide (active = k)).
Qed.

Lemma updateSkeleton_None msg cmds s :
  index (Skeleton.pages s) (Skeleton.currentTab s) = None ->
  Skeleton.updateSkeleton msg cmds s = None.
Proof.
  intros Hidx. unfold Skeleton.updateSkeleton.
  destruct (header.Update msg (Skeleton.header s)) as [h hc]. simpl.
  destruct (widget_Update (Skeleton.widget s) msg) as [w wc]. simpl.
  by rewrite Hidx.
Qed.

(** With the index one behind the last page, only the navigation to the
    left can bring it back. *)
Lemma Update_stranded msg s :
  header.currentTab (Skeleton.header s) = Skeleton.currentTab s ->
  Skeleton.currentTab s = Z.of_nat (length (Skeleton.pages s)) ->
  dispatched msg = true -> msg <> KeyMsg KeySwitchTabLeft ->
  Skeleton.Update msg s = None.
Proof.
  intros Hc Hcur Hd Hleft.
  assert (index (Skeleton.pages s) (Skeleton.currentTab s) = None) as Hidx.
  { unfold index. destruct (Z.ltb_spec (Skeleton.currentTab s) 0); [done|].
    apply lookup_ge_None_2. lia. }
  unfold Skeleton.Update. rewrite (sync_currentTab s Hc).
  destruct msg as [w ht|key|? ? ?| |b|b| |tag]; try done.
  - rewrite updateSkeleton_None; [done|].
    by destruct (negb _); [destruct (_ && _)|].
  - destruct key; try done.
    + unfold Skeleton.switchPage.
      destruct (Skeleton.IsTabsLocked s); [by rewrite updateSkeleton_None|].
      rewrite decide_False by done. rewrite decide_True by done.
      destruct (Z.ltb_spec (Skeleton.currentTab s + 1) 0); [done|].
      replace (length (Skeleton.pages s)
               - Z.to_nat (Skeleton.currentTab s + 1))%nat with 0%nat by lia.
      cbn [Skeleton.scanRight]. by rewrite updateSkeleton_None.
    + by rewrite updateSkeleton_None.
  - by rewrite updateSkeleton_None.
  - by rewrite updateSkeleton_None.
  - by rewrite updateSkeleton_None.
  - by rewrite updateSkeleton_None.
Qed.

(** X12. Deleting the active tab of two or more: the tab and its page
    leave the registry, the index of the skeleton and of the header is 0,
    so the first of the remaining tabs is the active one; the locks, that
    of the deleted key included, stay as they were. *)
Theorem deleting_the_active_tab_activates_the_first s k :
  wellFormed s -> (2 <= length (Skeleton.pages s))%nat ->
  Skeleton.GetActivePage s = Some k ->
  exists s',
    Skeleton.DeletePage k s = Some s'
    /\ keys s' = delete (Z.to_nat (Skeleton.currentTab s)) (keys s)
    /\ Skeleton.pages s'
       = delete (Z.to_nat (Skeleton.currentTab s)) (Skeleton.pages s)
    /\ (k ∉ keys s')
    /\ Skeleton.currentTab s' = 0
    /\ header.currentTab (Skeleton.header s') = 0
    /\ Skeleton.GetActivePage s' = head (keys s')
    /\ wellFormed s'
    /\ header.lockedTabs (Skeleton.header s')
       = header.lockedTabs (Skeleton.header s)
    /\ Skeleton.lockTabs s' = Skeleton.lockTabs s.
Proof.
  intros Hwf Hlen Hact.
  destruct (wellFormed_active s Hwf) as (page & hdr & Hpage & Hhdr & _ & Hact').
  assert (header.key hdr = k) as Hk by congruence.
  destruct Hwf as (Hreg & Hc & Hr).
  destruct (DeletePage_present s k _ hdr k Hreg ltac:(lia) Hact Hhdr Hk)
    as (s' & Hdel & Hp & Hh & Hct & Hhc).
  rewrite decide_True in Hct, Hhc by done.
  destruct (delete_registered s s' _ hdr Hreg Hhdr Hp Hh) as [Hreg' Hlen'].
  destruct (DeletePage_locks s k s' Hdel) as (Hl & Hlt & _).
  assert (keys s' = delete (Z.to_nat (Skeleton.currentTab s)) (keys s))
    as Hkeys by (by unfold keys; rewrite Hh, list_fmap_delete).
  exists s'. split; [done|]. split; [done|]. split; [done|].
  split; [|split; [done|split; [done|split; [|split; [|done]]]]].
  - rewrite Hkeys. destruct Hreg as [_ Hnd]. intros Hin.
    apply list_elem_of_lookup in Hin as [i Hi].
    assert (keys s !! Z.to_nat (Skeleton.currentTab s) = Some k) as Hcur.
    { unfold keys. rewrite list_lookup_fmap, Hhdr. simpl. by rewrite Hk. }
    destruct (decide (i < Z.to_nat (Skeleton.currentTab s))%nat).
    + rewrite list_lookup_delete_lt in Hi by done.
      pose proof (NoDup_lookup _ _ _ _ Hnd Hi Hcur). lia.
    + rewrite list_lookup_delete_ge in Hi by lia.
      pose proof (NoDup_lookup _ _ _ _ Hnd Hi Hcur). lia.
  - unfold Skeleton.GetActivePage, index, keys. rewrite Hct. simpl.
    by destruct (header.headers (Skeleton.header s')).
  - split; [done|]. rewrite Hct, Hhc. split; [done|]. lia.
Qed.

(** X13. [DeletePage] returns in every state that has its index on a
    page, and the result has one page per tab.  The index is still on a
    page afterwards, except in one case: a tab other than the active one is
    deleted while the last tab is active.  Then the index is one behind the
    last page, and [Update] panics on every message it hands to the
    pages, the [UpdateMsg] this very call has signalled included, unless
    the message is the navigation to the left; [View] panics once the
    terminal is ready and both size flags are set. *)
Theorem delete_page_strands_the_index_in_front_of_the_last_tab s k :
  wellFormed s ->
  exists s',
    Skeleton.DeletePage k s = Some s'
    /\ registered s'
    /\ (wellFormed s'
        <-> ~ (k ∈ keys s
               /\ Skeleton.GetActivePage s <> Some k
               /\ (2 <= length (Skeleton.pages s))%nat
               /\ Skeleton.currentTab s
                  = Z.of_nat (length (Skeleton.pages s)) - 1))
    /\ (~ wellFormed s' ->
        Skeleton.currentTab s' = Z.of_nat (length (Skeleton.pages s'))
        /\ Skeleton.GetActivePage s' = None
        /\ (forall msg, dispatched msg = true ->
                        msg <> KeyMsg KeySwitchTabLeft ->
                        Skeleton.Update msg s' = None)
        /\ (Skeleton.termReady s = true ->
            Skeleton.termSizeNotEnoughToHandleHeaders s = true ->
            Skeleton.termSizeNotEnoughToHandleWidgets s = true ->
            Skeleton.View s' = None)).
Proof.
  intros Hwf.
  destruct (wellFormed_active s Hwf) as (page & hdr & Hpage & Hhdr & _ & Hact).
  pose proof Hwf as (Hreg & Hc & Hr). pose proof Hreg as [Hlen Hnd].
  destruct (decide (length (Skeleton.pages s) = 1%nat)) as [Hone|Hmany].
  { exists s. split; [unfold Skeleton.DeletePage; by rewrite decide_True|].
    split; [done|]. split; [split; [lia|done]|done]. }
  destruct (decide (k ∈ keys s)) as [Hin|Hin].
  2:{ destruct (DeletePage_absent s k) as (s' & Hdel & Hp & Hh & Hct & Hhc);
        [lia|done|by eexists|done|].
      assert (wellFormed s') as Hwf'
          by (eapply wellFormed_frame; [exact Hwf|congruence..]).
      exists s'. split; [done|]. split; [by destruct Hwf'|].
      split; [split; [tauto|done]|done]. }
  apply list_elem_of_fmap in Hin as (x & Hx & Hin).
  apply list_elem_of_lookup in Hin as [d Hd].
  destruct (DeletePage_present s k d x (header.key hdr) Hreg Hmany Hact Hd
              (eq_sym Hx)) as (s' & Hdel & Hp & Hh & Hct & Hhc).
  destruct (delete_registered s s' d x Hreg Hd Hp Hh) as [Hreg' Hlen'].
  destruct (DeletePage_locks s k s' Hdel) as (_ & _ & Hrdy & Hfh & Hfw).
  assert (k ∈ keys s) as Hin.
  { rewrite Hx. apply list_elem_of_fmap_2. by eapply list_elem_of_lookup_2. }
  exists s'. split; [done|]. split; [done|].
  destruct (decide (header.key hdr = k)) as [Hk|Hk].
  { assert (wellFormed s') as Hwf'.
    { split; [done|]. rewrite Hct, Hhc. split; [done|]. lia. }
    split; [|done]. split; [|done]. intros _ (_ & Hne & _).
    apply Hne. by rewrite Hact, Hk. }
  destruct (decide (Skeleton.currentTab s
                    = Z.of_nat (length (Skeleton.pages s)) - 1))
    as [Hlast|Hnotlast].
  - assert (~ wellFormed s') as Hnwf.
    { intros (_ & _ & Hr'). rewrite Hct in Hr'. lia. }
    split.
    { split; [done|]. intros Hno. destruct Hno.
      split; [done|]. split; [|split; [lia|done]].
      rewrite Hact. intros [= ?]. done. }
    intros _.
    assert (Skeleton.currentTab s' = Z.of_nat (length (Skeleton.pages s')))
      as Hcur' by (rewrite Hct; lia).
    assert (index (Skeleton.pages s') (Skeleton.currentTab s') = None) as Hidx.
    { unfold index. destruct (Z.ltb_spec (Skeleton.currentTab s') 0); [done|].
      apply lookup_ge_None_2. lia. }
    split; [done|]. split; [|split].
    + unfold Skeleton.GetActivePage, index.
      destruct (Z.ltb_spec (Skeleton.currentTab s') 0); [done|].
      rewrite lookup_ge_None_2; [done|]. destruct Hreg' as [Hl' _]. lia.
    + intros msg Hdisp Hleft. apply Update_stranded; [congruence|done..].
    + intros H1 H2 H3. unfold Skeleton.View.
      rewrite Hrdy, Hfh, Hfw, H1, H2, H3. simpl. by rewrite Hidx.
  - assert (wellFormed s') as Hwf'.
    { split; [done|]. rewrite Hct, Hhc. split; [done|]. lia. }
    split; [|done]. split; [|done]. intros _ (_ & _ & _ & ?). done.
Qed.
End Closing.

(** ** The width of the tabs *)

Section TitleLength.
Context {P : Type} `{!RuneCount}.
Implicit Types (h : header.t P).

Lemma wrap64_small a : - 2 ^ 63 <= a < 2 ^ 63 -> wrap64 a = a.
Proof. intros Ha. unfold wrap64. rewrite Z.mod_small; lia. Qed.

Lemma wrap64_mod a : exists q, wrap64 a = a + 2 ^ 64 * q.
Proof.
  exists (- ((a + 2 ^ 63) / 2 ^ 64)). unfold wrap64.
  pose proof (Z.div_mod (a + 2 ^ 63) (2 ^ 64)). lia.
Qed.

Lemma wrap64_congr a b q : a = b + 2 ^ 64 * q -> wrap64 a = wrap64 b.
Proof.
  intros ->. unfold wrap64. f_equal.
  replace (b + 2 ^ 64 * q + 2 ^ 63) with (b + 2 ^ 63 + q * 2 ^ 64) by lia.
  apply Z.mod_add. lia.
Qed.

Lemma addTitle_wrap h acc hdr :
  header.addTitle h (wrap64 acc) hdr = wrap64 (acc + tabWidth h hdr).
Proof.
  unfold header.addTitle, tabWidth, int_add.
  set (rc := runeCount (header.title hdr)).
  set (l := header.leftTabPadding (header.properties h)).
  set (r := header.rightTabPadding (header.properties h)).
  destruct (wrap64_mod acc) as [q0 E0].
  destruct (wrap64_mod (wrap64 acc + rc)) as [q1 E1].
  destruct (wrap64_mod (l + r)) as [q2 E2].
  destruct (wrap64_mod (wrap64 (wrap64 acc + rc) + wrap64 (l + r)))
    as [q3 E3].
  apply (wrap64_congr _ _ (q0 + q1 + q2 + q3)). lia.
Qed.

Lemma foldl_addTitle h (l : list header.commonHeader) : forall acc,
  foldl (header.addTitle h) (wrap64 acc) l
  = wrap64 (acc + foldr (fun hdr a => tabWidth h hdr + a) 0 l).
Proof.
  induction l as [|hdr l IH]; intros acc; cbn [foldl foldr].
  - by rewrite Z.add_0_r.
  - rewrite addTitle_wrap, IH. f_equal. lia.
Qed.

Lemma titleLen_tabsWidth h : header.titleLen h = wrap64 (tabsWidth h).
Proof.
  unfold header.titleLen, tabsWidth.
  change 0 with (wrap64 0) at 1. by rewrite foldl_addTitle, Z.add_0_l.
Qed.

Lemma tabsWidth_frame h h' :
  header.properties h' = header.properties h ->
  header.headers h' = header.headers h ->
  tabsWidth h' = tabsWidth h.
Proof.
  intros Hp Hh. unfold tabsWidth, tabWidth. by rewrite Hh, Hp.
Qed.

(** X14. The title length the header computes is the sum, over its tabs,
    of the code points of the title, both paddings and 2, reduced to the
    range of [int].  While that sum plus 2 and the terminal width are in
    range, the header reports that it fits exactly when the terminal is
    at least the sum plus 2 columns wide, in [calculateTitleLength] and in
    the answer to a resize event. *)
Theorem header_fits_when_the_width_covers_the_tabs h (w ht : Z) :
  0 <= tabsWidth h < 2 ^ 63 - 2 ->
  0 <= Viewport.Width (header.viewport h) < 2 ^ 63 ->
  0 <= w < 2 ^ 63 ->
  header.titleLen h = tabsWidth h
  /\ header.titleLength (fst (header.calculateTitleLength h)) = tabsWidth h
  /\ snd (header.calculateTitleLength h)
     = CmdHeaderSize
         (bool_decide (tabsWidth h + 2 <= Viewport.Width (header.viewport h)))
  /\ snd (header.Update (WindowSizeMsg w ht) h)
     = CmdBatch [CmdHeaderSize (bool_decide (tabsWidth h + 2 <= w))]
  /\ header.titleLength (fst (header.Update (WindowSizeMsg w ht) h))
     = tabsWidth h
  /\ (forall h0 : header.t P, header.titleLen h0 = wrap64 (tabsWidth h0)).
Proof.
  intros Hsum Hwidth Hw.
  assert (header.titleLen h = tabsWidth h) as Hlen.
  { rewrite titleLen_tabsWidth. apply wrap64_small. lia. }
  assert (forall v, 0 <= v < 2 ^ 63 ->
            (int_sub v (int_add (tabsWidth h) 2) <? 0)
            = negb (bool_decide (tabsWidth h + 2 <= v))) as Hfit.
  { intros v Hv. unfold int_sub, int_add.
    rewrite (wrap64_small (tabsWidth h + 2)) by lia.
    rewrite wrap64_small by lia.
    destruct (Z.ltb_spec (v - (tabsWidth h + 2)) 0).
    - by rewrite bool_decide_eq_false_2 by lia.
    - by rewrite bool_decide_eq_true_2 by lia. }
  split; [done|]. split; [by rewrite calculateTitleLength_fst|].
  split; [|split; [|split; [|apply titleLen_tabsWidth]]].
  - unfold header.calculateTitleLength, header.requiredLineCountForLine.
    rewrite Hlen, Hfit by done. by destruct (bool_decide _).
  - rewrite header_Update_resize, Hlen, Hfit by done.
    by rewrite negb_involutive.
  - unfold header.Update.
    set (h1 := header.set_viewport _ _).
    rewrite (surjective_pairing (header.calculateTitleLength _)).
    cbn [fst]. rewrite !calculateTitleLength_fst. cbn [header.titleLength header.set_titleLength].
    rewrite <- Hlen. apply titleLen_frame; unfold h1;
      by destruct (negb _); [destruct (_ && _)|].
Qed.
End TitleLength.

Section Padding.
Context {P W : Type} `{!RuneCount, !TeaModel P, !WidgetModel W P}.
Implicit Types (s : Skeleton.t P W) (h : header.t P) (k : string).

Lemma tabsWidth_padding h h' :
  header.headers h' = header.headers h ->
  tabsWidth h'
  = tabsWidth h
    + (header.leftTabPadding (header.properties h')
       + header.rightTabPadding (header.properties h')
       - (header.leftTabPadding (header.properties h)
          + header.rightTabPadding (header.properties h)))
      * Z.of_nat (length (header.headers h)).
Proof.
  intros Hh. unfold tabsWidth, tabWidth. rewrite Hh. clear Hh.
  induction (header.headers h) as [|hdr l IH]; cbn [foldr length]; [lia|].
  rewrite IH. nia.
Qed.

(** X18. [SetTabLeftPadding] and [SetTabRightPadding] store the padding
    and compute the title length again: every tab becomes wider by the
    difference to the padding it had, so the width of all tabs grows by
    that difference times the number of tabs.  Tabs, pages, the index and
    the locks stay, and the other padding too. *)
Theorem tab_padding_widens_every_tab s (padding : Z) :
  let h := Skeleton.header s in
  let hl := Skeleton.header (Skeleton.SetTabLeftPadding padding s) in
  let hr := Skeleton.header (Skeleton.SetTabRightPadding padding s) in
  (tabsWidth hl
   = tabsWidth h
     + (padding - header.leftTabPadding (header.properties h))
       * Z.of_nat (length (header.headers h))
   /\ header.titleLength hl = wrap64 (tabsWidth hl)
   /\ header.leftTabPadding (header.properties hl) = padding
   /\ header.rightTabPadding (header.properties hl)
      = header.rightTabPadding (header.properties h)
   /\ header.headers hl = header.headers h
   /\ header.lockedTabs hl = header.lockedTabs h
   /\ header.currentTab hl = header.currentTab h)
  /\ (tabsWidth hr
      = tabsWidth h
        + (padding - header.rightTabPadding (header.properties h))
          * Z.of_nat (length (header.headers h))
      /\ header.titleLength hr = wrap64 (tabsWidth hr)
      /\ header.rightTabPadding (header.properties hr) = padding
      /\ header.leftTabPadding (header.properties hr)
         = header.leftTabPadding (header.properties h)
      /\ header.headers hr = header.headers h
      /\ header.lockedTabs hr = header.lockedTabs h
      /\ header.currentTab hr = header.currentTab h)
  /\ Skeleton.pages (Skeleton.SetTabLeftPadding padding s) = Skeleton.pages s
  /\ Skeleton.pages (Skeleton.SetTabRightPadding padding s) = Skeleton.pages s
  /\ Skeleton.currentTab (Skeleton.SetTabLeftPadding padding s)
     = Skeleton.currentTab s
  /\ Skeleton.currentTab (Skeleton.SetTabRightPadding padding s)
     = Skeleton.currentTab s.
Proof.
  intros h hl hr.
  assert (header.headers hl = header.headers h
          /\ header.headers hr = header.headers h) as [Hhl Hhr].
  { unfold hl, hr, Skeleton.SetTabLeftPadding, Skeleton.SetTabRightPadding,
      header.SetLeftPadding, header.SetRightPadding.
    by rewrite !calculateTitleLength_fst. }
  assert (header.titleLength hl = header.titleLen hl
          /\ header.titleLength hr = header.titleLen hr) as [Htl Htr].
  { unfold hl, hr, Skeleton.SetTabLeftPadding, Skeleton.SetTabRightPadding,
      header.SetLeftPadding, header.SetRightPadding.
    rewrite !calculateTitleLength_fst.
    unfold header.titleLen, header.addTitle. done. }
  assert (header.properties hl
          = header.mkProperties
              (header.borderColor (header.properties h)) padding
              (header.rightTabPadding (header.properties h))
          /\ header.properties hr
             = header.mkProperties
                 (header.borderColor (header.properties h))
                 (header.leftTabPadding (header.properties h)) padding)
    as [Hpl Hpr].
  { unfold hl, hr, Skeleton.SetTabLeftPadding, Skeleton.SetTabRightPadding,
      header.SetLeftPadding, header.SetRightPadding.
    by rewrite !calculateTitleLength_fst. }
  split; [|split].
  - split.
    { rewrite (tabsWidth_padding h hl Hhl), Hpl.
      cbn [header.leftTabPadding header.rightTabPadding]. f_equal. f_equal.
      lia. }
    split; [by rewrite Htl, titleLen_tabsWidth|].
    rewrite Hpl. split; [done|]. split; [done|]. split; [done|].
    unfold hl, Skeleton.SetTabLeftPadding, header.SetLeftPadding.
    by rewrite !calculateTitleLength_fst.
  - split.
    { rewrite (tabsWidth_padding h hr Hhr), Hpr.
      cbn [header.leftTabPadding header.rightTabPadding]. f_equal. f_equal.
      lia. }
    split; [by rewrite Htr, titleLen_tabsWidth|].
    rewrite Hpr. split; [done|]. split; [done|]. split; [done|].
    unfold hr, Skeleton.SetTabRightPadding, header.SetRightPadding.
    by rewrite !calculateTitleLength_fst.
  - done.
Qed.
End Padding.

(** ** What is drawn *)

Section Rendering.
Context {P W : Type} `{!RuneCount, !TeaModel P, !WidgetModel W P}.
Implicit Types (s : Skeleton.t P W) (h : header.t P) (k : string).
Implicit Types (msg : Msg P) (cmds : list Cmd).

Lemma lipglossHeight_pos str : 1 <= Skeleton.lipglossHeight str.
Proof.
  induction str as [|c str IH]; simpl; [lia|]. destruct (Ascii.eqb _ _); lia.
Qed.

Lemma append_empty_r (str : string) : str +:+ "" = str.
Proof.
  induction str as [|c str IH]; [done|].
  change (String c str +:+ "") with (String c (str +:+ "")). by rewrite IH.
Qed.

Lemma lipglossHeight_only_newlines n :
  Skeleton.lipglossHeight (Skeleton.newlines n) = 1 + Z.of_nat n.
Proof.
  induction n as [|n IHn]; [done|].
  cbn [Skeleton.newlines Skeleton.lipglossHeight].
  change (Ascii.eqb "010" "010") with true. cbv iota. lia.
Qed.

Lemma lipglossHeight_newlines str n :
  Skeleton.lipglossHeight (str +:+ Skeleton.newlines n)
  = Skeleton.lipglossHeight str + Z.of_nat n.
Proof.
  induction str as [|c str IH].
  - change ("" +:+ Skeleton.newlines n) with (Skeleton.newlines n).
    rewrite lipglossHeight_only_newlines. cbn [Skeleton.lipglossHeight]. lia.
  - change (String c str +:+ Skeleton.newlines n)
      with (String c (str +:+ Skeleton.newlines n)).
    cbn [Skeleton.lipglossHeight]. rewrite IH.
    destruct (Ascii.eqb _ _); lia.
Qed.

(** X15. The header line, once the terminal is ready and wide enough:
    one title per tab in tab order between the corners, followed by the
    rule that fills the rest of the width.  The tab under the index has
    the active style; any other tab has the disabled style exactly when
    its own key is locked, so the test of [GetLockTabs] adds nothing.
    Before the terminal is ready the header is the set-up text, and it is
    empty when the titles do not fit. *)
Theorem header_view_draws_one_title_per_tab h :
  header.termReady h = true ->
  exists left right,
    (0 <= int_sub (Viewport.Width (header.viewport h))
                  (int_add (header.titleLength h) 2) ->
     header.View h
     = JoinHorizontal
         [left;
          JoinHorizontal
            (Text "" ::
             imap (fun i hdr => Render (tabStyle h i hdr)
                                       (Text (header.title hdr)))
                  (header.headers h)
             ++ [Render (Foreground (header.borderColor (header.properties h)))
                        (Rule (int_sub (Viewport.Width (header.viewport h))
                                       (int_add (header.titleLength h) 2)))]);
          right])
    /\ (int_sub (Viewport.Width (header.viewport h))
                (int_add (header.titleLength h) 2) < 0 ->
        header.View h = Text "")
    /\ (forall h0 : header.t P,
           header.termReady h0 = false ->
           header.View h0 = Text "setting up terminal...").
Proof.
  intros Hr. eexists _, _. split; [|split].
  - intros Hfit. unfold header.View. rewrite Hr. cbn [negb].
    destruct (Z.ltb_spec (int_sub (Viewport.Width (header.viewport h))
                            (int_add (header.titleLength h) 2)) 0); [lia|].
    erewrite (imap_ext _ (fun i hdr => Render (tabStyle h i hdr)
                                              (Text (header.title hdr))));
      [reflexivity|].
    intros i hdr Hi. unfold tabStyle.
    destruct (decide _); [done|].
    destruct (header.GetLockTabs h) eqn:Hall.
    + rewrite (proj1 (GetLockTabs_spec h) Hall hdr); [done|].
      by eapply list_elem_of_lookup_2.
    + by destruct (header.IsTabLocked _ _).
  - intros Hnarrow. unfold header.View. rewrite Hr. cbn [negb].
    destruct (Z.ltb_spec (int_sub (Viewport.Width (header.viewport h))
                            (int_add (header.titleLength h) 2)) 0);
      [done|lia].
  - intros h0 Hr0. unfold header.View. by rewrite Hr0.
Qed.

(** X16. Once the terminal is ready and both size flags are set, the
    screen is the header, the framed page and the widget bar, top to
    bottom.  The page text is the view of the page under the index with
    nothing but newlines appended, so that it has the reserved number of
    lines when it is shorter, and its own number of lines otherwise. *)
Theorem view_pads_the_page_to_the_reserved_height s :
  wellFormed s ->
  Skeleton.termReady s = true ->
  Skeleton.termSizeNotEnoughToHandleHeaders s = true ->
  Skeleton.termSizeNotEnoughToHandleWidgets s = true ->
  exists page (pad : nat),
    Skeleton.pages s !! Z.to_nat (Skeleton.currentTab s) = Some page
    /\ Skeleton.View s
       = Some (JoinVertical
                 [header.View (Skeleton.header s);
                  Render (PageFrame
                            (Skeleton.borderColor (Skeleton.properties s))
                            (int_sub (Viewport.Width (Skeleton.viewport s)) 2))
                         (Text (model_View page +:+ Skeleton.newlines pad));
                  Text (widget_View (Skeleton.widget s))])
    /\ Skeleton.lipglossHeight (model_View page +:+ Skeleton.newlines pad)
       = Z.max (Skeleton.lipglossHeight (model_View page)) (bodyHeight s)
    /\ Z.of_nat pad
       = Z.max 0 (bodyHeight s - Skeleton.lipglossHeight (model_View page)).
Proof.
  intros Hwf Hr Hfh Hfw.
  destruct (wellFormed_active s Hwf) as (page & hdr & Hpage & _ & Hidx & _).
  exists page,
    (Z.to_nat (bodyHeight s - Skeleton.lipglossHeight (model_View page))).
  split; [done|]. split; [|split].
  - unfold Skeleton.View. rewrite Hr, Hfh, Hfw, Hidx. cbn [negb].
    fold (bodyHeight s).
    destruct (Z.ltb_spec (Skeleton.lipglossHeight (model_View page))
                         (bodyHeight s)); [done|].
    replace (Z.to_nat _) with 0%nat by lia.
    cbn [Skeleton.newlines]. by rewrite append_empty_r.
  - rewrite lipglossHeight_newlines. lia.
  - lia.
Qed.

(** X17. [AddPage] with a new key signals the host twice: the bare
    [UpdateMsg] of the header, then the [AddPageMsg] that carries the
    page; a channel with one free slot takes the first and drops the
    second.  Whenever the [AddPageMsg] is delivered to a skeleton with its
    index on a page, the command [Update] returns starts with the [Init]
    command of the added page, followed by the commands of the header, the
    widget bar and the active page and by a new [Listen], and the guard is
    set. *)
Theorem add_page_signals_the_init_of_the_page s k ttl page :
  k ∉ keys s ->
  chanBounded (Updater.rcv (Skeleton.updater s)) ->
  Chan.buf (Updater.rcv (Skeleton.updater (Skeleton.AddPage k ttl page s)))
  = take (Chan.capacity (Updater.rcv (Skeleton.updater s)))
         (Chan.buf (Updater.rcv (Skeleton.updater s))
          ++ [UpdateMsg; AddPageMsg k ttl page])
  /\ Updater.listening (Skeleton.updater (Skeleton.AddPage k ttl page s))
     = Updater.listening (Skeleton.updater s)
  /\ forall s0 : Skeleton.t P W,
      wellFormed s0 ->
      exists s' active,
        Skeleton.pages s0 !! Z.to_nat (Skeleton.currentTab s0) = Some active
        /\ Skeleton.Update (AddPageMsg k ttl page) s0
           = Some (s', CmdBatch
                         [model_Init page;
                          CmdBatch [];
                          snd (widget_Update (Skeleton.widget s0)
                                             (AddPageMsg k ttl page));
                          snd (model_Update active (AddPageMsg k ttl page));
                          snd (Updater.Listen (Skeleton.updater s0))])
        /\ Updater.listening (Skeleton.updater s') = true.
Proof.
  intros Hfresh Hb. split; [|split].
  - unfold Skeleton.AddPage.
    destruct (existsb _ _) eqn:Hex; [by apply hasKey_spec in Hex|].
    unfold header.AddCommonHeader. rewrite calculateTitleLength_fst.
    exact (proj1 (signalAll_buf [UpdateMsg; AddPageMsg k ttl page]
                                (Skeleton.updater s) Hb)).
  - unfold Skeleton.AddPage.
    destruct (existsb _ _) eqn:Hex; [by apply hasKey_spec in Hex|].
    unfold header.AddCommonHeader. rewrite calculateTitleLength_fst.
    exact (proj2 (proj2 (signalAll_buf [UpdateMsg; AddPageMsg k ttl page]
                                       (Skeleton.updater s) Hb))).
  - intros s0 Hwf.
    destruct (wellFormed_active s0 Hwf) as (active & hdr & Hact & _ & Hidx & _).
    destruct Hwf as (_ & Hc & _).
    destruct (Updater.listening (header.updater (Skeleton.header s0)))
      eqn:Hl;
      unfold Skeleton.Update; rewrite (sync_currentTab s0 Hc);
      rewrite (updateSkeleton_Some _ _ s0 active Hidx);
      (eexists _, active; split; [done|]);
      unfold Skeleton.appendListen, Updater.Listen, Skeleton.updater;
      cbn [fmap option_fmap option_map Skeleton.batch fst snd];
      change (Updater.listening
                (header.updater
                   (Skeleton.header (Skeleton.set_pages _ _))))
        with (Updater.listening (header.updater (Skeleton.header s0)));
      rewrite Hl; (split; [reflexivity|]).
    + exact Hl.
    + reflexivity.
Qed.
End Rendering.

(** ** The properties on the concrete states *)

Section Instances.
Import Examples.
Local Existing Instances asciiRunes textPage noWidgets.

(** C1 on a full channel of capacity 2 and on a short trace of events. *)
Lemma signal_on_a_saturated_channel :
  (Chan.send IAMActivePage (Updater.rcv saturated) = None
   /\ Updater.UpdateWithMsg IAMActivePage saturated = saturated
   /\ Updater.Update saturated = saturated)
  /\ (Chan.len (Updater.rcv (Updater.bus_updater
        (Updater.bus_run traffic (Updater.mkBus saturated [] []))))
      <= Chan.capacity (Updater.rcv saturated))%nat
  /\ (Chan.len (Updater.rcv (Updater.bus_updater
        (Updater.bus_run traffic Updater.NewBus)))
      <= 256)%nat
  /\ (forall u0 : Updater.t string,
         (Chan.len (Updater.rcv u0) < Chan.capacity (Updater.rcv u0))%nat ->
         Chan.buf (Updater.rcv (Updater.UpdateWithMsg IAMActivePage u0))
         = Chan.buf (Updater.rcv u0) ++ [IAMActivePage]).
Proof.
  apply (signal_never_blocks_nor_overflows
           (Updater.mkBus saturated [] []) traffic saturated IAMActivePage).
  - vm_compute. lia.
  - reflexivity.
Defined.

(** C4 on the updater after a first [Listen]. *)
Lemma subscribe_twice :
  Updater.listening subscribed = true
  /\ Updater.Listen subscribed = (subscribed, CmdNil).
Proof.
  split; [reflexivity|].
  apply (subscribe_while_subscribed_is_noop subscribed [] [] traffic).
  reflexivity.
Defined.

(** C5 on the skeleton with one page, whose channel holds the signals of
    [AddPage]. *)
Lemma subscribe_after_the_first_drain :
  Updater.runListenCmd (Skeleton.updater home) = Some (UpdateMsg, homeDrained)
  /\ Updater.Listen homeDrained
     = (Updater.set_listening true homeDrained, CmdListen).
Proof.
  split; [reflexivity|].
  apply (drained_subscription_is_rearmed home UpdateMsg homeDrained
           (Updater.EvRelease 0) Updater.NewBus).
  - reflexivity.
  - eexists. reflexivity.
Defined.

(** C5 as stated fails.  A size report that the application has put on
    the channel is drained while a listener is subscribed, and [Update]
    answers it without a new [Listen]: the guard is clear and no listener
    is left.  Among goroutines, a message can be delivered while the guard
    is set again, so that the [Listen] that follows returns [nil]. *)
Lemma a_drained_size_report_is_not_rearmed :
  (Updater.listening (Skeleton.updater idle) = true
   /\ Chan.buf (Updater.rcv (Skeleton.updater idle)) = []
   /\ is_Some (index (Skeleton.pages reported)
                     (header.currentTab (Skeleton.header reported)))
   /\ Updater.runListenCmd (Skeleton.updater reported)
      = Some (HeaderSizeMsg true, reportDrained)
   /\ Skeleton.Update (HeaderSizeMsg true)
                      (Skeleton.set_updater reportDrained reported)
      = Some (afterReport, CmdBatch [])
   /\ Updater.listening (Skeleton.updater afterReport) = false)
  /\ (Updater.bus_delivered overtaken = []
      /\ Updater.bus_delivered (Updater.bus_step (Updater.EvReturn 0) overtaken)
         = [UpdateMsg]
      /\ Updater.Listen
           (Updater.bus_updater
              (Updater.bus_step (Updater.EvReturn 0) overtaken))
         = (Updater.bus_updater
              (Updater.bus_step (Updater.EvReturn 0) overtaken), CmdNil)).
Proof.
  split.
  - split; [vm_compute; reflexivity|]. split; [vm_compute; reflexivity|].
    split; [eexists; vm_compute; reflexivity|].
    split; [vm_compute; reflexivity|]. split; vm_compute; reflexivity.
  - split; [vm_compute; reflexivity|]. split; vm_compute; reflexivity.
Qed.

(** C3 on the skeleton with one page. *)
Lemma delete_the_only_page :
  length (Skeleton.pages home) = 1%nat
  /\ Skeleton.DeletePage "a" home = Some home.
Proof.
  split; [reflexivity|].
  apply (registry_keeps_one_page home "a" "a" "Home" "home page"
           [OpDeletePage "a"; OpAddPage "b" "Logs" "logs page";
            OpDeletePage "a"]).
  reflexivity.
Defined.

(** C9 on the skeleton with the tabs [a] and [b]. *)
Lemma add_a_registered_key :
  Skeleton.AddPage "a" "Dup" "dup page" homeLogs = homeLogs.
Proof.
  apply (duplicate_key_is_rejected homeLogs "a" "Dup" "dup page" []).
  - apply (bool_decide_unpack _). vm_compute. exact I.
  - apply (bool_decide_unpack _). vm_compute. exact I.
Defined.

(** C10 on three tabs with [b] active: [a] is deleted. *)
Lemma delete_the_tab_before_the_active_one :
  Skeleton.GetActivePage threeTabs = Some "b"
  /\ exists s', Skeleton.DeletePage "a" threeTabs = Some s'
       /\ Skeleton.currentTab s' = 1.
Proof.
  split; [reflexivity|].
  destruct (deleting_another_tab_keeps_the_index threeTabs "a" "b")
    as (s' & Hdel & Hcur & _).
  - split; [reflexivity|]. apply (bool_decide_unpack _). vm_compute. exact I.
  - vm_compute. lia.
  - reflexivity.
  - discriminate.
  - exists s'. split; [exact Hdel|exact Hcur].
Defined.

(** C2 on three tabs with [b] active. *)
Lemma navigate_under_the_global_lock :
  Skeleton.lockTabs threeTabs = false
  /\ Skeleton.switchPage [] "left" (Skeleton.LockTabs threeTabs)
     = Some (Skeleton.LockTabs threeTabs, []).
Proof.
  split; [reflexivity|].
  apply (navigation_moves_to_nearest_unlocked_tab threeTabs []).
  - vm_compute. lia.
  - vm_compute. split; discriminate.
  - reflexivity.
Defined.

(** C6, as the code has it, on the tabs [a] and [b]. *)
Lemma lock_tabs_locks_a_registered_tab :
  Skeleton.IsTabLocked "a" (Skeleton.LockTabs homeLogs) = true.
Proof.
  apply (is_tab_locked_reads_the_individual_locks homeLogs "a").
  apply (bool_decide_unpack _). vm_compute. exact I.
Defined.

(** C7 after [LockTabs] and [LockTab]. *)
Lemma unlock_tabs_after_two_locks :
  Skeleton.IsTabLocked "a"
    (Skeleton.UnlockTabs (Skeleton.LockTab "c" (Skeleton.LockTabs threeTabs)))
  = false.
Proof.
  apply (unlock_tabs_clears_every_lock [OpLockTabs; OpLockTab "c"] threeTabs
           (Skeleton.LockTab "c" (Skeleton.LockTabs threeTabs)) "a").
  reflexivity.
Defined.

(** C8, as the code has it: a terminal of 10 columns for two tabs. *)
Lemma view_after_a_narrow_resize :
  exists s1 rest,
    Skeleton.Update (WindowSizeMsg 10 10) homeLogs
    = Some (s1, CmdBatch (CmdBatch [CmdHeaderSize false] :: rest))
    /\ Skeleton.termReady s1 = true
    /\ exists s2 c2,
        Skeleton.Update (HeaderSizeMsg false) s1 = Some (s2, c2)
        /\ Skeleton.View s2 = Some headersDoNotFit.
Proof.
  apply (view_placeholders_follow_the_measured_flags homeLogs 10 10).
  - eexists. reflexivity.
  - lia.
  - lia.
  - vm_compute. reflexivity.
Defined.

(** C6 as stated fails: the global flag is set, tab [b] is registered and
    effectively locked, and [IsTabLocked] answers [false] for it. *)
Lemma is_tab_locked_ignores_the_global_flag :
  "b" ∈ keys lockedThenAdded
  /\ Skeleton.lockTabs lockedThenAdded = true
  /\ effectivelyLocked "b" lockedThenAdded = true
  /\ Skeleton.IsTabLocked "b" lockedThenAdded = false.
Proof.
  split; [apply (bool_decide_unpack _); vm_compute; exact I|].
  split; [reflexivity|]. split; [reflexivity|]. reflexivity.
Qed.

(** C8 as stated fails: the terminal is ready and narrower than the header
    requirement, and [View] returns the composed layout, not the headers
    text. *)
Lemma view_composes_with_a_stale_header_flag :
  measuredThenAdded = Some stale
  /\ Skeleton.termReady stale = true
  /\ Viewport.Width (Skeleton.viewport stale)
     < header.titleLength (Skeleton.header stale) + 2
  /\ header.requiredLineCountForLine (Skeleton.header stale) < 0
  /\ Skeleton.View stale <> Some headersDoNotFit
  /\ exists body,
      Skeleton.View stale = Some (JoinVertical [Text ""; body; Text ""]).
Proof.
  split; [vm_compute; reflexivity|].
  split; [vm_compute; reflexivity|].
  split; [vm_compute; reflexivity|].
  split; [vm_compute; reflexivity|].
  split; [vm_compute; discriminate|].
  eexists. vm_compute. reflexivity.
Qed.
(** The scenario of the tab registry: two tabs, a rejected duplicate,
    navigation to the left, and a locked tab on the left. *)
Example scenario_duplicate_ignored :
  keys (Skeleton.AddPage "a" "Dup" "dup page" homeLogs) = ["a"; "b"]
  /\ Skeleton.pages (Skeleton.AddPage "a" "Dup" "dup page" homeLogs)
     = ["home page"; "logs page"].
Proof. split; vm_compute; reflexivity. Qed.

Example scenario_navigate_left :
  (fun r => (Skeleton.GetActivePage (fst r), snd r))
    <$> Skeleton.switchPage [] "left" (Skeleton.SetActivePage "b" homeLogs)
  = Some (Some "a", [CmdIAMActivePage]).
Proof. vm_compute. reflexivity. Qed.

Example scenario_locked_neighbour :
  (fun r => (Skeleton.GetActivePage (fst r), snd r))
    <$> Skeleton.switchPage [] "left"
          (Skeleton.LockTab "a" (Skeleton.SetActivePage "b" homeLogs))
  = Some (Some "b", [])
  /\ (fun r => (Skeleton.GetActivePage (fst r), snd r))
       <$> Skeleton.switchPage [] "right"
             (Skeleton.LockTab "a" (Skeleton.SetActivePage "b" homeLogs))
     = Some (Some "b", []).
Proof. split; vm_compute; reflexivity. Qed.

(** Deleting the tab in front of the active one: the index stays, the
    active key changes; with the last tab active, no tab is left under the
    index and the next event fails. *)
Example scenario_delete_in_front :
  (fun s => (keys s, Skeleton.currentTab s, Skeleton.GetActivePage s))
    <$> Skeleton.DeletePage "a" threeTabs
  = Some (["b"; "c"], 1, Some "c").
Proof. vm_compute. reflexivity. Qed.

Example scenario_delete_in_front_of_the_last :
  (fun s => (keys s, Skeleton.currentTab s, Skeleton.GetActivePage s,
             Skeleton.Update UpdateMsg s))
    <$> Skeleton.DeletePage "a" (Skeleton.SetActivePage "c" threeTabs)
  = Some (["b"; "c"], 2, None, None).
Proof. vm_compute. reflexivity. Qed.

(** Closed side conditions on the example states. *)
Ltac decided := apply (bool_decide_unpack _); vm_compute; exact I.
Ltac well_formed :=
  split; [split; [reflexivity|decided]
         |split; [reflexivity|vm_compute; split; [discriminate|reflexivity]]].

(** X1 on a full channel of capacity 2: both signals are dropped. *)
Lemma signal_twice_on_a_saturated_channel :
  Chan.buf (Updater.rcv (signalAll [IAMActivePage; UpdateMsg] saturated))
  = [UpdateMsg; UpdateMsg].
Proof.
  refine (proj1 (signals_queue_in_order_and_drop_the_newest
                   [IAMActivePage; UpdateMsg] saturated _)).
  vm_compute. lia.
Defined.

(** X2 on the updater of a new process. *)
Lemma listen_after_two_signals :
  exists u',
    Updater.runListenCmd
      (signalAll [IAMActivePage; UpdateMsg] (Updater.NewUpdater (P:=string)))
    = Some (IAMActivePage, u')
    /\ Chan.buf (Updater.rcv u') = [UpdateMsg].
Proof.
  destruct (listener_receives_the_oldest_signal
              IAMActivePage [UpdateMsg] (Updater.NewUpdater (P:=string)))
    as [(u' & Hrun & Hbuf & _) _].
  - reflexivity.
  - vm_compute. lia.
  - exists u'. split; [exact Hrun|exact Hbuf].
Defined.

(** X4 on three tabs: the last one is selected. *)
Lemma set_active_page_to_the_last_tab :
  Skeleton.GetActivePage (Skeleton.SetActivePage "c" threeTabs) = Some "c".
Proof.
  refine (proj1 (set_active_page_selects_the_key threeTabs "c" _)). decided.
Defined.

(** X5 on the tabs [a] and [b]. *)
Lemma retitle_the_second_tab :
  keys (Skeleton.UpdatePageTitle "b" "Journal" homeLogs) = keys homeLogs.
Proof.
  refine (proj1 (update_page_title_replaces_the_title homeLogs "b" "Journal" _)).
  decided.
Defined.

(** X6 on the tabs [a] and [b]. *)
Lemma lock_one_of_two_tabs :
  Skeleton.IsTabLocked "a" (Skeleton.LockTab "a" homeLogs) = true.
Proof.
  refine (proj1 (lock_tab_and_unlock_tab_change_one_key homeLogs "a" "b" _)).
  discriminate.
Defined.

(** X7 on the header of the tabs [a] and [b]. *)
Lemma all_tabs_locked_after_set_lock_tabs :
  header.GetLockTabs (header.SetLockTabs true (Skeleton.header homeLogs))
  = true.
Proof.
  refine (proj1 (proj2 (get_lock_tabs_reads_every_tab
                          (Skeleton.header homeLogs) _))).
  vm_compute. discriminate.
Defined.

(** X8 on three tabs with [b] active. *)
Lemma lock_the_tabs_behind_the_second :
  exists s', Skeleton.LockTabsToTheRight threeTabs = Some s'
    /\ Skeleton.switchPage [] "right" s' = Some (s', []).
Proof.
  destruct (lock_tabs_to_the_right_blocks_the_right threeTabs [])
    as (s' & Hlock & _ & _ & _ & _ & _ & Hnav & _).
  - vm_compute. discriminate.
  - vm_compute. lia.
  - decided.
  - exists s'. split; [exact Hlock|exact Hnav].
Defined.

(** X9 on three tabs with [b] active. *)
Lemma lock_the_tabs_in_front_of_the_second :
  exists s', Skeleton.LockTabsToTheLeft threeTabs = Some s'
    /\ Skeleton.switchPage [] "left" s' = Some (s', []).
Proof.
  destruct (lock_tabs_to_the_left_blocks_the_left threeTabs [])
    as (s' & Hlock & _ & _ & _ & _ & _ & Hnav & _).
  - vm_compute. discriminate.
  - decided.
  - exists s'. split; [exact Hlock|exact Hnav].
Defined.


(** X12 on three tabs with [b] active: [b] is deleted. *)
Lemma delete_the_active_tab_of_three :
  exists s', Skeleton.DeletePage "b" threeTabs = Some s'
    /\ Skeleton.currentTab s' = 0.
Proof.
  destruct (deleting_the_active_tab_activates_the_first threeTabs "b")
    as (s' & Hdel & _ & _ & _ & Hcur & _).
  - well_formed.
  - vm_compute. lia.
  - reflexivity.
  - exists s'. split; [exact Hdel|exact Hcur].
Defined.

(** X13 on three tabs with the last one active: [a] is deleted. *)
Lemma delete_in_front_of_the_last_active_tab :
  exists s', Skeleton.DeletePage "a" lastActive = Some s' /\ registered s'.
Proof.
  destruct (delete_page_strands_the_index_in_front_of_the_last_tab
              lastActive "a") as (s' & Hdel & Hreg & _).
  - well_formed.
  - exists s'. split; [exact Hdel|exact Hreg].
Defined.

(** X14 on the header of the tabs [a] and [b], resized to 100 columns. *)
Lemma two_short_titles_fit_100_columns :
  header.titleLen (Skeleton.header homeLogs)
  = tabsWidth (Skeleton.header homeLogs).
Proof.
  refine (proj1 (header_fits_when_the_width_covers_the_tabs
                   (Skeleton.header homeLogs) 100 10 _ _ _));
    vm_compute; (split; [discriminate|reflexivity]).
Defined.

(** X15 on the header of a terminal of 100 columns with a longer title. *)
Lemma header_of_a_narrow_terminal :
  header.View (Skeleton.header stale) = Text "".
Proof.
  destruct (header_view_draws_one_title_per_tab (Skeleton.header stale))
    as (left & right & _ & Hnarrow & _).
  - vm_compute. reflexivity.
  - apply Hnarrow. vm_compute. reflexivity.
Defined.

(** X16 on a measured terminal of 10 lines. *)
Lemma view_of_a_measured_terminal :
  exists page (pad : nat),
    Skeleton.pages stale !! Z.to_nat (Skeleton.currentTab stale) = Some page
    /\ Skeleton.lipglossHeight (model_View page +:+ Skeleton.newlines pad)
       = Z.max (Skeleton.lipglossHeight (model_View page)) (bodyHeight stale).
Proof.
  destruct (view_pads_the_page_to_the_reserved_height stale)
    as (page & pad & Hpage & _ & Hheight & _).
  - well_formed.
  - vm_compute. reflexivity.
  - vm_compute. reflexivity.
  - vm_compute. reflexivity.
  - exists page, pad. split; [exact Hpage|exact Hheight].
Defined.

(** X17 on the skeleton with one page: a second page is added. *)
Lemma add_a_second_page :
  Updater.listening
    (Skeleton.updater (Skeleton.AddPage "b" "Logs" "logs page" home))
  = Updater.listening (Skeleton.updater home).
Proof.
  refine (proj1 (proj2 (add_page_signals_the_init_of_the_page
                          home "b" "Logs" "logs page" _ _))).
  - decided.
  - vm_compute. lia.
Defined.
End Instances.
